(** * portfolio_streamlit: the demo dataset of [app.py] and its aggregations

    [app.py] builds one synthetic table, [make_demo_df], from a seeded numpy
    generator and shows four pandas aggregations of it (daily totals,
    region x format totals, hourly means, weekly rolling forecast).  This
    file embeds that pipeline and proves the properties the specification
    states about it.

    Modelling choices, all stated where they are made:
    - a numpy [Generator] is a mutable object: generators live in a heap
      ([gmap nat bitgen]) and [rng] is a handle into it;
    - the bit generator itself (PCG64 and its seeding) belongs to numpy and
      is a parameter of the development, with the one law numpy documents
      for a bounded draw;
    - a timestamp is a day number (days since 1970-01-01), bounded by the
      last day an int64 of nanoseconds can hold; the other integers are
      mathematical integers (every int64 of the program stays far below
      2^63);
    - the [freq] column is IEEE binary64, computed with the kernel's floats;
      means of integer sums are exact rationals. *)

From Stdlib Require Import ZArith List Sorted Ascii Strings.Byte String Floats QArith.
From Stdlib Require Import Qround Lia.
From stdpp Require Import gmap.
Import ListNotations.
Open Scope Z_scope.

(* ------------------------------------------------------------------ *)
(** ** Calendar: day numbers, civil dates, ISO weeks                    *)
(* ------------------------------------------------------------------ *)

(** Day number of the proleptic Gregorian date [y]-[m]-[d]
    (0 is 1970-01-01). *)
Definition days_from_civil (y m d : Z) : Z :=
  let y' := if m <=? 2 then y - 1 else y in
  let era := y' / 400 in
  let yoe := y' - era * 400 in
  let mp := if 2 <? m then m - 3 else m + 9 in
  let doy := (153 * mp + 2) / 5 + d - 1 in
  let doe := yoe * 365 + yoe / 4 - yoe / 100 + doy in
  era * 146097 + doe - 719468.

(** The civil date (year, month, day) of a day number. *)
Definition civil_from_days (z : Z) : Z * Z * Z :=
  let z' := z + 719468 in
  let era := z' / 146097 in
  let doe := z' - era * 146097 in
  let yoe := (doe - doe / 1460 + doe / 36524 - doe / 146096) / 365 in
  let doy := doe - (365 * yoe + yoe / 4 - yoe / 100) in
  let mp := (5 * doy + 2) / 153 in
  let d := doy - (153 * mp + 2) / 5 + 1 in
  let m := if mp <? 10 then mp + 3 else mp - 9 in
  ((if m <=? 2 then yoe + era * 400 + 1 else yoe + era * 400), m, d).

Definition year_of (z : Z) : Z := fst (fst (civil_from_days z)).

(** Day of the week, Monday = 0 (1970-01-01 was a Thursday). *)
Definition dayofweek (z : Z) : Z := (z + 3) mod 7.

(** [Series.dt.isocalendar().week]: the ISO 8601 week number, that is the
    rank of the week's Thursday among the Thursdays of its year. *)
Definition iso_week (z : Z) : Z :=
  let thursday := z - dayofweek z + 3 in
  (thursday - days_from_civil (year_of thursday) 1 1) / 7 + 1.

(* ------------------------------------------------------------------ *)
(** ** Numbers: binary64 quotients, rounding, exact means               *)
(* ------------------------------------------------------------------ *)

Definition float_of_Z (z : Z) : float := PrimFloat.of_uint63 (Uint63.of_Z z).

(** numpy's [true_divide] on two int64 values: both are converted to
    binary64 and divided. *)
Definition true_divide (a b : Z) : float :=
  PrimFloat.div (float_of_Z a) (float_of_Z b).

(** C [rint] on a non-negative binary64 below 2^52: round to the nearest
    integer, ties to even.  Adding and subtracting 2^52 performs exactly
    that rounding in the default rounding mode. *)
Definition rint (x : float) : float :=
  PrimFloat.sub (PrimFloat.add x (float_of_Z (2 ^ 52))) (float_of_Z (2 ^ 52)).

(** [ndarray.round(decimals)] for [decimals >= 0]: scale by [10^decimals],
    [rint], scale back. *)
Definition round_decimals (decimals : Z) (x : float) : float :=
  let f := float_of_Z (10 ^ decimals) in
  PrimFloat.div (rint (PrimFloat.mul x f)) f.

(** What the roundings of binary64 compute, in exact integer arithmetic
    (the kernel's specification of the operations, [SpecFloat], shifts a
    mantissa one digit at a time and keeps a record of what it shifted
    out). *)

(** The shift record of the quotient [N / D]: its integer part, whether
    the rest is at least one half, and whether it is neither zero nor one
    half. *)
Definition shr_of (N D : Z) : shr_record :=
  Build_shr_record (N / D) (D <=? 2 * (N mod D))
    (negb (N mod D =? 0) && negb (2 * (N mod D) =? D)).

(** [N / D] rounded to the nearest integer, ties to even. *)
Definition nearest_even (N D : Z) : Z :=
  round_nearest_even (N / D) (loc_of_shr_record (shr_of N D)).

Definition series_sum (xs : list Z) : Z := fold_right Z.add 0 xs.

(** [mean] of an integer column.  The sum of the column is an integer far
    below 2^53, so pandas' float mean is the binary64 nearest to this
    rational.  An empty column has mean NaN, here [None]. *)
Definition mean (xs : list Z) : option Q :=
  match xs with
  | [] => None
  | _ => Some (series_sum xs # Pos.of_nat (length xs))
  end.

(** Round to the nearest integer, ties to even ([Series.round()] with no
    decimals).  On the quotient of an integer below 2^53 by 1, 2, 3 or 4 the
    binary64 quotient and the rational round to the same integer. *)
Definition round_half_even (x : Q) : Z :=
  let f := Qfloor x in
  match Qcompare (x - inject_Z f) (1 # 2) with
  | Lt => f
  | Gt => f + 1
  | Eq => if Z.even f then f else f + 1
  end.

(* ------------------------------------------------------------------ *)
(** ** Exceptions                                                       *)
(* ------------------------------------------------------------------ *)

(** What a call can raise.
    - [ValueError]: numpy's answer to an invalid argument (a negative
      seed, a negative size, an empty range or population).
    - [DateRangeError]: [pd.date_range] cannot build the range.  For a
      negative number of periods that is an [OverflowError] or an
      [OutOfBoundsDatetime], depending on the numpy installed; for a range
      that ends after the last timestamp it is an [OutOfBoundsDatetime].
    - [DanglingGenerator] stands for the use of a handle that is not in the
      heap; [make_demo_df] only uses the handle it has just allocated. *)
Inductive exn := ValueError | DateRangeError | DanglingGenerator.

Inductive result (A : Type) :=
| Ok (a : A)
| Raise (e : exn).
Arguments Ok {A} a.
Arguments Raise {A} e.

(** What a run returned or raised, without the state it left. *)
Definition outcome {A S : Type} (r : result (A * S)) : result A :=
  match r with
  | Ok (a, _) => Ok a
  | Raise e => Raise e
  end.

(* ------------------------------------------------------------------ *)
(** ** pandas: frames, date ranges, group-by, rolling windows           *)
(* ------------------------------------------------------------------ *)

(** The frame [make_demo_df] builds, column by column as the source does
    (a dict of columns); row [k] is the [k]-th entry of every column. *)
Record DataFrame := mkDataFrame {
  date : list Z;
  region : list string;
  impressions : list Z;
  uniques : list Z;
  format : list string;
  freq : list float
}.

(** One row of a frame. *)
Record DemoRecord := mkDemoRecord {
  r_date : Z;
  r_region : string;
  r_impressions : Z;
  r_uniques : Z;
  r_format : string;
  r_freq : float
}.

(** [df.iloc[k]]: the [k]-th row, when every column has one. *)
Definition iloc (df : DataFrame) (k : nat) : option DemoRecord :=
  match nth_error (date df) k, nth_error (region df) k,
        nth_error (impressions df) k, nth_error (uniques df) k,
        nth_error (format df) k, nth_error (freq df) k with
  | Some d, Some r, Some i, Some u, Some f, Some q =>
      Some (mkDemoRecord d r i u f q)
  | _, _, _, _, _, _ => None
  end.

(** [len(df)]: the length of the index. *)
Definition nrows (df : DataFrame) : nat := List.length (date df).

(** A frame of exactly [n] rows: every column has [n] entries. *)
Definition has_rows (n : nat) (df : DataFrame) : Prop :=
  List.length (date df) = n /\ List.length (region df) = n
  /\ List.length (impressions df) = n /\ List.length (uniques df) = n
  /\ List.length (format df) = n /\ List.length (freq df) = n.

(** [n] consecutive days from [start]. *)
Definition day_range (start n : Z) : list Z :=
  map (fun k => start + Z.of_nat k) (seq 0 (Z.to_nat n)).

(** pandas keeps a timestamp as an int64 of nanoseconds since
    1970-01-01: the last day that has a timestamp is 2262-04-11. *)
Definition last_day : Z := (2 ^ 63 - 1) / (86400 * 10 ^ 9).

(** [pd.date_range(start, periods=n, freq="D")]: [n] consecutive days.
    It raises for a negative [n] and for a range whose last day has no
    timestamp. *)
Definition date_range (start periods : Z) : result (list Z) :=
  if periods <? 0 then Raise DateRangeError
  else if last_day <? start + periods - 1 then Raise DateRangeError
  else Ok (day_range start periods).

(** Element-wise [a / b] of two integer columns (aligned on the index). *)
Definition series_div (a b : list Z) : list float :=
  map (fun p => true_divide (fst p) (snd p)) (combine a b).

Definition series_round (decimals : Z) (s : list float) : list float :=
  map (round_decimals decimals) s.

(** [df["freq"] = (df["impressions"] / df["uniques"]).round(2)]: the
    column is added to (here: set in) the frame. *)
Definition set_freq (df : DataFrame) : DataFrame :=
  mkDataFrame (date df) (region df) (impressions df) (uniques df) (format df)
    (series_round 2 (series_div (impressions df) (uniques df))).

Section GroupBy.
Context {K V : Type} (cmp : K -> K -> comparison).

(** Put value [v] into the group of key [k]; groups are kept in ascending
    key order and a group keeps its values in row order. *)
Fixpoint insert_group (k : K) (v : V) (groups : list (K * list V))
  : list (K * list V) :=
  match groups with
  | [] => [(k, [v])]
  | (k', vs) :: rest =>
      match cmp k k' with
      | Eq => (k', vs ++ [v]) :: rest
      | Lt => (k, [v]) :: groups
      | Gt => (k', vs) :: insert_group k v rest
      end
  end.

(** [groupby(keys)[vals]] with the default [sort=True]: one group per
    distinct key present, keys ascending. *)
Definition groupby (keys : list K) (vals : list V) : list (K * list V) :=
  fold_left (fun acc kv => insert_group (fst kv) (snd kv) acc)
            (combine keys vals) [].

End GroupBy.

(** The grand total of a measure [f] over all groups. *)
Definition group_total {K V : Type} (f : V -> Z) (gs : list (K * list V)) : Z :=
  series_sum (map (fun g => series_sum (map f (snd g))) gs).

(** [df[df.key == k]]: the values of the rows whose key is [k], in row
    order. *)
Definition rows_of_key {V : Type} (k : Z) (kvs : list (Z * V)) : list V :=
  map snd (List.filter (fun kv => fst kv =? k) kvs).

(** The groups of the keyed rows [kvs] listed over the candidate keys
    [cands]: a key with no row contributes no group. *)
Definition groups_over {V : Type} (cands : list Z) (kvs : list (Z * V))
  : list (Z * list V) :=
  flat_map (fun k => match rows_of_key k kvs with
                     | [] => []
                     | vs => [(k, vs)]
                     end) cands.

(** Lexicographic order on a pair of keys ([groupby(["region", "format"])]). *)
Definition pair_compare {A B : Type} (ca : A -> A -> comparison)
    (cb : B -> B -> comparison) (x y : A * B) : comparison :=
  match ca (fst x) (fst y) with
  | Eq => cb (snd x) (snd y)
  | c => c
  end.

(** The trailing window of [Series.rolling(w)] at position [i]:
    positions [max 0 (i + 1 - w)] to [i]. *)
Definition window (w : nat) (xs : list Z) (i : nat) : list Z :=
  skipn (S i - w) (firstn (S i) xs).

(** [Series.rolling(w, min_periods=p).mean()]: NaN ([None]) where the
    window holds fewer than [p] observations. *)
Definition rolling_mean (w min_periods : nat) (xs : list Z) : list (option Q) :=
  map (fun i =>
         let win := window w xs i in
         if (List.length win <? min_periods)%nat then None else mean win)
      (seq 0 (List.length xs)).

(* ------------------------------------------------------------------ *)
(** ** The aggregations of [render_home] and [render_projects]          *)
(* ------------------------------------------------------------------ *)

(** [df.groupby("date")["impressions"].sum().reset_index()] *)
Definition daily (df : DataFrame) : list (Z * Z) :=
  map (fun g => (fst g, series_sum (snd g)))
      (groupby Z.compare (date df) (impressions df)).

(** One row of [agg]: the key columns and the two summed columns. *)
Record AggRow := mkAggRow {
  a_region : string;
  a_format : string;
  a_impressions : Z;
  a_uniques : Z
}.

(** [df.groupby(["region", "format"], as_index=False)
       [["impressions", "uniques"]].sum()] *)
Definition agg (df : DataFrame) : list AggRow :=
  map (fun g => mkAggRow (fst (fst g)) (snd (fst g))
                         (series_sum (map fst (snd g))) (series_sum (map snd (snd g))))
      (groupby (pair_compare String.compare String.compare)
               (combine (region df) (format df))
               (combine (impressions df) (uniques df))).

(** [df.assign(hour=lambda d: d.index % 24)]: the index is 0 .. len-1. *)
Definition hour_column (df : DataFrame) : list Z :=
  map (fun i => Z.of_nat i mod 24) (seq 0 (nrows df)).

(** [... .groupby("hour")["uniques"].mean().reset_index()] *)
Definition hourly (df : DataFrame) : list (Z * option Q) :=
  map (fun g => (fst g, mean (snd g)))
      (groupby Z.compare (hour_column df) (uniques df)).

(** [wk.groupby("week")["impressions"].sum().reset_index()] after
    [wk["week"] = wk["date"].dt.isocalendar().week] *)
Definition weekly (df : DataFrame) : list (Z * Z) :=
  map (fun g => (fst g, series_sum (snd g)))
      (groupby Z.compare (map iso_week (date df)) (impressions df)).

(** [wk["impressions"].rolling(4, min_periods=1).mean().round()] *)
Definition forecast (sums : list Z) : list (option Z) :=
  map (option_map round_half_even) (rolling_mean 4 1 sums).

(** The frame plotted by the third project: week, impressions, forecast. *)
Definition weekly_forecast (df : DataFrame) : list (Z * Z * option Z) :=
  let wk := weekly df in
  combine wk (forecast (map snd wk)).

(* ------------------------------------------------------------------ *)
(** ** numpy: generators as heap objects                                *)
(* ------------------------------------------------------------------ *)

(** A 64-bit linear congruential generator: a concrete bit generator on
    which the development is evaluated.  (numpy's default, PCG64 seeded
    through SeedSequence, is not part of the repository.) *)
Module Lcg.

Definition state := Z.

Definition seed (s : Z) : state := s mod 2 ^ 64.

Definition step (g : state) : state :=
  (6364136223846793005 * g + 1442695040888963407) mod 2 ^ 64.

Definition bounded (r : Z) (g : state) : Z * state :=
  let g' := step g in
  (if 0 <? r then (g' / 2 ^ 32) mod r else 0, g').

End Lcg.

Section Generator.

(** The state of a bit generator, its seeding, and one bounded draw: an
    integer in [0, r) and the next state. *)
Context {bitgen : Type}.
Variable seed_bitgen : Z -> bitgen.
Variable bounded : Z -> bitgen -> Z * bitgen.

(** A computation over the heap of generator objects that may raise. *)
Definition M (A : Type) : Type :=
  gmap nat bitgen -> result (A * gmap nat bitgen).

Definition ret {A} (a : A) : M A := fun st => Ok (a, st).

Definition raise {A} (e : exn) : M A := fun _ => Raise e.

Definition bind {A B} (m : M A) (k : A -> M B) : M B :=
  fun st =>
    match m st with
    | Ok (a, st') => k a st'
    | Raise e => Raise e
    end.

Notation "x <- m ;; k" := (bind m (fun x => k))
  (at level 100, m at next level, right associativity).

(** A value computed without the heap, or the exception it raised. *)
Definition lift {A} (r : result A) : M A :=
  fun st =>
    match r with
    | Ok a => Ok (a, st)
    | Raise e => Raise e
    end.

(** [np.random.default_rng(seed)]: a new generator object.  A negative
    seed is rejected with [ValueError]. *)
Definition default_rng (seed : Z) : M nat :=
  fun st =>
    if seed <? 0 then Raise ValueError
    else
      let rng := fresh (dom st) in
      Ok (rng, <[rng := seed_bitgen seed]> st).

(** [k] successive draws below [r]. *)
Fixpoint draws (r : Z) (k : nat) (g : bitgen) : list Z * bitgen :=
  match k with
  | O => ([], g)
  | S k' =>
      let (v, g1) := bounded r g in
      let (vs, g2) := draws r k' g1 in
      (v :: vs, g2)
  end.

(** [rng.integers(low, high, size)]: [size] integers of [low, high); the
    generator object is advanced in place. *)
Definition integers (rng : nat) (low high size : Z) : M (list Z) :=
  fun st =>
    if high <=? low then Raise ValueError
    else if size <? 0 then Raise ValueError
    else
      match st !! rng with
      | None => Raise DanglingGenerator
      | Some g =>
          let (vs, g') := draws (high - low) (Z.to_nat size) g in
          Ok (map (Z.add low) vs, <[rng := g']> st)
      end.

(** [rng.choice(a, size)] with replacement and no weights: draw [size]
    indices below [len(a)] and take the entries of [a] there. *)
Definition choice {A} (rng : nat) (a : list A) (size : Z) : M (list A) :=
  match a with
  | [] => raise ValueError
  | d :: _ =>
      idx <- integers rng 0 (Z.of_nat (List.length a)) size ;;
      ret (map (fun i => nth (Z.to_nat i) a d) idx)
  end.

(* ------------------------------------------------------------------ *)
(** ** [make_demo_df]                                                   *)
(* ------------------------------------------------------------------ *)

Definition regions : list string :=
  ["Lisboa"; "Porto"; "Matosinhos"; "Setúbal"]%string.

Definition formats : list string := ["Mupi"; "Abrigo"; "Digital"]%string.

(** The start of the date column, "2024-01-01". *)
Definition start_date : Z := days_from_civil 2024 1 1.

(** [make_demo_df(n, seed)].  The generator is made first; the columns
    are then computed in the order of the dict literal, the dates before
    any draw. *)
Definition make_demo_df (n seed : Z) : M DataFrame :=
  rng <- default_rng seed ;;
  date_col <- lift (date_range start_date n) ;;
  region_col <- choice rng regions n ;;
  impressions_col <- integers rng 1000 50000 n ;;
  uniques_col <- integers rng 500 20000 n ;;
  format_col <- choice rng formats n ;;
  ret (set_freq (mkDataFrame date_col region_col impressions_col
                             uniques_col format_col [])).

(** [load_data()]: [make_demo_df()] with its defaults [n=200, seed=7]. *)
Definition load_data : M DataFrame := make_demo_df 200 7.

End Generator.

(* ------------------------------------------------------------------ *)
(** ** Group-by over any ordered key                                    *)
(* ------------------------------------------------------------------ *)

Definition is_Eq (c : comparison) : bool :=
  match c with Eq => true | _ => false end.

(** The values of the rows whose key compares equal to [k]. *)
Definition rows_of_key_by {K V : Type} (cmp : K -> K -> comparison) (k : K)
    (kvs : list (K * V)) : list V :=
  map snd (List.filter (fun kv => is_Eq (cmp (fst kv) k)) kvs).

(** The groups of [kvs] listed over candidate keys; a candidate with no
    row contributes no group. *)
Definition groups_over_by {K V : Type} (cmp : K -> K -> comparison)
    (cands : list K) (kvs : list (K * V)) : list (K * list V) :=
  flat_map (fun k => match rows_of_key_by cmp k kvs with
                     | [] => []
                     | vs => [(k, vs)]
                     end) cands.

(** The twelve (region, format) combinations, in the order [sort=True]
    lists them: both components ascending as strings. *)
Definition combinations : list (string * string) :=
  list_prod ["Lisboa"; "Matosinhos"; "Porto"; "Setúbal"]%string
            ["Abrigo"; "Digital"; "Mupi"]%string.

(** The rows of a frame keyed by (region, format), with the two summed
    columns as values: what [agg] groups. *)
Definition agg_rows (df : DataFrame)
  : list ((string * string) * (Z * Z)) :=
  combine (combine (region df) (format df))
          (combine (impressions df) (uniques df)).

(** The rows of a frame keyed by ISO week number: what [weekly] groups. *)
Definition week_rows (df : DataFrame) : list (Z * Z) :=
  combine (map iso_week (date df)) (impressions df).

(* ------------------------------------------------------------------ *)
(** ** [load_data] under [st.cache_data]                                *)
(* ------------------------------------------------------------------ *)

(** [@st.cache_data] on a function of no argument: the cache holds at most
    one value.  A call returns the cached value when there is one and
    otherwise runs the function and stores what it returned; a call that
    raises stores nothing. *)
Definition cache_data {S A : Type} (f : S -> result (A * S))
    (cache : option A) (st : S) : result (A * (option A * S)) :=
  match cache with
  | Some a => Ok (a, (cache, st))
  | None =>
      match f st with
      | Ok (a, st') => Ok (a, (Some a, st'))
      | Raise e => Raise e
      end
  end.

(** [k] calls of the cached function in a row (each page render calls
    [load_data()] once or more), with the values they returned. *)
Fixpoint calls {S A : Type} (f : S -> result (A * S)) (k : nat)
    (cache : option A) (st : S) : result (list A * (option A * S)) :=
  match k with
  | O => Ok ([], (cache, st))
  | S k' =>
      match cache_data f cache st with
      | Ok (a, (cache', st')) =>
          match calls f k' cache' st' with
          | Ok (l, final) => Ok (a :: l, final)
          | Raise e => Raise e
          end
      | Raise e => Raise e
      end
  end.

(* ------------------------------------------------------------------ *)
(** ** The router                                                       *)
(* ------------------------------------------------------------------ *)

(** The [PAGES] dict, in insertion order. *)
Definition PAGES : list (string * string) :=
  [("Home", "home"); ("Projects", "projects"); ("Resume", "resume");
   ("Contact", "contact")]%string.

(** [list(PAGES.keys())]: the options of the navigation radio. *)
Definition page_options : list string := map fst PAGES.

(** [st.sidebar.radio("Navigate", options, index=...)]: the option at the
    selected index; the source starts at [index=0]. *)
Definition radio (options : list string) (index : nat) : option string :=
  nth_error options index.

Inductive renderer :=
| render_home
| render_projects
| render_resume
| render_contact.

(** The router switch at the end of the script. *)
Definition router (page : string) : renderer :=
  if (page =? "Home")%string then render_home
  else if (page =? "Projects")%string then render_projects
  else if (page =? "Resume")%string then render_resume
  else render_contact.

(* ------------------------------------------------------------------ *)
(** ** The inline preview of [render_resume]                            *)
(* ------------------------------------------------------------------ *)

(** The base64 alphabet (RFC 4648, the one of [base64.b64encode]). *)
Definition b64_alphabet : string :=
  "ABCDEFGHIJKLMNOPQRSTUVWXYZabcdefghijklmnopqrstuvwxyz0123456789+/".

Definition b64_char (i : N) : ascii :=
  nth (N.to_nat i) (list_ascii_of_string b64_alphabet) "="%char.

(** [base64.b64encode(bs).decode()]: every 3 bytes give 4 characters; a
    last group of 1 or 2 bytes is padded with [=]. *)
Fixpoint b64encode (bs : list byte) : string :=
  match bs with
  | [] => EmptyString
  | [a] =>
      let n := (Byte.to_N a * 65536)%N in
      String (b64_char (n / 262144))
        (String (b64_char ((n / 4096) mod 64)) "==")
  | [a; b] =>
      let n := (Byte.to_N a * 65536 + Byte.to_N b * 256)%N in
      String (b64_char (n / 262144))
        (String (b64_char ((n / 4096) mod 64))
           (String (b64_char ((n / 64) mod 64)) "="))
  | a :: b :: c :: rest =>
      let n := (Byte.to_N a * 65536 + Byte.to_N b * 256 + Byte.to_N c)%N in
      String (b64_char (n / 262144))
        (String (b64_char ((n / 4096) mod 64))
           (String (b64_char ((n / 64) mod 64))
              (String (b64_char (n mod 64)) (b64encode rest))))
  end.

(** The double quote character. *)
Definition dquote : string := String (ascii_of_nat 34) EmptyString.

(** The f-string of the preview: an iframe whose [src] is a data URL
    holding the encoded file. *)
Definition iframe_markup (b64 : string) : string :=
  ("<iframe src=" ++ dquote ++ "data:application/pdf;base64," ++ b64
   ++ dquote ++ " width=" ++ dquote ++ "100%" ++ dquote
   ++ " height=" ++ dquote ++ "720" ++ dquote ++ "></iframe>")%string.

(** [b64 = base64.b64encode(cv_bytes).decode()] and the markup made of it. *)
Definition resume_preview (cv_bytes : list byte) : string :=
  iframe_markup (b64encode cv_bytes).

(* ------------------------------------------------------------------ *)
(** ** Evaluation on small inputs                                       *)
(* ------------------------------------------------------------------ *)

Example start_date_is_2024_01_01 :
  start_date = 19723 /\ civil_from_days start_date = (2024, 1, 1).
Proof. split; reflexivity. Qed.

(** 2024-01-01 is a Monday in week 1; 2021-01-03 still belongs to week 53
    of 2020; 2024-12-30 already belongs to week 1 of 2025. *)
Example iso_week_examples :
  map iso_week [days_from_civil 2024 1 1; days_from_civil 2024 1 7;
                days_from_civil 2024 1 8; days_from_civil 2021 1 3;
                days_from_civil 2024 12 30]
  = [1; 1; 2; 53; 1].
Proof. reflexivity. Qed.

(** The binary64 pipeline of [freq]: 2675 / 1000 is a little below 2.675,
    but its product with 100 rounds up to 267.5, a tie that goes to 268. *)
Example round_decimals_tie :
  PrimFloat.eqb (round_decimals 2 (true_divide 2675 1000))
                (true_divide 268 100) = true.
Proof. vm_compute. reflexivity. Qed.

(** 1131 / 520 is 2.175 exactly: its binary64 quotient is a little below,
    and so is the product with 100; the tie goes down, to the odd 217. *)
Example round_decimals_tie_down :
  round_decimals 2 (true_divide 1131 520) = true_divide 217 100.
Proof. vm_compute. reflexivity. Qed.

Example round_half_even_examples :
  map round_half_even [5 # 2; 7 # 2; 10 # 4; 11 # 4; 9 # 4; 3 # 1]
  = [2; 4; 2; 3; 2; 3].
Proof. reflexivity. Qed.

Example forecast_example :
  forecast [10; 20; 31; 40; 50]
  = [Some 10; Some 15; Some 20; Some 25; Some 35].
Proof. reflexivity. Qed.

Example groupby_example :
  groupby Z.compare [3; 1; 3; 2; 1] [10; 20; 30; 40; 50]
  = [(1, [20; 50]); (2, [40]); (3, [10; 30])].
Proof. reflexivity. Qed.

(** Five rows from the concrete generator, seed 7. *)
Example make_demo_df_5_7 :
  match make_demo_df Lcg.seed Lcg.bounded 5 7 ∅ with
  | Ok (df, _) =>
      date df = [19723; 19724; 19725; 19726; 19727]
      /\ impressions df = [47439; 43728; 11528; 9478; 21373]
      /\ uniques df = [17891; 3650; 6265; 13561; 13899]
      /\ region df = ["Lisboa"; "Setúbal"; "Matosinhos"; "Matosinhos";
                      "Matosinhos"]%string
  | Raise _ => False
  end.
Proof. vm_compute. repeat split. Qed.

(* ------------------------------------------------------------------ *)
(** ** Lists                                                            *)
(* ------------------------------------------------------------------ *)

Lemma nth_error_combine {A B} (a : list A) (b : list B) (k : nat) :
  nth_error (combine a b) k =
  match nth_error a k, nth_error b k with
  | Some x, Some y => Some (x, y)
  | _, _ => None
  end.
Proof.
  revert b k. induction a as [|x a IH]; intros [|y b] [|k]; simpl; trivial.
  destruct (nth_error a k); reflexivity.
Qed.

Lemma nth_error_map_seq {A} (f : nat -> A) (len i : nat) :
  (i < len)%nat -> nth_error (map f (seq 0 len)) i = Some (f i).
Proof.
  intros Hi. rewrite nth_error_map, nth_error_seq.
  destruct (Nat.ltb_spec i len); [reflexivity | lia].
Qed.

Lemma nth_error_is_Some {A} (l : list A) (k : nat) :
  (k < List.length l)%nat -> exists x, nth_error l k = Some x.
Proof.
  intros Hk. destruct (nth_error l k) eqn:E; [eauto |].
  apply nth_error_None in E. lia.
Qed.

Lemma series_sum_app (xs ys : list Z) :
  series_sum (xs ++ ys) = series_sum xs + series_sum ys.
Proof. induction xs as [|x xs IH]; simpl; [reflexivity | rewrite IH; lia]. Qed.

Lemma map_fst_combine_eq {A B} (a : list A) (b : list B) :
  List.length a = List.length b -> map fst (combine a b) = a.
Proof.
  revert b. induction a as [|x a IH]; intros [|y b] H; simpl in *;
    try discriminate; [reflexivity |].
  f_equal. apply IH. lia.
Qed.

Lemma map_snd_combine_eq {A B} (a : list A) (b : list B) :
  List.length a = List.length b -> map snd (combine a b) = b.
Proof.
  revert b. induction a as [|x a IH]; intros [|y b] H; simpl in *;
    try discriminate; [reflexivity |].
  f_equal. apply IH. lia.
Qed.

(* ------------------------------------------------------------------ *)
(** ** Group-by                                                         *)
(* ------------------------------------------------------------------ *)

Section GroupByFacts.
Context {K V : Type} (cmp : K -> K -> comparison) (f : V -> Z).

Local Abbreviation total := (@group_total K V f).

Lemma insert_group_total (k : K) (v : V) (gs : list (K * list V)) :
  total (insert_group cmp k v gs) = f v + total gs.
Proof.
  unfold group_total. induction gs as [|[k' vs] gs IH]; simpl.
  - lia.
  - destruct (cmp k k'); simpl.
    + rewrite map_app, series_sum_app. simpl. lia.
    + lia.
    + rewrite IH. lia.
Qed.

Lemma fold_insert_group_total (kvs : list (K * V)) (acc : list (K * list V)) :
  total (fold_left (fun a kv => insert_group cmp (fst kv) (snd kv) a) kvs acc)
  = total acc + series_sum (map (fun kv => f (snd kv)) kvs).
Proof.
  revert acc. induction kvs as [|[k v] kvs IH]; intros acc; simpl.
  - lia.
  - rewrite IH, insert_group_total. simpl. lia.
Qed.

(** Grouping loses nothing: the group sums add up to the column sum. *)
Lemma groupby_total (keys : list K) (vals : list V) :
  series_sum (map (fun g => series_sum (map f (snd g))) (groupby cmp keys vals))
  = series_sum (map (fun kv => f (snd kv)) (combine keys vals)).
Proof.
  unfold groupby. pose proof (fold_insert_group_total (combine keys vals) []) as H.
  unfold group_total in H. simpl in H. exact H.
Qed.

Lemma insert_group_not_nil (k : K) (v : V) (gs : list (K * list V)) :
  insert_group cmp k v gs <> [].
Proof. destruct gs as [|[k' vs] gs]; simpl; [|destruct (cmp k k')]; discriminate. Qed.

Lemma fold_insert_group_not_nil (kvs : list (K * V)) (acc : list (K * list V)) :
  acc <> [] \/ kvs <> [] ->
  fold_left (fun a kv => insert_group cmp (fst kv) (snd kv) a) kvs acc <> [].
Proof.
  revert acc. induction kvs as [|kv kvs IH]; intros acc H; simpl.
  - destruct H as [H | H]; [exact H | congruence].
  - apply IH. left. apply insert_group_not_nil.
Qed.

End GroupByFacts.

Section GroupByZ.
Context {V : Type}.

Local Abbreviation ins :=
  (fun (a : list (Z * list V)) (kv : Z * V) =>
     insert_group Z.compare (fst kv) (snd kv) a).

Lemma rows_of_key_snoc (k k' : Z) (v : V) (kvs : list (Z * V)) :
  rows_of_key k (kvs ++ [(k', v)])
  = rows_of_key k kvs ++ (if k' =? k then [v] else []).
Proof.
  unfold rows_of_key. rewrite List.filter_app, map_app. simpl.
  destruct (k' =? k); reflexivity.
Qed.

Lemma rows_of_key_none (k : Z) (kvs : list (Z * V)) :
  Forall (fun kv => fst kv <> k) kvs -> rows_of_key k kvs = [].
Proof.
  unfold rows_of_key. induction 1 as [|kv kvs Hkv _ IH]; simpl; [reflexivity |].
  destruct (Z.eqb_spec (fst kv) k); [contradiction | exact IH].
Qed.

Lemma rows_of_key_some (k : Z) (v : V) (kvs : list (Z * V)) :
  In (k, v) kvs -> rows_of_key k kvs <> [].
Proof.
  unfold rows_of_key. induction kvs as [|kv kvs IH]; simpl; [tauto |].
  intros [-> | H]; simpl.
  - rewrite Z.eqb_refl. discriminate.
  - destruct (fst kv =? k); [discriminate | auto].
Qed.

Lemma groups_over_nil (cands : list Z) : groups_over cands (@nil (Z * V)) = [].
Proof. induction cands as [|c cs IH]; simpl; [reflexivity | exact IH]. Qed.

Lemma groups_over_keys_above (c : Z) (cs : list Z) (kvs : list (Z * V)) :
  Forall (fun k => c < k) cs ->
  Forall (fun g => c < fst g) (groups_over cs kvs).
Proof.
  induction 1 as [|k cs Hk _ IH]; simpl; [constructor |].
  destruct (rows_of_key k kvs); simpl; [exact IH | constructor; [exact Hk | exact IH]].
Qed.

Lemma groups_over_other_key (k : Z) (v : V) (cs : list Z) (kvs : list (Z * V)) :
  Forall (fun c => k < c) cs ->
  groups_over cs (kvs ++ [(k, v)]) = groups_over cs kvs.
Proof.
  induction 1 as [|c cs Hc _ IH]; simpl; [reflexivity |].
  rewrite rows_of_key_snoc, IH.
  destruct (Z.eqb_spec k c); [lia |]. rewrite app_nil_r. reflexivity.
Qed.

Lemma groups_over_present (cs : list Z) (kvs : list (Z * V)) :
  (forall k, In k cs -> rows_of_key k kvs <> []) ->
  groups_over cs kvs = map (fun k => (k, rows_of_key k kvs)) cs.
Proof.
  induction cs as [|c cs IH]; intros H; simpl; [reflexivity |].
  rewrite IH by (intros k Hk; apply H; right; exact Hk).
  specialize (H c (or_introl eq_refl)).
  destruct (rows_of_key c kvs); [congruence | reflexivity].
Qed.

Lemma groups_over_absent (cs : list Z) (kvs : list (Z * V)) :
  (forall k, In k cs -> rows_of_key k kvs = []) ->
  groups_over cs kvs = [].
Proof.
  induction cs as [|c cs IH]; intros H; simpl; [reflexivity |].
  rewrite (H c (or_introl eq_refl)). simpl.
  apply IH. intros k Hk. apply H. right. exact Hk.
Qed.

Lemma groups_over_app (cs1 cs2 : list Z) (kvs : list (Z * V)) :
  groups_over (cs1 ++ cs2) kvs = groups_over cs1 kvs ++ groups_over cs2 kvs.
Proof. unfold groups_over. apply flat_map_app. Qed.

(** A key below every group opens a new first group. *)
Lemma insert_group_first (k : Z) (v : V) (gs : list (Z * list V)) :
  Forall (fun g => k < fst g) gs ->
  insert_group Z.compare k v gs = (k, [v]) :: gs.
Proof.
  intros H. destruct H as [|[k' vs] gs Hk _]; simpl; [reflexivity |].
  simpl in Hk. rewrite (proj2 (Z.compare_lt_iff k k') Hk). reflexivity.
Qed.

(** A key above every group opens a new last group. *)
Lemma insert_group_last (k : Z) (v : V) (gs : list (Z * list V)) :
  Forall (fun g => fst g < k) gs ->
  insert_group Z.compare k v gs = gs ++ [(k, [v])].
Proof.
  induction 1 as [|[k' vs] gs Hk _ IH]; simpl; [reflexivity |].
  simpl in Hk. rewrite (proj2 (Z.compare_gt_iff k k') Hk), IH. reflexivity.
Qed.

(** One more row of key [k] extends the listing over sorted candidates. *)
Lemma insert_group_groups_over (k : Z) (v : V) (cands : list Z)
    (kvs : list (Z * V)) :
  StronglySorted Z.lt cands -> In k cands ->
  insert_group Z.compare k v (groups_over cands kvs)
  = groups_over cands (kvs ++ [(k, v)]).
Proof.
  induction 1 as [|c cs Hs IH Hc]; intros Hin; [destruct Hin |].
  simpl. rewrite rows_of_key_snoc.
  destruct Hin as [-> | Hin].
  - rewrite Z.eqb_refl, (groups_over_other_key k v cs kvs Hc).
    destruct (rows_of_key k kvs) as [|x xs]; simpl.
    + apply insert_group_first. apply groups_over_keys_above. exact Hc.
    + rewrite Z.compare_refl. reflexivity.
  - assert (c < k) as Hck by (rewrite List.Forall_forall in Hc; apply Hc, Hin).
    destruct (Z.eqb_spec k c); [lia |]. rewrite app_nil_r.
    destruct (rows_of_key c kvs) as [|x xs]; simpl.
    + apply IH, Hin.
    + rewrite (proj2 (Z.compare_gt_iff k c) Hck). f_equal. apply IH, Hin.
Qed.

(** [groupby] computes the listing of the rows over any sorted list of
    candidate keys that covers the keys present. *)
Lemma groupby_groups_over (cands keys : list Z) (vals : list V) :
  StronglySorted Z.lt cands ->
  (forall kv, In kv (combine keys vals) -> In (fst kv) cands) ->
  groupby Z.compare keys vals = groups_over cands (combine keys vals).
Proof.
  intros Hs. unfold groupby. generalize (combine keys vals) as kvs.
  induction kvs as [|[k v] kvs IH] using rev_ind; intros Hin; simpl.
  - symmetry. apply groups_over_nil.
  - rewrite fold_left_app. simpl. rewrite IH.
    + apply insert_group_groups_over; [exact Hs |].
      apply (Hin (k, v)), in_or_app. right. left. reflexivity.
    + intros kv Hkv. apply Hin, in_or_app. left. exact Hkv.
Qed.

(** On strictly ascending keys every row is a group of its own. *)
Lemma fold_insert_group_ascending (keys : list Z) (vals : list V)
    (acc : list (Z * list V)) :
  StronglySorted Z.lt keys ->
  Forall (fun g => Forall (fun k => fst g < k) keys) acc ->
  fold_left ins (combine keys vals) acc
  = acc ++ map (fun kv => (fst kv, [snd kv])) (combine keys vals).
Proof.
  intros Hs. revert vals acc.
  induction Hs as [|k ks Hs IH Hk]; intros vals acc Hacc; simpl.
  - rewrite app_nil_r. reflexivity.
  - destruct vals as [|v vs]; simpl; [rewrite app_nil_r; reflexivity |].
    rewrite insert_group_last.
    + rewrite IH.
      * rewrite <- app_assoc. reflexivity.
      * apply List.Forall_app. split.
        -- eapply List.Forall_impl; [| exact Hacc]. simpl. intros g Hg.
           inversion Hg; assumption.
        -- constructor; [exact Hk | constructor].
    + eapply List.Forall_impl; [| exact Hacc]. simpl. intros g Hg.
      inversion Hg; assumption.
Qed.

Lemma groupby_ascending (keys : list Z) (vals : list V) :
  StronglySorted Z.lt keys ->
  groupby Z.compare keys vals
  = map (fun kv => (fst kv, [snd kv])) (combine keys vals).
Proof.
  intros Hs. unfold groupby.
  rewrite (fold_insert_group_ascending keys vals [] Hs); [reflexivity | constructor].
Qed.

End GroupByZ.

(* ------------------------------------------------------------------ *)
(** ** Rounding and rolling windows                                     *)
(* ------------------------------------------------------------------ *)

Lemma round_half_even_integer (s : Z) : round_half_even (s # 1) = s.
Proof.
  unfold round_half_even. simpl Qfloor. rewrite Z.div_1_r.
  unfold Qcompare, Qminus, Qplus, Qopp, inject_Z. simpl.
  replace ((s * 1 + - s * 1) * 2) with 0 by lia. reflexivity.
Qed.

Lemma window_shift (w : nat) (x : Z) (xs : list Z) (i : nat) :
  (w <= S i)%nat -> window w (x :: xs) (S i) = window w xs i.
Proof.
  intros H. unfold window.
  replace (S (S i) - w)%nat with (S (S i - w)) by lia. reflexivity.
Qed.

Lemma window_4 (xs : list Z) (j : nat) (a b c d : Z) :
  nth_error xs j = Some a -> nth_error xs (1 + j) = Some b ->
  nth_error xs (2 + j) = Some c -> nth_error xs (3 + j) = Some d ->
  window 4 xs (3 + j) = [a; b; c; d].
Proof.
  revert xs. induction j as [|j IH]; intros xs Ha Hb Hc Hd.
  - destruct xs as [|x0 [|x1 [|x2 [|x3 xs]]]]; simpl in *; try discriminate.
    injection Ha as ->. injection Hb as ->. injection Hc as ->.
    injection Hd as ->. reflexivity.
  - destruct xs as [|x xs]; [discriminate |].
    replace (3 + S j)%nat with (S (3 + j)) by lia.
    rewrite window_shift by lia. apply IH.
    + exact Ha.
    + exact Hb.
    + exact Hc.
    + replace (3 + S j)%nat with (S (3 + j)) in Hd by lia. exact Hd.
Qed.

Lemma window_length (w : nat) (xs : list Z) (i : nat) :
  (0 < w)%nat -> (i < List.length xs)%nat ->
  (0 < List.length (window w xs i))%nat.
Proof.
  intros Hw Hi. unfold window. rewrite length_skipn, length_firstn. lia.
Qed.

Lemma forecast_nth (xs : list Z) (i : nat) :
  (i < List.length xs)%nat ->
  nth_error (forecast xs) i
  = Some (option_map round_half_even (mean (window 4 xs i))).
Proof.
  intros Hi. unfold forecast, rolling_mean.
  rewrite nth_error_map, nth_error_map_seq by exact Hi. simpl. f_equal.
  pose proof (window_length 4 xs i ltac:(lia) Hi) as Hl.
  destruct (Nat.ltb_spec (List.length (window 4 xs i)) 1); [lia | reflexivity].
Qed.

(** The first forecast is the first value itself. *)
Lemma forecast_first (x : Z) (xs : list Z) :
  nth_error (forecast (x :: xs)) 0 = Some (Some x).
Proof.
  rewrite forecast_nth by (simpl; lia).
  unfold window. simpl. rewrite Z.add_0_r, round_half_even_integer. reflexivity.
Qed.

(** From the fourth position on, the forecast is the rounded mean of the
    four values ending there. *)
Lemma forecast_trailing (xs : list Z) (i : nat) (a b c d : Z) :
  (3 <= i)%nat ->
  nth_error xs (i - 3) = Some a -> nth_error xs (i - 2) = Some b ->
  nth_error xs (i - 1) = Some c -> nth_error xs i = Some d ->
  nth_error (forecast xs) i = Some (Some (round_half_even ((a + b + c + d) # 4))).
Proof.
  intros Hi Ha Hb Hc Hd.
  assert (i < List.length xs)%nat as Hlt
      by (apply nth_error_Some; congruence).
  rewrite forecast_nth by exact Hlt.
  replace i with (3 + (i - 3))%nat at 1 by lia.
  rewrite (window_4 xs (i - 3) a b c d).
  - simpl. do 3 f_equal.
    change (Pos.of_nat 4) with 4%positive. f_equal. lia.
  - exact Ha.
  - replace (1 + (i - 3))%nat with (i - 2)%nat by lia. exact Hb.
  - replace (2 + (i - 3))%nat with (i - 1)%nat by lia. exact Hc.
  - replace (3 + (i - 3))%nat with i by lia. exact Hd.
Qed.

(* ------------------------------------------------------------------ *)
(** ** Date ranges                                                      *)
(* ------------------------------------------------------------------ *)

Lemma day_range_length (start n : Z) :
  List.length (day_range start n) = Z.to_nat n.
Proof. unfold day_range. rewrite length_map, length_seq. reflexivity. Qed.

Lemma day_range_nth (start n : Z) (k : nat) :
  (k < Z.to_nat n)%nat ->
  nth_error (day_range start n) k = Some (start + Z.of_nat k).
Proof.
  intros Hk. unfold day_range.
  apply (nth_error_map_seq (fun i => start + Z.of_nat i)). exact Hk.
Qed.

Lemma ascending_days_sorted (start : Z) (a len : nat) :
  StronglySorted Z.lt (map (fun k => start + Z.of_nat k) (seq a len)).
Proof.
  revert a. induction len as [|len IH]; intros a; simpl; constructor.
  - apply IH.
  - apply List.Forall_forall. intros d Hd.
    apply in_map_iff in Hd. destruct Hd as [k [<- Hk]].
    apply in_seq in Hk. lia.
Qed.

Lemma day_range_sorted (start n : Z) :
  StronglySorted Z.lt (day_range start n).
Proof. apply ascending_days_sorted. Qed.

(* ------------------------------------------------------------------ *)
(** ** The aggregations, on any frame                                   *)
(* ------------------------------------------------------------------ *)

(** With one row per day, the daily totals are the rows themselves. *)
Lemma daily_of_day_range (df : DataFrame) (start n : Z) :
  date df = day_range start n ->
  daily df = combine (date df) (impressions df).
Proof.
  intros Hd. unfold daily.
  rewrite groupby_ascending by (rewrite Hd; apply day_range_sorted).
  rewrite map_map. simpl.
  rewrite <- (map_id (combine (date df) (impressions df))) at 2.
  apply map_ext. intros [d i]. simpl. f_equal. lia.
Qed.

(** The region x format totals add up to the column total. *)
Lemma agg_impressions_total (df : DataFrame) :
  List.length (region df) = List.length (format df) ->
  List.length (impressions df) = List.length (uniques df) ->
  List.length (region df) = List.length (impressions df) ->
  series_sum (map a_impressions (agg df)) = series_sum (impressions df).
Proof.
  intros Hrf Hiu Hri. unfold agg. rewrite map_map. simpl.
  rewrite (groupby_total _ fst).
  rewrite <- (map_map snd fst), map_snd_combine_eq.
  - rewrite map_fst_combine_eq by exact Hiu. reflexivity.
  - rewrite !length_combine. lia.
Qed.

Lemma hours_sorted (a len : nat) :
  StronglySorted Z.lt (map Z.of_nat (seq a len)).
Proof.
  rewrite (map_ext Z.of_nat (fun k => 0 + Z.of_nat k)) by (intros; lia).
  apply ascending_days_sorted.
Qed.

Lemma hour_column_in (df : DataFrame) (kv : Z * Z) :
  In kv (combine (hour_column df) (uniques df)) ->
  exists i, (i < nrows df)%nat /\ fst kv = Z.of_nat i mod 24.
Proof.
  destruct kv as [k v]. intros H. apply in_combine_l in H.
  unfold hour_column in H. apply in_map_iff in H.
  destruct H as [i [<- Hi]]. apply in_seq in Hi.
  exists i. split; [lia | reflexivity].
Qed.

(** The hourly means list one bucket per hour that has a row, in
    ascending order: the hours below [min (len df) 24]. *)
Lemma hourly_listing (df : DataFrame) :
  List.length (uniques df) = nrows df ->
  hourly df
  = map (fun h => (Z.of_nat h,
                   mean (rows_of_key (Z.of_nat h)
                           (combine (hour_column df) (uniques df)))))
        (seq 0 (Nat.min (nrows df) 24)).
Proof.
  intros Hu. unfold hourly.
  set (kvs := combine (hour_column df) (uniques df)).
  set (m := Nat.min (nrows df) 24).
  rewrite (groupby_groups_over (map Z.of_nat (seq 0 24))).
  - fold kvs. replace 24%nat with (m + (24 - m))%nat at 1 by lia.
    rewrite seq_app, map_app, groups_over_app.
    rewrite (groups_over_absent (map Z.of_nat (seq (0 + m) (24 - m)))).
    + rewrite app_nil_r, groups_over_present.
      * rewrite !map_map. reflexivity.
      * intros k Hk. apply in_map_iff in Hk. destruct Hk as [h [<- Hh]].
        apply in_seq in Hh.
        assert (h < nrows df)%nat as Hlt by lia.
        destruct (nth_error_is_Some (uniques df) h ltac:(lia)) as [u Hnu].
        apply (rows_of_key_some _ u). apply (nth_error_In _ h).
        unfold kvs. rewrite nth_error_combine, Hnu. unfold hour_column.
        rewrite (nth_error_map_seq (fun i => Z.of_nat i mod 24)) by exact Hlt.
        rewrite Z.mod_small by lia. reflexivity.
    + intros k Hk. apply in_map_iff in Hk. destruct Hk as [h [<- Hh]].
      apply in_seq in Hh. apply rows_of_key_none.
      apply List.Forall_forall. intros kv Hkv.
      apply hour_column_in in Hkv. destruct Hkv as [i [Hi ->]].
      rewrite Z.mod_small by lia. lia.
  - apply hours_sorted.
  - intros kv Hkv. apply hour_column_in in Hkv. destruct Hkv as [i [_ ->]].
    apply in_map_iff. exists (Z.to_nat (Z.of_nat i mod 24)).
    pose proof (Z.mod_pos_bound (Z.of_nat i) 24 ltac:(lia)).
    split; [lia | apply in_seq; lia].
Qed.

(** Every bucket listed has at least one row, so its mean is a number. *)
Lemma hourly_bucket_mean (df : DataFrame) (h : nat) :
  List.length (uniques df) = nrows df -> (h < nrows df)%nat -> (h < 24)%nat ->
  exists q,
    mean (rows_of_key (Z.of_nat h) (combine (hour_column df) (uniques df)))
    = Some q.
Proof.
  intros Hu Hlt H24.
  destruct (nth_error_is_Some (uniques df) h ltac:(lia)) as [u Hnu].
  assert (rows_of_key (Z.of_nat h) (combine (hour_column df) (uniques df))
          <> []) as Hne.
  { apply (rows_of_key_some _ u). apply (nth_error_In _ h).
    rewrite nth_error_combine, Hnu. unfold hour_column.
    rewrite (nth_error_map_seq (fun i => Z.of_nat i mod 24)) by exact Hlt.
    rewrite Z.mod_small by lia. reflexivity. }
  destruct (rows_of_key _ _) as [|x xs]; [congruence |].
  eexists. reflexivity.
Qed.

(** The weekly table of a non-empty frame has a first week. *)
Lemma weekly_not_nil (df : DataFrame) :
  date df <> [] -> impressions df <> [] -> weekly df <> [].
Proof.
  intros Hd Hi. unfold weekly, groupby. intros H.
  apply map_eq_nil in H. revert H. apply fold_insert_group_not_nil. right.
  destruct (date df); [congruence |]. destruct (impressions df); [congruence |].
  discriminate.
Qed.

Lemma weekly_forecast_first (df : DataFrame) :
  weekly df <> [] ->
  exists w s, nth_error (weekly_forecast df) 0 = Some (w, s, Some s).
Proof.
  intros H. unfold weekly_forecast.
  destruct (weekly df) as [|[w s] wk]; [congruence |].
  exists w, s. rewrite nth_error_combine. simpl map.
  rewrite forecast_first. reflexivity.
Qed.

Lemma weekly_forecast_trailing (df : DataFrame) (i : nat) (w s : Z)
    (f : option Z) :
  (3 <= i)%nat ->
  nth_error (weekly_forecast df) i = Some (w, s, f) ->
  exists a b c,
    nth_error (map snd (weekly df)) (i - 3) = Some a
    /\ nth_error (map snd (weekly df)) (i - 2) = Some b
    /\ nth_error (map snd (weekly df)) (i - 1) = Some c
    /\ f = Some (round_half_even ((a + b + c + s) # 4)).
Proof.
  intros Hi Hn. unfold weekly_forecast in Hn. rewrite nth_error_combine in Hn.
  destruct (nth_error (weekly df) i) as [[w' s']|] eqn:Hw; [| discriminate].
  destruct (nth_error (forecast (map snd (weekly df))) i) as [f'|] eqn:Hf;
    [| discriminate].
  injection Hn as -> -> ->.
  assert (nth_error (map snd (weekly df)) i = Some s) as Hs
      by (rewrite nth_error_map, Hw; reflexivity).
  assert (i < List.length (map snd (weekly df)))%nat as Hlt
      by (apply nth_error_Some; congruence).
  destruct (nth_error_is_Some (map snd (weekly df)) (i - 3) ltac:(lia)) as [a Ha].
  destruct (nth_error_is_Some (map snd (weekly df)) (i - 2) ltac:(lia)) as [b Hb].
  destruct (nth_error_is_Some (map snd (weekly df)) (i - 1) ltac:(lia)) as [c Hc].
  exists a, b, c. repeat split; trivial.
  rewrite (forecast_trailing _ i a b c s Hi Ha Hb Hc Hs) in Hf. congruence.
Qed.

(* ------------------------------------------------------------------ *)
(** ** The concrete generator                                           *)
(* ------------------------------------------------------------------ *)

Lemma lcg_bounded_range (r : Z) (g : Lcg.state) :
  0 < r -> 0 <= fst (Lcg.bounded r g) < r.
Proof.
  intros Hr. unfold Lcg.bounded. simpl.
  destruct (Z.ltb_spec 0 r); [| lia]. apply Z.mod_pos_bound. exact Hr.
Qed.

(* ------------------------------------------------------------------ *)
(** ** Runs of [make_demo_df]                                           *)
(* ------------------------------------------------------------------ *)

Section Runs.
Context {bitgen : Type}.
Variable seed_bitgen : Z -> bitgen.
Variable bounded : Z -> bitgen -> Z * bitgen.

Lemma draws_length (r : Z) (k : nat) (g : bitgen) :
  List.length (fst (draws bounded r k g)) = k.
Proof.
  revert g. induction k as [|k IH]; intros g; simpl; [reflexivity |].
  destruct (bounded r g) as [v g1]. specialize (IH g1).
  destruct (draws bounded r k g1) as [vs g2]. simpl in *. lia.
Qed.

(** On a heap where [rng] is a generator in state [g], [integers] returns
    the draws from [g] and leaves [rng] in the state after them. *)
Lemma integers_run (rng : nat) (low high size : Z) (g : bitgen)
    (st : gmap nat bitgen) :
  low < high -> 0 <= size ->
  integers bounded rng low high size (<[rng := g]> st)
  = Ok (map (Z.add low) (fst (draws bounded (high - low) (Z.to_nat size) g)),
        <[rng := snd (draws bounded (high - low) (Z.to_nat size) g)]> st).
Proof.
  intros Hlh Hs. unfold integers.
  destruct (Z.leb_spec high low); [lia |].
  destruct (Z.ltb_spec size 0); [lia |].
  rewrite lookup_insert_eq.
  destruct (draws bounded (high - low) (Z.to_nat size) g) as [vs g'].
  simpl. rewrite insert_insert_eq. reflexivity.
Qed.

Lemma integers_negative (rng : nat) (low high size : Z)
    (st : gmap nat bitgen) :
  size < 0 -> integers bounded rng low high size st = Raise ValueError.
Proof.
  intros Hs. unfold integers. destruct (high <=? low); [reflexivity |].
  destruct (Z.ltb_spec size 0); [reflexivity | lia].
Qed.

Lemma choice_run {A} (rng : nat) (d : A) (a : list A) (size : Z) (g : bitgen)
    (st : gmap nat bitgen) :
  0 <= size ->
  choice bounded rng (d :: a) size (<[rng := g]> st)
  = Ok (map (fun i => nth (Z.to_nat i) (d :: a) d)
          (map (Z.add 0)
             (fst (draws bounded (Z.of_nat (List.length (d :: a)) - 0)
                     (Z.to_nat size) g))),
        <[rng := snd (draws bounded (Z.of_nat (List.length (d :: a)) - 0)
                        (Z.to_nat size) g)]> st).
Proof.
  intros Hs. unfold choice, bind, ret.
  rewrite integers_run; [reflexivity | simpl List.length; lia | exact Hs].
Qed.

Lemma last_day_value : last_day = 106751.
Proof. reflexivity. Qed.

(** From 2024-01-01 the timestamps last for 87029 days. *)
Lemma last_day_from_start : last_day - start_date + 1 = 87029.
Proof. reflexivity. Qed.

Lemma date_range_ok (n : Z) :
  0 <= n <= 87029 ->
  date_range start_date n = Ok (day_range start_date n).
Proof.
  intros Hn. pose proof last_day_from_start as Hl. unfold date_range.
  destruct (Z.ltb_spec n 0); [lia |].
  destruct (Z.ltb_spec last_day (start_date + n - 1)); [lia | reflexivity].
Qed.

Lemma date_range_raise (n : Z) :
  n < 0 \/ 87029 < n -> date_range start_date n = Raise DateRangeError.
Proof.
  intros Hn. pose proof last_day_from_start as Hl. unfold date_range.
  destruct (Z.ltb_spec n 0); [reflexivity |].
  destruct (Z.ltb_spec last_day (start_date + n - 1)); [reflexivity | lia].
Qed.

(** The run of [make_demo_df] written out, for a seed numpy accepts and a
    range pandas can build: four batches of [n] draws from the new
    generator, in the order region, impressions, uniques, format. *)
Lemma make_demo_df_run (n seed : Z) (st : gmap nat bitgen) :
  0 <= seed -> 0 <= n <= 87029 ->
  let k := Z.to_nat n in
  let d1 := draws bounded 4 k (seed_bitgen seed) in
  let d2 := draws bounded 49000 k (snd d1) in
  let d3 := draws bounded 19500 k (snd d2) in
  let d4 := draws bounded 3 k (snd d3) in
  make_demo_df seed_bitgen bounded n seed st
  = Ok (set_freq
          (mkDataFrame (day_range start_date n)
             (map (fun i => nth (Z.to_nat i) regions "Lisboa"%string)
                  (map (Z.add 0) (fst d1)))
             (map (Z.add 1000) (fst d2))
             (map (Z.add 500) (fst d3))
             (map (fun i => nth (Z.to_nat i) formats "Mupi"%string)
                  (map (Z.add 0) (fst d4)))
             []),
        <[fresh (dom st) := snd d4]> st).
Proof.
  intros Hseed Hn k d1 d2 d3 d4.
  unfold make_demo_df, default_rng, regions, formats.
  unfold bind at 1. destruct (Z.ltb_spec seed 0); [lia |].
  unfold bind at 1. rewrite date_range_ok by exact Hn. unfold lift.
  unfold bind at 1. rewrite choice_run by lia.
  unfold bind at 1. rewrite integers_run by lia.
  unfold bind at 1. rewrite integers_run by lia.
  unfold bind at 1. rewrite choice_run by lia.
  reflexivity.
Qed.

(** A negative seed is rejected by [default_rng], before anything else. *)
Lemma make_demo_df_bad_seed (n seed : Z) (st : gmap nat bitgen) :
  seed < 0 -> make_demo_df seed_bitgen bounded n seed st = Raise ValueError.
Proof.
  intros Hseed. unfold make_demo_df, default_rng. unfold bind at 1.
  destruct (Z.ltb_spec seed 0); [reflexivity | lia].
Qed.

(** With a seed numpy accepts, a negative [n] and an [n] beyond the last
    timestamp are rejected by [pd.date_range], before any draw. *)
Lemma make_demo_df_bad_range (n seed : Z) (st : gmap nat bitgen) :
  0 <= seed -> n < 0 \/ 87029 < n ->
  make_demo_df seed_bitgen bounded n seed st = Raise DateRangeError.
Proof.
  intros Hseed Hn. unfold make_demo_df, default_rng. unfold bind at 1.
  destruct (Z.ltb_spec seed 0); [lia |].
  unfold bind at 1. rewrite date_range_raise by exact Hn. reflexivity.
Qed.

(** The three cases cover every call. *)
Lemma make_demo_df_cases (n seed : Z) :
  seed < 0 \/ (0 <= seed /\ (n < 0 \/ 87029 < n))
  \/ (0 <= seed /\ 0 <= n <= 87029).
Proof. lia. Qed.

End Runs.

(* ------------------------------------------------------------------ *)
(** ** Rows of a frame                                                  *)
(* ------------------------------------------------------------------ *)

Lemma iloc_fields (df : DataFrame) (k : nat) (r : DemoRecord) :
  iloc df k = Some r ->
  nth_error (date df) k = Some (r_date r)
  /\ nth_error (region df) k = Some (r_region r)
  /\ nth_error (impressions df) k = Some (r_impressions r)
  /\ nth_error (uniques df) k = Some (r_uniques r)
  /\ nth_error (format df) k = Some (r_format r)
  /\ nth_error (freq df) k = Some (r_freq r).
Proof.
  unfold iloc.
  destruct (nth_error (date df) k), (nth_error (region df) k),
    (nth_error (impressions df) k), (nth_error (uniques df) k),
    (nth_error (format df) k), (nth_error (freq df) k);
    try discriminate.
  intros H. injection H as <-. simpl. repeat split.
Qed.

Lemma iloc_has_rows (n : nat) (df : DataFrame) (k : nat) :
  has_rows n df -> (k < n)%nat -> exists r, iloc df k = Some r.
Proof.
  intros (Hd & Hr & Hi & Hu & Hf & Hq) Hk. unfold iloc.
  destruct (nth_error_is_Some (date df) k ltac:(lia)) as [? ->].
  destruct (nth_error_is_Some (region df) k ltac:(lia)) as [? ->].
  destruct (nth_error_is_Some (impressions df) k ltac:(lia)) as [? ->].
  destruct (nth_error_is_Some (uniques df) k ltac:(lia)) as [? ->].
  destruct (nth_error_is_Some (format df) k ltac:(lia)) as [? ->].
  destruct (nth_error_is_Some (freq df) k ltac:(lia)) as [? ->].
  eexists. reflexivity.
Qed.

Lemma iloc_in_rows (n : nat) (df : DataFrame) (k : nat) (r : DemoRecord) :
  has_rows n df -> iloc df k = Some r -> (k < n)%nat.
Proof.
  intros (Hd & _) H. apply iloc_fields in H. destruct H as (H & _).
  rewrite <- Hd. apply nth_error_Some. congruence.
Qed.

Lemma series_div_nth (a b : list Z) (k : nat) (x y : Z) :
  nth_error a k = Some x -> nth_error b k = Some y ->
  nth_error (series_round 2 (series_div a b)) k
  = Some (round_decimals 2 (true_divide x y)).
Proof.
  intros Ha Hb. unfold series_round, series_div.
  rewrite !nth_error_map, nth_error_combine, Ha, Hb. reflexivity.
Qed.

Lemma series_div_length (a b : list Z) :
  List.length a = List.length b ->
  List.length (series_round 2 (series_div a b)) = List.length a.
Proof.
  intros H. unfold series_round, series_div.
  rewrite !length_map, length_combine. lia.
Qed.

(* ------------------------------------------------------------------ *)
(** ** Group-by over an ordered key: the listing of the groups          *)
(* ------------------------------------------------------------------ *)

Section GroupByCmp.
Context {K V : Type} (cmp : K -> K -> comparison).
Hypothesis cmp_refl : forall k, cmp k k = Eq.
Hypothesis cmp_antisym : forall a b, cmp a b = CompOpp (cmp b a).

Lemma rows_of_key_by_snoc (k k' : K) (v : V) (kvs : list (K * V)) :
  rows_of_key_by cmp k (kvs ++ [(k', v)])
  = rows_of_key_by cmp k kvs ++ (if is_Eq (cmp k' k) then [v] else []).
Proof.
  unfold rows_of_key_by. rewrite List.filter_app, map_app. simpl.
  destruct (is_Eq (cmp k' k)); reflexivity.
Qed.

Lemma groups_over_by_nil (cands : list K) :
  groups_over_by cmp cands (@nil (K * V)) = [].
Proof. induction cands as [|c cs IH]; simpl; [reflexivity | exact IH]. Qed.

Lemma groups_over_by_keys_above (c : K) (cs : list K) (kvs : list (K * V)) :
  Forall (fun k => cmp c k = Lt) cs ->
  Forall (fun g => cmp c (fst g) = Lt) (groups_over_by cmp cs kvs).
Proof.
  induction 1 as [|k cs Hk _ IH]; simpl; [constructor |].
  destruct (rows_of_key_by cmp k kvs); simpl;
    [exact IH | constructor; [exact Hk | exact IH]].
Qed.

Lemma groups_over_by_other_key (k : K) (v : V) (cs : list K)
    (kvs : list (K * V)) :
  Forall (fun c => cmp k c = Lt) cs ->
  groups_over_by cmp cs (kvs ++ [(k, v)]) = groups_over_by cmp cs kvs.
Proof.
  induction 1 as [|c cs Hc _ IH]; simpl; [reflexivity |].
  rewrite rows_of_key_by_snoc, IH, Hc. simpl. rewrite app_nil_r. reflexivity.
Qed.

Lemma insert_group_first_by (k : K) (v : V) (gs : list (K * list V)) :
  Forall (fun g => cmp k (fst g) = Lt) gs ->
  insert_group cmp k v gs = (k, [v]) :: gs.
Proof.
  intros H. destruct H as [|[k' vs] gs Hk _]; simpl; [reflexivity |].
  simpl in Hk. rewrite Hk. reflexivity.
Qed.

Lemma insert_group_groups_over_by (k : K) (v : V) (cands : list K)
    (kvs : list (K * V)) :
  StronglySorted (fun a b => cmp a b = Lt) cands -> In k cands ->
  insert_group cmp k v (groups_over_by cmp cands kvs)
  = groups_over_by cmp cands (kvs ++ [(k, v)]).
Proof.
  induction 1 as [|c cs Hs IH Hc]; intros Hin; [destruct Hin |].
  simpl. rewrite rows_of_key_by_snoc.
  destruct Hin as [-> | Hin].
  - rewrite cmp_refl, (groups_over_by_other_key k v cs kvs Hc). simpl.
    destruct (rows_of_key_by cmp k kvs) as [|x xs]; simpl.
    + apply insert_group_first_by, groups_over_by_keys_above, Hc.
    + rewrite cmp_refl. reflexivity.
  - assert (cmp c k = Lt) as Hck
        by (rewrite List.Forall_forall in Hc; apply Hc, Hin).
    assert (cmp k c = Gt) as Hkc by (rewrite cmp_antisym, Hck; reflexivity).
    rewrite Hkc. simpl. rewrite app_nil_r.
    destruct (rows_of_key_by cmp c kvs) as [|x xs]; simpl.
    + apply IH, Hin.
    + rewrite Hkc. f_equal. apply IH, Hin.
Qed.

(** [groupby] lists, over any sorted candidates covering the keys present,
    the non-empty groups with their rows in row order. *)
Lemma groupby_groups_over_by (cands keys : list K) (vals : list V) :
  StronglySorted (fun a b => cmp a b = Lt) cands ->
  (forall kv, In kv (combine keys vals) -> In (fst kv) cands) ->
  groupby cmp keys vals = groups_over_by cmp cands (combine keys vals).
Proof.
  intros Hs. unfold groupby. generalize (combine keys vals) as kvs.
  induction kvs as [|[k v] kvs IH] using rev_ind; intros Hin; simpl.
  - symmetry. apply groups_over_by_nil.
  - rewrite fold_left_app. simpl. rewrite IH.
    + apply insert_group_groups_over_by; [exact Hs |].
      apply (Hin (k, v)), in_or_app. right. left. reflexivity.
    + intros kv Hkv. apply Hin, in_or_app. left. exact Hkv.
Qed.

Lemma groups_over_by_length (cands : list K) (kvs : list (K * V)) :
  (List.length (groups_over_by cmp cands kvs) <= List.length cands)%nat.
Proof.
  induction cands as [|c cs IH]; simpl; [lia |].
  rewrite length_app. destruct (rows_of_key_by cmp c kvs); simpl; lia.
Qed.

End GroupByCmp.

Lemma string_compare_refl (s : string) : String.compare s s = Eq.
Proof.
  induction s as [|a s IH]; simpl; [reflexivity |].
  unfold Ascii.compare. rewrite N.compare_refl. exact IH.
Qed.

Lemma pair_compare_refl {A B} (ca : A -> A -> comparison)
    (cb : B -> B -> comparison) :
  (forall a, ca a a = Eq) -> (forall b, cb b b = Eq) ->
  forall x, pair_compare ca cb x x = Eq.
Proof. intros Ha Hb x. unfold pair_compare. rewrite Ha. apply Hb. Qed.

Lemma pair_compare_antisym {A B} (ca : A -> A -> comparison)
    (cb : B -> B -> comparison) :
  (forall a a', ca a a' = CompOpp (ca a' a)) ->
  (forall b b', cb b b' = CompOpp (cb b' b)) ->
  forall x y, pair_compare ca cb x y = CompOpp (pair_compare ca cb y x).
Proof.
  intros Ha Hb x y. unfold pair_compare. rewrite (Ha (fst x) (fst y)).
  destruct (ca (fst y) (fst x)); simpl; [apply Hb | reflexivity | reflexivity].
Qed.

Lemma combinations_sorted :
  StronglySorted
    (fun a b => pair_compare String.compare String.compare a b = Lt)
    combinations.
Proof. repeat (constructor; [| repeat constructor]). constructor. Qed.

(* ------------------------------------------------------------------ *)
(** ** ISO weeks                                                        *)
(* ------------------------------------------------------------------ *)

(** A day lies in its own year: between that year's 1 January and the
    next. *)
Lemma year_of_bounds (z : Z) :
  days_from_civil (year_of z) 1 1 <= z < days_from_civil (year_of z + 1) 1 1.
Proof.
  unfold year_of, civil_from_days, days_from_civil. cbn [fst snd].
  change (1 <=? 2) with true. change (2 <? 1) with false. cbv iota.
  set (z' := z + 719468).
  set (era := z' / 146097).
  set (doe := z' - era * 146097).
  set (yoe := (doe - doe / 1460 + doe / 36524 - doe / 146096) / 365).
  set (doy := doe - (365 * yoe + yoe / 4 - yoe / 100)).
  set (mp := (5 * doy + 2) / 153).
  destruct (Z.ltb_spec mp 10) as [Hmp | Hmp].
  - destruct (Z.leb_spec (mp + 3) 2) as [Hm | Hm];
      subst mp doy yoe doe era z'; Z.div_mod_to_equations; lia.
  - destruct (Z.leb_spec (mp - 9) 2) as [Hm | Hm];
      subst mp doy yoe doe era z'; Z.div_mod_to_equations; lia.
Qed.

(** A year has 365 or 366 days. *)
Lemma year_length (y : Z) :
  365 <= days_from_civil (y + 1) 1 1 - days_from_civil y 1 1 <= 366.
Proof.
  unfold days_from_civil.
  change (1 <=? 2) with true. change (2 <? 1) with false. cbv iota.
  Z.div_mod_to_equations. lia.
Qed.

(** Every date has an ISO week number between 1 and 53. *)
Lemma iso_week_range (z : Z) : 1 <= iso_week z <= 53.
Proof.
  unfold iso_week, dayofweek.
  set (t := z - (z + 3) mod 7 + 3).
  pose proof (year_of_bounds t) as Hb. pose proof (year_length (year_of t)) as Hl.
  generalize dependent (days_from_civil (year_of t) 1 1).
  generalize (days_from_civil (year_of t + 1) 1 1).
  intros j1 j0 Hb Hl. Z.div_mod_to_equations. lia.
Qed.

(** Within the first 364 days from 2024-01-01 (a Monday), day [k] is in
    week [k / 7 + 1]; day 364, 2024-12-30, is in week 1 again. *)
Lemma iso_week_first_year (k : nat) :
  (k < 364)%nat -> iso_week (start_date + Z.of_nat k) = Z.of_nat k / 7 + 1.
Proof.
  intros Hk.
  assert (forallb (fun i => iso_week (start_date + Z.of_nat i)
                            =? Z.of_nat i / 7 + 1) (seq 0 364) = true) as H
      by (vm_compute; reflexivity).
  rewrite forallb_forall in H. apply Z.eqb_eq, H, in_seq. lia.
Qed.

Lemma iso_week_day_364 :
  civil_from_days (start_date + 364) = (2024, 12, 30)
  /\ iso_week (start_date + 364) = 1.
Proof. split; reflexivity. Qed.

(* ------------------------------------------------------------------ *)
(** ** The weekly table, on any frame                                   *)
(* ------------------------------------------------------------------ *)

Lemma groups_over_length {V} (cands : list Z) (kvs : list (Z * V)) :
  (List.length (groups_over cands kvs) <= List.length cands)%nat.
Proof.
  induction cands as [|c cs IH]; simpl; [lia |].
  rewrite length_app. destruct (rows_of_key c kvs); simpl; lia.
Qed.

Lemma groups_over_keys_in {V} (cands : list Z) (kvs : list (Z * V)) (k : Z) :
  In k (map fst (groups_over cands kvs)) -> In k cands.
Proof.
  induction cands as [|c cs IH]; simpl; [tauto |].
  rewrite map_app, in_app_iff. intros [H | H]; [| right; apply IH, H].
  destruct (rows_of_key c kvs); simpl in H; [tauto |].
  destruct H as [H | []]. left. exact H.
Qed.

Lemma groups_over_keys_sorted {V} (cands : list Z) (kvs : list (Z * V)) :
  StronglySorted Z.lt cands ->
  StronglySorted Z.lt (map fst (groups_over cands kvs)).
Proof.
  induction 1 as [|c cs Hs IH Hc]; simpl; [constructor |].
  destruct (rows_of_key c kvs); simpl; [exact IH |].
  constructor; [exact IH |].
  pose proof (groups_over_keys_above c cs kvs Hc) as Ha.
  apply List.Forall_map. exact Ha.
Qed.

Lemma weekly_listing (df : DataFrame) :
  weekly df
  = map (fun g => (fst g, series_sum (snd g)))
        (groups_over (map Z.of_nat (seq 1 53)) (week_rows df)).
Proof.
  unfold weekly, week_rows.
  rewrite (groupby_groups_over (map Z.of_nat (seq 1 53)));
    [reflexivity | apply hours_sorted |].
  intros [w v] Hin. apply in_combine_l in Hin. apply in_map_iff in Hin.
  destruct Hin as [d [<- _]]. pose proof (iso_week_range d) as Hr.
  cbn [fst]. apply in_map_iff. exists (Z.to_nat (iso_week d)).
  split; [lia | apply in_seq; lia].
Qed.

Lemma weekly_keys (df : DataFrame) :
  map fst (weekly df)
  = map fst (groups_over (map Z.of_nat (seq 1 53)) (week_rows df)).
Proof. rewrite weekly_listing, map_map. reflexivity. Qed.

(** However many days a frame spans, its weekly table has at most 53 rows,
    with week numbers strictly ascending between 1 and 53. *)
Lemma weekly_at_most_53 (df : DataFrame) :
  (List.length (weekly df) <= 53)%nat
  /\ StronglySorted Z.lt (map fst (weekly df))
  /\ Forall (fun w => 1 <= w <= 53) (map fst (weekly df)).
Proof.
  split; [| split].
  - rewrite weekly_listing, length_map.
    etransitivity; [apply groups_over_length |].
    rewrite length_map, length_seq. lia.
  - rewrite weekly_keys. apply groups_over_keys_sorted, hours_sorted.
  - rewrite weekly_keys. apply List.Forall_forall. intros w Hw.
    apply groups_over_keys_in in Hw. apply in_map_iff in Hw.
    destruct Hw as [i [<- Hi]]. apply in_seq in Hi. lia.
Qed.

Lemma weekly_total (df : DataFrame) :
  List.length (date df) = List.length (impressions df) ->
  series_sum (map snd (weekly df)) = series_sum (impressions df).
Proof.
  intros Hlen. unfold weekly. rewrite map_map. cbn [snd].
  rewrite (map_ext (fun g : Z * list Z => series_sum (snd g))
             (fun g => series_sum (map (fun v => v) (snd g))))
    by (intros g; rewrite map_id; reflexivity).
  rewrite (groupby_total Z.compare (fun v => v)).
  rewrite <- (map_map snd (fun v => v)), map_id, map_snd_combine_eq;
    [reflexivity | rewrite length_map; exact Hlen].
Qed.

(** Rows numbered from [a] and keyed by [k / 7 + 1]: the rows of key
    [w + 1] are the seven rows from number [7 * w] on. *)
Lemma rows_of_key_week_chunk (w : nat) (l : list Z) (a : nat) :
  rows_of_key (Z.of_nat w + 1)
    (combine (map (fun k => Z.of_nat k / 7 + 1) (seq a (List.length l))) l)
  = firstn (7 * w + 7 - (a + (7 * w - a))) (skipn (7 * w - a) l).
Proof.
  revert a. induction l as [|x l IH]; intros a.
  - rewrite skipn_nil, firstn_nil. reflexivity.
  - cbn [List.length seq map combine]. unfold rows_of_key in *.
    cbn [List.filter fst]. specialize (IH (S a)).
    destruct (Z.eqb_spec (Z.of_nat a / 7 + 1) (Z.of_nat w + 1)) as [E | E].
    + assert (7 * w <= a < 7 * w + 7)%nat as Ha
          by (Z.div_mod_to_equations; lia).
      cbn [map snd]. rewrite IH.
      replace (7 * w - a)%nat with 0%nat by lia.
      replace (7 * w - S a)%nat with 0%nat by lia.
      replace (7 * w + 7 - (a + 0))%nat
        with (S (7 * w + 7 - (S a + 0))) by lia.
      reflexivity.
    + rewrite IH. destruct (Nat.lt_ge_cases a (7 * w)) as [Ha | Ha].
      * replace (7 * w - a)%nat with (S (7 * w - S a)) by lia.
        cbn [skipn]. f_equal. lia.
      * assert (7 * w + 7 <= a)%nat as Ha'
            by (destruct (Nat.lt_ge_cases a (7 * w + 7)); [| assumption];
                exfalso; apply E; Z.div_mod_to_equations; lia).
        replace (7 * w + 7 - (S a + (7 * w - S a)))%nat with 0%nat by lia.
        replace (7 * w + 7 - (a + (7 * w - a)))%nat with 0%nat by lia.
        reflexivity.
Qed.

(** Up to 364 days from 2024-01-01, the weekly table lists the calendar
    weeks 1, 2, ... in order, each with the sum of its seven rows (fewer in
    a last, partial week). *)
Lemma weekly_first_year (df : DataFrame) (n : Z) :
  0 <= n <= 364 ->
  date df = day_range start_date n ->
  List.length (impressions df) = Z.to_nat n ->
  weekly df
  = map (fun w => (Z.of_nat w + 1,
                   series_sum (firstn 7 (skipn (7 * w) (impressions df)))))
        (seq 0 ((Z.to_nat n + 6) / 7)).
Proof.
  intros Hn Hd Hi. rewrite weekly_listing.
  set (m := ((Z.to_nat n + 6) / 7)%nat).
  assert (m <= 53)%nat as Hm
      by (subst m; apply Nat.Div0.div_le_upper_bound; lia).
  assert (forall w,
            rows_of_key (Z.of_nat w + 1) (week_rows df)
            = firstn 7 (skipn (7 * w) (impressions df))) as Hrows.
  { intros w. unfold week_rows. rewrite Hd. unfold day_range.
    rewrite map_map.
    rewrite (map_ext_in _ (fun k => Z.of_nat k / 7 + 1))
      by (intros k Hk; apply in_seq in Hk; apply iso_week_first_year; lia).
    rewrite <- Hi, rows_of_key_week_chunk. rewrite Nat.sub_0_r.
    f_equal. lia. }
  change (map Z.of_nat (seq 1 53))
    with (map (fun w => Z.of_nat w + 1) (seq 0 53)).
  replace 53%nat with (m + (53 - m))%nat at 1 by lia.
  rewrite seq_app, map_app, groups_over_app.
  rewrite (groups_over_absent (map _ (seq (0 + m) (53 - m)))).
  - rewrite app_nil_r, groups_over_present.
    + rewrite !map_map. apply map_ext. intros w. cbn [fst snd].
      rewrite Hrows. reflexivity.
    + intros k Hk. apply in_map_iff in Hk. destruct Hk as [w [<- Hw]].
      apply in_seq in Hw. rewrite Hrows.
      assert (7 * w < List.length (impressions df))%nat as Hlt.
      { rewrite Hi. subst m.
        pose proof (Nat.Div0.div_mod (Z.to_nat n + 6) 7) as Hdm.
        pose proof (Nat.mod_upper_bound (Z.to_nat n + 6) 7 ltac:(lia)). lia. }
      destruct (skipn (7 * w) (impressions df)) as [|x xs] eqn:E;
        [| discriminate].
      apply (f_equal (@List.length Z)) in E. rewrite length_skipn in E.
      simpl in E. lia.
  - intros k Hk. apply in_map_iff in Hk. destruct Hk as [w [<- Hw]].
    apply in_seq in Hw. rewrite Hrows, skipn_all2; [reflexivity |].
    rewrite Hi. subst m.
    pose proof (Nat.Div0.div_mod (Z.to_nat n + 6) 7) as Hdm.
    pose proof (Nat.mod_upper_bound (Z.to_nat n + 6) 7 ltac:(lia)). lia.
Qed.

Lemma rows_of_key_app {V} (k : Z) (l1 l2 : list (Z * V)) :
  rows_of_key k (l1 ++ l2) = rows_of_key k l1 ++ rows_of_key k l2.
Proof. unfold rows_of_key. rewrite List.filter_app, map_app. reflexivity. Qed.

Lemma rows_of_key_all {V} (k : Z) (l : list (Z * V)) :
  Forall (fun kv => fst kv = k) l ->
  List.length (rows_of_key k l) = List.length l.
Proof.
  unfold rows_of_key. induction 1 as [|kv l Hkv _ IH]; simpl; [reflexivity |].
  rewrite Hkv, Z.eqb_refl. simpl. rewrite IH. reflexivity.
Qed.

Lemma week_rows_nth (df : DataFrame) (n : Z) (k : nat) :
  date df = day_range start_date n ->
  List.length (impressions df) = Z.to_nat n ->
  (k < Z.to_nat n)%nat ->
  exists v, nth_error (impressions df) k = Some v
            /\ nth_error (week_rows df) k
               = Some (iso_week (start_date + Z.of_nat k), v).
Proof.
  intros Hd Hi Hk.
  destruct (nth_error_is_Some (impressions df) k ltac:(lia)) as [v Hv].
  exists v. split; [exact Hv |]. unfold week_rows.
  rewrite nth_error_combine, nth_error_map, Hd, day_range_nth, Hv by exact Hk.
  reflexivity.
Qed.

(** From 365 days on the date column reaches 2024-12-30, which is in ISO
    week 1 of 2025: grouping by the week number alone puts it, and every
    later day of a week 1, into the same group as the first seven days of
    2024. *)
Lemma weekly_merges_years (df : DataFrame) (n : Z) :
  365 <= n ->
  date df = day_range start_date n ->
  List.length (impressions df) = Z.to_nat n ->
  (8 <= List.length (rows_of_key 1 (week_rows df)))%nat
  /\ exists rest,
       weekly df = (1, series_sum (rows_of_key 1 (week_rows df))) :: rest.
Proof.
  intros Hn Hd Hi.
  assert (8 <= List.length (rows_of_key 1 (week_rows df)))%nat as H8.
  { assert (List.length (week_rows df) = Z.to_nat n) as Hlen
        by (unfold week_rows;
            rewrite length_combine, length_map, Hd, day_range_length; lia).
    rewrite <- (firstn_skipn 7 (week_rows df)), rows_of_key_app, length_app.
    assert (List.length (rows_of_key 1 (firstn 7 (week_rows df))) = 7%nat)
      as H7.
    { rewrite rows_of_key_all; [rewrite length_firstn; lia |].
      apply List.Forall_forall. intros kv Hkv.
      apply In_nth_error in Hkv. destruct Hkv as [i Hi'].
      assert (i < 7)%nat as Hlt.
      { assert (i < List.length (firstn 7 (week_rows df)))%nat as Hl
            by (apply nth_error_Some; congruence).
        rewrite length_firstn in Hl. lia. }
      rewrite nth_error_firstn in Hi'.
      destruct (Nat.ltb_spec i 7); [| lia].
      destruct (week_rows_nth df n i Hd Hi ltac:(lia)) as [v [_ Hv]].
      rewrite Hv in Hi'. injection Hi' as <-. cbn [fst].
      rewrite iso_week_first_year by lia.
      apply Z.add_move_r. apply Z.div_small. lia. }
    assert (rows_of_key 1 (skipn 7 (week_rows df)) <> []) as Hne.
    { destruct (week_rows_nth df n 364 Hd Hi ltac:(lia)) as [v [_ Hv]].
      apply (rows_of_key_some _ v). apply (nth_error_In _ 357).
      rewrite nth_error_skipn. exact Hv. }
    destruct (rows_of_key 1 (skipn 7 (week_rows df))); [congruence |].
    simpl. lia. }
  split; [exact H8 |].
  rewrite weekly_listing.
  change (map Z.of_nat (seq 1 53)) with (1 :: map Z.of_nat (seq 2 52)).
  cbn [groups_over flat_map].
  destruct (rows_of_key 1 (week_rows df)) as [|x xs] eqn:E;
    [simpl in H8; lia |].
  eexists. reflexivity.
Qed.

(* ------------------------------------------------------------------ *)
(** ** Means and forecasts stay between the values they average        *)
(* ------------------------------------------------------------------ *)

Lemma in_firstn_in {A} (n : nat) (l : list A) (x : A) :
  In x (firstn n l) -> In x l.
Proof.
  intros H. rewrite <- (firstn_skipn n l). apply in_or_app. left. exact H.
Qed.

Lemma in_skipn_in {A} (n : nat) (l : list A) (x : A) :
  In x (skipn n l) -> In x l.
Proof.
  intros H. rewrite <- (firstn_skipn n l). apply in_or_app. right. exact H.
Qed.

Lemma window_in (w : nat) (xs : list Z) (i : nat) (x : Z) :
  In x (window w xs i) -> In x xs.
Proof. unfold window. intros H. eapply in_firstn_in, in_skipn_in, H. Qed.

Lemma series_sum_bounds (lo hi : Z) (xs : list Z) :
  Forall (fun x => lo <= x <= hi) xs ->
  lo * Z.of_nat (List.length xs) <= series_sum xs
  <= hi * Z.of_nat (List.length xs).
Proof.
  induction 1 as [|x xs Hx _ IH]; [simpl; lia |].
  cbn [series_sum fold_right List.length]. fold (series_sum xs).
  rewrite Nat2Z.inj_succ. lia.
Qed.

(** Rounding a quotient that lies between two integers stays between
    them. *)
Lemma round_half_even_between (s : Z) (c : positive) (lo hi : Z) :
  lo * Z.pos c <= s <= hi * Z.pos c ->
  lo <= round_half_even (s # c) <= hi.
Proof.
  intros [Hlo Hhi]. unfold round_half_even. cbn [Qfloor].
  pose proof (Z.div_mod s (Z.pos c) ltac:(lia)) as Hdm.
  pose proof (Z.mod_pos_bound s (Z.pos c) ltac:(lia)) as Hr.
  set (f := s / Z.pos c) in *. set (r := s mod Z.pos c) in *.
  assert (lo <= f) as Hf1 by nia.
  assert (f <= hi) as Hf2 by nia.
  assert (0 < r -> f + 1 <= hi) as Hup by nia.
  unfold Qcompare, Qminus, Qplus, Qopp, inject_Z. cbn [Qnum Qden].
  rewrite Pos.mul_1_r, Z.mul_1_r, Z.mul_1_l.
  replace (s + - f * Z.pos c) with r by lia.
  destruct (Z.compare_spec (r * 2) (Z.pos c)) as [E | E | E].
  - destruct (Z.even f); [lia | split; [lia | apply Hup; lia]].
  - lia.
  - split; [lia | apply Hup; lia].
Qed.

Lemma mean_round_between (lo hi : Z) (xs : list Z) :
  xs <> [] -> Forall (fun x => lo <= x <= hi) xs ->
  exists v, option_map round_half_even (mean xs) = Some v /\ lo <= v <= hi.
Proof.
  intros Hne Hall. pose proof (series_sum_bounds lo hi xs Hall) as Hs.
  destruct xs as [|x xs]; [congruence |]. unfold mean, option_map.
  eexists. split; [reflexivity |]. apply round_half_even_between.
  replace (Z.pos (Pos.of_nat (List.length (x :: xs))))
    with (Z.of_nat (List.length (x :: xs))); [exact Hs |].
  cbn [List.length]. rewrite <- Pos.of_nat_succ, Zpos_P_of_succ_nat. lia.
Qed.

Lemma forecast_length (xs : list Z) :
  List.length (forecast xs) = List.length xs.
Proof.
  unfold forecast, rolling_mean. rewrite !length_map, length_seq. reflexivity.
Qed.

(** No forecast is NaN, and each lies between any two bounds of the
    values. *)
Lemma forecast_between (lo hi : Z) (xs : list Z) (f : option Z) :
  Forall (fun x => lo <= x <= hi) xs -> In f (forecast xs) ->
  exists v, f = Some v /\ lo <= v <= hi.
Proof.
  intros Hall Hin. apply In_nth_error in Hin. destruct Hin as [i Hi].
  assert (i < List.length xs)%nat as Hlt
      by (rewrite <- forecast_length; apply nth_error_Some; congruence).
  rewrite forecast_nth in Hi by exact Hlt. injection Hi as <-.
  destruct (mean_round_between lo hi (window 4 xs i)) as [v [Hv Hb]].
  - pose proof (window_length 4 xs i ltac:(lia) Hlt) as Hl.
    destruct (window 4 xs i); [simpl in Hl; lia | discriminate].
  - apply List.Forall_forall. intros x Hx. apply window_in in Hx.
    rewrite List.Forall_forall in Hall. apply Hall, Hx.
  - exists v. split; [exact Hv | exact Hb].
Qed.

(** The second and third forecasts average the first two and the first
    three values: the window is shorter than 4 there. *)
Lemma forecast_second (a b : Z) (xs : list Z) :
  nth_error (forecast (a :: b :: xs)) 1
  = Some (Some (round_half_even ((a + b) # 2))).
Proof.
  rewrite forecast_nth by (simpl; lia). unfold window. simpl.
  do 3 f_equal. change (Pos.of_nat 2) with 2%positive. f_equal. lia.
Qed.

Lemma forecast_third (a b c : Z) (xs : list Z) :
  nth_error (forecast (a :: b :: c :: xs)) 2
  = Some (Some (round_half_even ((a + b + c) # 3))).
Proof.
  rewrite forecast_nth by (simpl; lia). unfold window. simpl.
  do 3 f_equal. change (Pos.of_nat 3) with 3%positive. f_equal. lia.
Qed.

Lemma mean_between (lo hi : Z) (xs : list Z) :
  xs <> [] -> Forall (fun x => lo <= x < hi) xs ->
  exists q, mean xs = Some q
            /\ (inject_Z lo <= q)%Q /\ (q < inject_Z hi)%Q.
Proof.
  intros Hne Hall.
  assert (Forall (fun x => lo <= x <= hi - 1) xs) as Hall'
      by (eapply List.Forall_impl; [| exact Hall]; simpl; intros; lia).
  pose proof (series_sum_bounds lo (hi - 1) xs Hall') as Hs.
  destruct xs as [|x xs]; [congruence |]. unfold mean.
  eexists. split; [reflexivity |].
  unfold Qle, Qlt, inject_Z. cbn [Qnum Qden].
  replace (Z.pos (Pos.of_nat (List.length (x :: xs))))
    with (Z.of_nat (List.length (x :: xs)))
    by (cbn [List.length];
        rewrite <- Pos.of_nat_succ, Zpos_P_of_succ_nat; lia).
  assert (0 < Z.of_nat (List.length (x :: xs))) by (cbn [List.length]; lia).
  split; nia.
Qed.

Lemma rows_of_key_in {V} (k : Z) (kvs : list (Z * V)) (v : V) :
  In v (rows_of_key k kvs) -> exists k', In (k', v) kvs.
Proof.
  unfold rows_of_key. intros H. apply in_map_iff in H.
  destruct H as [[k' v'] [<- H]]. apply filter_In in H.
  exists k'. apply H.
Qed.

(* ------------------------------------------------------------------ *)
(** ** The router                                                       *)
(* ------------------------------------------------------------------ *)

(** X12: The navigation starts on Home; the four options are dispatched, in
    order, to the four renderers, so no two options show the same page;
    anything that is not an option would fall through to Contact. *)
Theorem router_dispatch :
  radio page_options 0 = Some "Home"%string
  /\ map router page_options
     = [render_home; render_projects; render_resume; render_contact]
  /\ (forall p q, In p page_options -> In q page_options ->
        router p = router q -> p = q)
  /\ (forall p, ~ In p page_options -> router p = render_contact).
Proof.
  split; [reflexivity |]. split; [reflexivity |]. split.
  - intros p q Hp Hq. simpl in Hp, Hq.
    destruct Hp as [<- | [<- | [<- | [<- | []]]]];
      destruct Hq as [<- | [<- | [<- | [<- | []]]]];
      intros H; try reflexivity; discriminate H.
  - intros p Hp. unfold router.
    destruct (String.eqb_spec p "Home") as [-> | _];
      [exfalso; apply Hp; simpl; tauto |].
    destruct (String.eqb_spec p "Projects") as [-> | _];
      [exfalso; apply Hp; simpl; tauto |].
    destruct (String.eqb_spec p "Resume") as [-> | _];
      [exfalso; apply Hp; simpl; tauto | reflexivity].
Qed.

(* ------------------------------------------------------------------ *)
(** ** The cache                                                        *)
(* ------------------------------------------------------------------ *)

(** Once a value is cached, every call returns it and touches nothing. *)
Lemma calls_cached {S A} (f : S -> result (A * S)) (k : nat) (a : A) (st : S) :
  calls f k (Some a) st = Ok (repeat a k, (Some a, st)).
Proof.
  induction k as [|k IH]; simpl; [reflexivity |]. rewrite IH. reflexivity.
Qed.

(** From an empty cache, the first call runs the function and every
    call returns what that run returned. *)
Lemma calls_first {S A} (f : S -> result (A * S)) (k : nat) (a : A)
    (st st' : S) :
  f st = Ok (a, st') ->
  calls f (Datatypes.S k) None st = Ok (repeat a (Datatypes.S k), (Some a, st')).
Proof.
  intros Hf. simpl. rewrite Hf, calls_cached. reflexivity.
Qed.

(** A call that raises caches nothing: the next call runs again. *)
Lemma cache_data_raise {S A} (f : S -> result (A * S)) (e : exn) (st : S) :
  f st = Raise e -> cache_data f None st = Raise e.
Proof. intros Hf. unfold cache_data. rewrite Hf. reflexivity. Qed.

(* ------------------------------------------------------------------ *)
(** ** The preview markup                                               *)
(* ------------------------------------------------------------------ *)

Example b64encode_examples :
  map b64encode [[]; [x4d]; [x4d; x61]; [x4d; x61; x6e];
                 [xff; xff; xff; x00]]%byte
  = [EmptyString; "TQ=="; "TWE="; "TWFu"; "////AA=="]%string.
Proof. reflexivity. Qed.

(** Induction over a byte string three bytes at a time. *)
Lemma list_ind3 {A} (P : list A -> Prop) :
  P [] -> (forall a, P [a]) -> (forall a b, P [a; b]) ->
  (forall a b c l, P l -> P (a :: b :: c :: l)) ->
  forall l, P l.
Proof.
  intros H0 H1 H2 H3.
  assert (forall l, P l /\ (forall a, P (a :: l))
                    /\ (forall a b, P (a :: b :: l))) as H.
  { induction l as [|x l (IH0 & IH1 & IH2)].
    - split; [exact H0 | split; [exact H1 | exact H2]].
    - split; [apply IH1 | split; [intros a; apply IH2 |]].
      intros a b. apply H3, IH0. }
  intros l. apply H.
Qed.

Lemma b64_char_in_alphabet (i : N) :
  In (b64_char (i mod 64)) (list_ascii_of_string b64_alphabet).
Proof.
  unfold b64_char. apply nth_In.
  pose proof (N.mod_upper_bound i 64 ltac:(discriminate)).
  change (List.length (list_ascii_of_string b64_alphabet)) with 64%nat. lia.
Qed.

Lemma b64_char_first (a : byte) (n : N) :
  (n < 65536)%N ->
  In (b64_char ((Byte.to_N a * 65536 + n) / 262144))
     (list_ascii_of_string b64_alphabet).
Proof.
  intros Hn. pose proof (Byte.to_N_bounded a) as Ha.
  rewrite <- (N.mod_small ((Byte.to_N a * 65536 + n) / 262144) 64).
  - apply b64_char_in_alphabet.
  - apply N.Div0.div_lt_upper_bound. lia.
Qed.

Lemma list_ascii_of_string_app (s1 s2 : string) :
  list_ascii_of_string (s1 ++ s2)
  = list_ascii_of_string s1 ++ list_ascii_of_string s2.
Proof. induction s1 as [|c s1 IH]; simpl; [reflexivity | rewrite IH; reflexivity]. Qed.

Lemma b64encode_length (bs : list byte) :
  String.length (b64encode bs) = (4 * ((List.length bs + 2) / 3))%nat.
Proof.
  induction bs as [| a | a b | a b c l IH] using list_ind3.
  - reflexivity.
  - reflexivity.
  - reflexivity.
  - cbn [b64encode String.length List.length]. rewrite IH.
    replace (S (S (S (List.length l))) + 2)%nat
      with (List.length l + 2 + 1 * 3)%nat by lia.
    rewrite Nat.div_add by lia. lia.
Qed.

Lemma b64encode_alphabet (bs : list byte) :
  Forall (fun ch => In ch (list_ascii_of_string b64_alphabet) \/ ch = "="%char)
         (list_ascii_of_string (b64encode bs)).
Proof.
  induction bs as [| a | a b | a b c l IH] using list_ind3.
  - apply List.Forall_nil.
  - cbn [b64encode list_ascii_of_string].
    apply List.Forall_cons.
    { left.
      replace (Byte.to_N a * 65536)%N with (Byte.to_N a * 65536 + 0)%N by lia.
      apply b64_char_first. lia. }
    apply List.Forall_cons; [left; apply b64_char_in_alphabet |].
    apply List.Forall_cons; [right; reflexivity |].
    apply List.Forall_cons; [right; reflexivity | apply List.Forall_nil].
  - pose proof (Byte.to_N_bounded b) as Hb.
    cbn [b64encode list_ascii_of_string].
    apply List.Forall_cons; [left; apply b64_char_first; lia |].
    apply List.Forall_cons; [left; apply b64_char_in_alphabet |].
    apply List.Forall_cons; [left; apply b64_char_in_alphabet |].
    apply List.Forall_cons; [right; reflexivity | apply List.Forall_nil].
  - pose proof (Byte.to_N_bounded b) as Hb.
    pose proof (Byte.to_N_bounded c) as Hc.
    cbn [b64encode list_ascii_of_string].
    apply List.Forall_cons.
    { left.
      replace (Byte.to_N a * 65536 + Byte.to_N b * 256 + Byte.to_N c)%N
        with (Byte.to_N a * 65536 + (Byte.to_N b * 256 + Byte.to_N c))%N by lia.
      apply b64_char_first. lia. }
    apply List.Forall_cons; [left; apply b64_char_in_alphabet |].
    apply List.Forall_cons; [left; apply b64_char_in_alphabet |].
    apply List.Forall_cons; [left; apply b64_char_in_alphabet | exact IH].
Qed.

Lemma b64encode_no_quote (bs : list byte) :
  count_occ ascii_dec (list_ascii_of_string (b64encode bs)) (ascii_of_nat 34)
  = 0%nat.
Proof.
  apply count_occ_not_In. intros Hin.
  pose proof (b64encode_alphabet bs) as Hall.
  rewrite List.Forall_forall in Hall. destruct (Hall _ Hin) as [H | H].
  - assert (existsb (Ascii.eqb (ascii_of_nat 34))
              (list_ascii_of_string b64_alphabet) = false) as E
        by reflexivity.
    assert (existsb (Ascii.eqb (ascii_of_nat 34))
              (list_ascii_of_string b64_alphabet) = true) as E'
        by (apply existsb_exists; eexists; split;
            [exact H | apply Ascii.eqb_refl]).
    congruence.
  - discriminate H.
Qed.

(** X13: The preview of any file: the encoded text has 4 characters for every
    3 bytes (rounded up), all from the base64 alphabet or [=]; so the
    markup holds exactly the six double quotes of its three attributes,
    whatever the bytes of the file are. *)
Theorem resume_preview_wellformed (cv_bytes : list byte) :
  String.length (b64encode cv_bytes)
  = (4 * ((List.length cv_bytes + 2) / 3))%nat
  /\ Forall (fun ch => In ch (list_ascii_of_string b64_alphabet)
                       \/ ch = "="%char)
            (list_ascii_of_string (b64encode cv_bytes))
  /\ count_occ ascii_dec (list_ascii_of_string (resume_preview cv_bytes))
               (ascii_of_nat 34) = 6%nat.
Proof.
  split; [apply b64encode_length |]. split; [apply b64encode_alphabet |].
  unfold resume_preview, iframe_markup.
  rewrite !list_ascii_of_string_app, !count_occ_app, b64encode_no_quote.
  reflexivity.
Qed.

(* ------------------------------------------------------------------ *)
(** ** More on the aggregations, on any frame                           *)
(* ------------------------------------------------------------------ *)

Lemma map_flat_map {A B C} (f : B -> C) (g : A -> list B) (l : list A) :
  map f (flat_map g l) = flat_map (fun x => map f (g x)) l.
Proof.
  induction l as [|x l IH]; simpl; [reflexivity |].
  rewrite map_app, IH. reflexivity.
Qed.

Lemma agg_uniques_total (df : DataFrame) :
  List.length (region df) = List.length (format df) ->
  List.length (impressions df) = List.length (uniques df) ->
  List.length (region df) = List.length (impressions df) ->
  series_sum (map a_uniques (agg df)) = series_sum (uniques df).
Proof.
  intros Hrf Hiu Hri. unfold agg. rewrite map_map. simpl.
  rewrite (groupby_total _ snd).
  rewrite <- (map_map snd snd), map_snd_combine_eq.
  - rewrite map_snd_combine_eq by exact Hiu. reflexivity.
  - rewrite !length_combine. lia.
Qed.

(** [agg] lists the twelve combinations in lexicographic order, leaving
    out those no row has, each with the sums over its rows. *)
Lemma agg_listing (df : DataFrame) :
  Forall (fun r => In r ["Lisboa"; "Porto"; "Matosinhos"; "Setúbal"]%string)
         (region df) ->
  Forall (fun f => In f ["Mupi"; "Abrigo"; "Digital"]%string) (format df) ->
  agg df
  = flat_map
      (fun c =>
         match rows_of_key_by (pair_compare String.compare String.compare)
                 c (agg_rows df) with
         | [] => []
         | vs => [mkAggRow (fst c) (snd c) (series_sum (map fst vs))
                           (series_sum (map snd vs))]
         end)
      combinations
  /\ (List.length (agg df) <= 12)%nat.
Proof.
  intros Hr Hf.
  assert (agg df
          = map (fun g : (string * string) * list (Z * Z) =>
                   mkAggRow (fst (fst g)) (snd (fst g))
                            (series_sum (map fst (snd g)))
                            (series_sum (map snd (snd g))))
                (groups_over_by (pair_compare String.compare String.compare)
                   combinations (agg_rows df))) as E.
  { unfold agg, agg_rows. f_equal.
    apply groupby_groups_over_by.
    - apply pair_compare_refl; apply string_compare_refl.
    - apply pair_compare_antisym; apply String.compare_antisym.
    - apply combinations_sorted.
    - intros [[r f] v] Hin. apply in_combine_l in Hin. cbn [fst].
      pose proof (in_combine_l _ _ _ _ Hin) as Hinr.
      pose proof (in_combine_r _ _ _ _ Hin) as Hinf.
      rewrite List.Forall_forall in Hr, Hf.
      specialize (Hr r Hinr). specialize (Hf f Hinf).
      apply in_prod; simpl in *; tauto. }
  split.
  - rewrite E. unfold groups_over_by. rewrite map_flat_map.
    apply flat_map_ext. intros c.
    destruct (rows_of_key_by _ c (agg_rows df)); reflexivity.
  - rewrite E, length_map.
    etransitivity; [apply groups_over_by_length |]. reflexivity.
Qed.

(** Every hourly mean lies in the range of the values it averages. *)
Lemma hourly_mean_between (df : DataFrame) (lo hi : Z) (h : Z)
    (m : option Q) :
  List.length (uniques df) = nrows df ->
  Forall (fun u => lo <= u < hi) (uniques df) ->
  In (h, m) (hourly df) ->
  exists q, m = Some q /\ (inject_Z lo <= q)%Q /\ (q < inject_Z hi)%Q.
Proof.
  intros Hlen Hall Hin. rewrite (hourly_listing df Hlen) in Hin.
  apply in_map_iff in Hin. destruct Hin as [h' [E Hh']].
  injection E as _ <-. apply in_seq in Hh'.
  destruct (hourly_bucket_mean df h' Hlen ltac:(lia) ltac:(lia)) as [q0 Hq0].
  destruct (mean_between lo hi
              (rows_of_key (Z.of_nat h')
                 (combine (hour_column df) (uniques df))))
    as [q [Hq Hb]].
  - intros E. rewrite E in Hq0. discriminate.
  - apply List.Forall_forall. intros u Hu.
    apply rows_of_key_in in Hu. destruct Hu as [k Hk].
    apply in_combine_r in Hk. rewrite List.Forall_forall in Hall.
    apply Hall, Hk.
  - exists q. split; [exact Hq | exact Hb].
Qed.

Lemma weekly_forecast_length (df : DataFrame) :
  List.length (weekly_forecast df) = List.length (weekly df).
Proof.
  unfold weekly_forecast.
  rewrite length_combine, forecast_length, length_map. lia.
Qed.

Lemma weekly_forecast_between (df : DataFrame) (lo hi : Z) :
  (forall w s, In (w, s) (weekly df) -> lo <= s <= hi) ->
  forall w s f, In (w, s, f) (weekly_forecast df) ->
                exists v, f = Some v /\ lo <= v <= hi.
Proof.
  intros Hall w s f Hin. unfold weekly_forecast in Hin.
  apply in_combine_r in Hin.
  apply (forecast_between lo hi (map snd (weekly df)) f); [| exact Hin].
  apply List.Forall_forall. intros x Hx. apply in_map_iff in Hx.
  destruct Hx as [[w' s'] [<- Hws]]. apply (Hall w' s' Hws).
Qed.

Lemma weekly_forecast_second (df : DataFrame) (w s : Z) (f : option Z) :
  nth_error (weekly_forecast df) 1 = Some (w, s, f) ->
  exists a, nth_error (map snd (weekly df)) 0 = Some a
            /\ f = Some (round_half_even ((a + s) # 2)).
Proof.
  unfold weekly_forecast. rewrite nth_error_combine. intros H.
  destruct (nth_error (weekly df) 1) as [[w' s']|] eqn:Hw; [| discriminate].
  destruct (nth_error (forecast (map snd (weekly df))) 1) as [f'|] eqn:Hf;
    [| discriminate].
  injection H as -> -> ->.
  destruct (weekly df) as [|[w0 a] [|[w1 b] wk]]; try discriminate.
  injection Hw as -> ->. exists a. split; [reflexivity |].
  cbn [map snd] in Hf. rewrite forecast_second in Hf. congruence.
Qed.

Lemma weekly_forecast_third (df : DataFrame) (w s : Z) (f : option Z) :
  nth_error (weekly_forecast df) 2 = Some (w, s, f) ->
  exists a b, nth_error (map snd (weekly df)) 0 = Some a
              /\ nth_error (map snd (weekly df)) 1 = Some b
              /\ f = Some (round_half_even ((a + b + s) # 3)).
Proof.
  unfold weekly_forecast. rewrite nth_error_combine. intros H.
  destruct (nth_error (weekly df) 2) as [[w' s']|] eqn:Hw; [| discriminate].
  destruct (nth_error (forecast (map snd (weekly df))) 2) as [f'|] eqn:Hf;
    [| discriminate].
  injection H as -> -> ->.
  destruct (weekly df) as [|[w0 a] [|[w1 b] [|[w2 c] wk]]]; try discriminate.
  injection Hw as -> ->. exists a, b. split; [reflexivity |].
  split; [reflexivity |].
  cbn [map snd] in Hf. rewrite forecast_third in Hf. congruence.
Qed.

Lemma firstn_seq_le (a n m : nat) :
  (n <= m)%nat -> firstn n (seq a m) = seq a n.
Proof.
  intros H. replace m with (n + (m - n))%nat by lia.
  rewrite seq_app, firstn_app, length_seq, Nat.sub_diag. simpl.
  rewrite app_nil_r. apply firstn_all2. rewrite length_seq. lia.
Qed.

Lemma day_range_firstn (start n m : Z) :
  0 <= n <= m ->
  day_range start n = firstn (Z.to_nat n) (day_range start m).
Proof.
  intros H. unfold day_range. rewrite firstn_map, firstn_seq_le by lia.
  reflexivity.
Qed.


(** The forecast frame is the weekly table with one more column: one row
    per week, in the same order. *)
Lemma weekly_forecast_weeks (df : DataFrame) :
  map fst (weekly_forecast df) = weekly df.
Proof.
  unfold weekly_forecast. apply map_fst_combine_eq.
  rewrite forecast_length, length_map. reflexivity.
Qed.

Lemma weekly_forecast_row (df : DataFrame) (i : nat) (w s : Z) :
  nth_error (weekly df) i = Some (w, s) ->
  exists f, nth_error (weekly_forecast df) i = Some (w, s, f).
Proof.
  intros Hw.
  assert (i < List.length (weekly_forecast df))%nat as Hlt
      by (rewrite weekly_forecast_length; apply nth_error_Some; congruence).
  destruct (nth_error_is_Some _ _ Hlt) as [[[w' s'] f] Hf].
  exists f. rewrite Hf.
  pose proof (weekly_forecast_weeks df) as E.
  apply (f_equal (fun l => nth_error l i)) in E.
  rewrite nth_error_map, Hf, Hw in E. simpl in E. congruence.
Qed.

(* ------------------------------------------------------------------ *)
(** ** The binary64 arithmetic of [freq]                                *)
(* ------------------------------------------------------------------ *)

Lemma nearest_even_spec (N D : Z) :
  0 <= N -> 0 < D ->
  2 * Z.abs (nearest_even N D * D - N) <= D
  /\ N / D <= nearest_even N D <= N / D + 1.
Proof.
  intros HN HD. unfold nearest_even, shr_of, loc_of_shr_record.
  pose proof (Z.div_mod N D ltac:(lia)) as E.
  pose proof (Z.mod_pos_bound N D HD) as B.
  destruct (Z.leb_spec D (2 * (N mod D))) as [Hr | Hr];
    destruct (Z.eqb_spec (N mod D) 0) as [H0 | H0];
    destruct (Z.eqb_spec (2 * (N mod D)) D) as [Hh | Hh];
    cbn [negb andb round_nearest_even]; try lia;
    try (destruct (Z.even (N / D))); nia.
Qed.

Lemma shr_1_shr_of (N D : Z) :
  0 <= N -> 0 < D -> shr_1 (shr_of N D) = shr_of N (2 * D).
Proof.
  intros HN HD. unfold shr_of, shr_1.
  pose proof (Z.div_mod N D ltac:(lia)) as E.
  pose proof (Z.mod_pos_bound N D HD) as B.
  pose proof (Z.div_pos N D HN HD) as Hq.
  assert (N / (2 * D) = N / D / 2) as Ediv
      by (rewrite (Z.mul_comm 2 D), Z.div_div by lia; reflexivity).
  assert (N mod (2 * D) = (N / D mod 2) * D + N mod D) as Emod.
  { pose proof (Z.div_mod N (2 * D) ltac:(lia)) as E2.
    pose proof (Z.div_mod (N / D) 2 ltac:(lia)) as E3.
    rewrite Ediv in E2. nia. }
  assert ((D <=? 2 * (N mod D)) || (negb (N mod D =? 0) && negb (2 * (N mod D) =? D))
          = negb (N mod D =? 0))%bool as Hs.
  { destruct (Z.leb_spec D (2 * (N mod D)));
      destruct (Z.eqb_spec (N mod D) 0);
      destruct (Z.eqb_spec (2 * (N mod D)) D); simpl; try reflexivity; lia. }
  rewrite Hs, Ediv, Emod. clear Hs Ediv Emod.
  remember (N / D mod 2) as b eqn:Eb.
  assert (forall c : Z, b = c -> (c = 0 \/ c = 1) ->
            (2 * D <=? 2 * (b * D + N mod D)) = (c =? 1)
            /\ negb (b * D + N mod D =? 0) && negb (2 * (b * D + N mod D) =? 2 * D)
               = negb (N mod D =? 0))%bool as Hb.
  { intros c <- Hc. split.
    - destruct (Z.leb_spec (2 * D) (2 * (b * D + N mod D)));
        destruct (Z.eqb_spec b 1); try reflexivity; nia.
    - destruct (Z.eqb_spec (b * D + N mod D) 0);
        destruct (Z.eqb_spec (2 * (b * D + N mod D)) (2 * D));
        destruct (Z.eqb_spec (N mod D) 0); simpl; try reflexivity; nia. }
  destruct (N / D) as [|p|p] eqn:Eq; [| | lia].
  - destruct (Hb 0 Eb ltac:(lia)) as [-> ->]. reflexivity.
  - destruct p as [p|p|].
    + destruct (Hb 1) as [-> ->]; [| lia |].
      { rewrite Eb, Pos2Z.inj_xI. rewrite Z.add_comm, Z.mul_comm, Z.mod_add by lia.
        reflexivity. }
      rewrite Pos2Z.inj_xI.
      replace ((2 * Z.pos p + 1) / 2) with (Z.pos p)
        by (apply Z.div_unique with 1; lia).
      reflexivity.
    + destruct (Hb 0) as [-> ->]; [| lia |].
      { rewrite Eb, Pos2Z.inj_xO. rewrite Z.mul_comm, Z.mod_mul by lia.
        reflexivity. }
      rewrite Pos2Z.inj_xO.
      replace (2 * Z.pos p / 2) with (Z.pos p)
        by (apply Z.div_unique with 0; lia).
      reflexivity.
    + destruct (Hb 1 Eb ltac:(lia)) as [-> ->]. reflexivity.
Qed.

Lemma iter_pos_shr_of (p : positive) (N D : Z) :
  0 <= N -> 0 < D ->
  SpecFloat.iter_pos shr_1 p (shr_of N D) = shr_of N (D * 2 ^ Z.pos p).
Proof.
  intros HN. revert D.
  induction p as [p IH | p IH |]; intros D HD; cbn [SpecFloat.iter_pos].
  - pose proof (Z.pow_pos_nonneg 2 (Z.pos p) ltac:(lia) ltac:(lia)) as Hp.
    rewrite shr_1_shr_of, IH, IH by (try assumption; nia).
    f_equal. rewrite (Pos2Z.inj_xI p), Z.pow_add_r, Z.pow_mul_r by lia.
    change (2 ^ 2) with (2 * 2). change (2 ^ 1) with 2.
    rewrite Z.pow_mul_l. ring.
  - pose proof (Z.pow_pos_nonneg 2 (Z.pos p) ltac:(lia) ltac:(lia)) as Hp.
    rewrite IH, IH by (try assumption; nia).
    f_equal. rewrite (Pos2Z.inj_xO p), Z.pow_mul_r by lia.
    change (2 ^ 2) with (2 * 2). rewrite Z.pow_mul_l. ring.
  - rewrite shr_1_shr_of by assumption. f_equal.
    change (2 ^ 1) with 2. ring.
Qed.

Lemma digits2_pos_bounds (p : positive) :
  2 ^ (Z.pos (digits2_pos p) - 1) <= Z.pos p < 2 ^ Z.pos (digits2_pos p).
Proof.
  induction p as [p IH | p IH |]; cbn [digits2_pos].
  - rewrite Pos2Z.inj_succ, (Pos2Z.inj_xI p), Z.pow_succ_r by lia.
    replace (Z.succ (Z.pos (digits2_pos p)) - 1)
      with (Z.succ (Z.pos (digits2_pos p) - 1)) by lia.
    rewrite Z.pow_succ_r by lia. lia.
  - rewrite Pos2Z.inj_succ, (Pos2Z.inj_xO p), Z.pow_succ_r by lia.
    replace (Z.succ (Z.pos (digits2_pos p)) - 1)
      with (Z.succ (Z.pos (digits2_pos p) - 1)) by lia.
    rewrite Z.pow_succ_r by lia. lia.
  - simpl. lia.
Qed.

Lemma Zdigits2_bounds (m : Z) :
  0 < m -> 2 ^ (Zdigits2 m - 1) <= m < 2 ^ Zdigits2 m.
Proof.
  intros Hm. destruct m as [|p|p]; try lia. apply digits2_pos_bounds.
Qed.

Lemma Zdigits2_eq (m d : Z) :
  2 ^ (d - 1) <= m < 2 ^ d -> 0 < d -> Zdigits2 m = d.
Proof.
  intros Hm Hd.
  assert (0 < m) as Hpos
      by (pose proof (Z.pow_pos_nonneg 2 (d - 1) ltac:(lia) ltac:(lia)); lia).
  pose proof (Zdigits2_bounds m Hpos) as Hb.
  assert (0 < Zdigits2 m) as Hd' by (destruct m; simpl; lia).
  destruct (Z.lt_trichotomy (Zdigits2 m) d) as [Hlt | [Heq | Hgt]];
    [| exact Heq |].
  - pose proof (Z.pow_le_mono_r 2 (Zdigits2 m) (d - 1) ltac:(lia) ltac:(lia)).
    lia.
  - pose proof (Z.pow_le_mono_r 2 d (Zdigits2 m - 1) ltac:(lia) ltac:(lia)).
    lia.
Qed.

Lemma iter_xO_pow (p n : positive) :
  Z.pos (Pos.iter xO p n) = Z.pos p * 2 ^ Z.pos n.
Proof.
  rewrite <- Z.shiftl_mul_pow2 by lia. cbn [Z.shiftl].
  apply (Pos.iter_swap_gen _ _ Z.pos xO (Z.mul 2)). reflexivity.
Qed.

Lemma shr_m_of_loc (m : Z) (l : location) : shr_m (shr_record_of_loc m l) = m.
Proof. destruct l as [|[]]; reflexivity. Qed.

(** The rounding every binary64 operation ends with, on a value [N / D]
    in units of [2 ^ ex] whose integer part has [53 + n] digits: [n] digits
    are shifted out and the mantissa is [N / (D * 2 ^ n)] rounded to the
    nearest integer, ties to even. *)
Lemma binary_round_aux_nearest (mx ex n N D : Z) (lx : location) :
  0 <= n -> Zdigits2 mx = 53 + n ->
  shr_record_of_loc mx lx = shr_of N D -> 0 <= N -> 0 < D ->
  nearest_even N (D * 2 ^ n) < 2 ^ 53 ->
  -1074 <= ex + n <= 971 ->
  binary_round_aux prec emax false mx ex lx
  = S754_finite false (Z.to_pos (nearest_even N (D * 2 ^ n))) (ex + n).
Proof.
  intros Hn Hdig Hrec HN HD Hlt Hex.
  pose proof (Z.pow_pos_nonneg 2 n ltac:(lia) Hn) as H2n.
  assert (mx = N / D) as Hmx
      by (rewrite <- (shr_m_of_loc mx lx), Hrec; reflexivity).
  assert (0 < mx) as Hpos.
  { pose proof (Z.div_pos N D HN HD).
    destruct mx; simpl in Hdig; lia. }
  assert (shr_fexp prec emax mx ex lx = (shr_of N (D * 2 ^ n), ex + n)) as E1.
  { unfold shr_fexp. rewrite Hdig, Hrec. unfold fexp, emin, prec, emax.
    replace (Z.max (53 + n + ex - 53) (3 - 1024 - 53) - ex) with n by lia.
    unfold shr. destruct n as [|p|p]; [| | lia].
    - rewrite Z.pow_0_r, Z.mul_1_r, Z.add_0_r. reflexivity.
    - rewrite iter_pos_shr_of by assumption. reflexivity. }
  set (R := nearest_even N (D * 2 ^ n)) in *.
  assert (2 ^ 52 <= R) as HR.
  { pose proof (Zdigits2_bounds mx Hpos) as Hb. rewrite Hdig in Hb.
    replace (53 + n - 1) with (52 + n) in Hb by lia.
    rewrite Z.pow_add_r in Hb by lia.
    destruct (nearest_even_spec N (D * 2 ^ n) HN ltac:(nia)) as [_ [Hlo _]].
    fold R in Hlo.
    assert (2 ^ 52 <= N / (D * 2 ^ n)); [| lia].
    rewrite <- Z.div_div by lia. rewrite <- Hmx.
    apply Z.div_le_lower_bound; lia. }
  assert (shr_fexp prec emax R (ex + n) loc_Exact
          = (Build_shr_record R false false, ex + n)) as E2.
  { unfold shr_fexp. rewrite (Zdigits2_eq R 53) by (simpl; lia).
    unfold fexp, emin, prec, emax.
    replace (Z.max (53 + (ex + n) - 53) (3 - 1024 - 53) - (ex + n)) with 0
      by lia.
    reflexivity. }
  unfold binary_round_aux. rewrite E1.
  change (round_nearest_even (shr_m (shr_of N (D * 2 ^ n)))
            (loc_of_shr_record (shr_of N (D * 2 ^ n)))) with R.
  rewrite E2. cbn [shr_m].
  destruct R as [|r|r] eqn:ER; try lia.
  unfold prec, emax. destruct (Z.leb_spec (ex + n) (1024 - 53)); [| lia].
  reflexivity.
Qed.

Lemma shr_of_exact (m : Z) : shr_record_of_loc m loc_Exact = shr_of m 1.
Proof.
  unfold shr_of. rewrite Z.div_1_r, Z.mod_1_r. reflexivity.
Qed.

Lemma nearest_even_exact (m : Z) : nearest_even m 1 = m.
Proof.
  unfold nearest_even, shr_of. rewrite Z.div_1_r, Z.mod_1_r. reflexivity.
Qed.

(** A mantissa that has its 53 digits is left as it is. *)
Lemma binary_round_aux_exact (m : positive) (e : Z) :
  2 ^ 52 <= Z.pos m < 2 ^ 53 -> -1074 <= e <= 971 ->
  binary_round_aux prec emax false (Z.pos m) e loc_Exact
  = S754_finite false m e.
Proof.
  intros Hm He.
  rewrite (binary_round_aux_nearest (Z.pos m) e 0 (Z.pos m) 1).
  - rewrite Z.pow_0_r, Z.mul_1_r, nearest_even_exact, Z.add_0_r. reflexivity.
  - lia.
  - apply Zdigits2_eq; [exact Hm | lia].
  - apply shr_of_exact.
  - lia.
  - lia.
  - rewrite Z.pow_0_r, Z.mul_1_r, nearest_even_exact. lia.
  - lia.
Qed.

(** An integer of [d <= 53] digits is a binary64: its mantissa is the
    integer shifted to 53 digits. *)
Lemma Prim2SF_float_of_Z (z d : Z) :
  1 <= d <= 53 -> 2 ^ (d - 1) <= z < 2 ^ d ->
  Prim2SF (float_of_Z z)
  = S754_finite false (Z.to_pos (z * 2 ^ (53 - d))) (d - 53).
Proof.
  intros Hd Hz.
  assert (0 < z) as Hpos
      by (pose proof (Z.pow_pos_nonneg 2 (d - 1) ltac:(lia) ltac:(lia)); lia).
  assert (z < 2 ^ 53) as H53
      by (pose proof (Z.pow_le_mono_r 2 d 53 ltac:(lia) ltac:(lia)); lia).
  unfold float_of_Z. rewrite of_uint63_spec, Uint63.of_Z_spec.
  rewrite Z.mod_small
    by (change Uint63.wB with (2 ^ 63); change (2 ^ 53) with 9007199254740992 in H53;
        change (2 ^ 63) with 9223372036854775808; lia).
  destruct z as [|p|p]; try lia.
  unfold binary_normalize, binary_round, shl_align.
  pose proof (Zdigits2_eq (Z.pos p) d Hz ltac:(lia)) as Hdig.
  cbn [Zdigits2] in Hdig. rewrite Hdig.
  unfold fexp, emin, prec, emax.
  replace (Z.max (d + 0 - 53) (3 - 1024 - 53) - 0) with (d - 53) by lia.
  replace (Z.max (d + 0 - 53) (3 - 1024 - 53)) with (d - 53) by lia.
  destruct (d - 53) as [|q|q] eqn:Ed; try lia.
  - replace (53 - d) with 0 by lia. rewrite Z.pow_0_r, Z.mul_1_r.
    replace d with 53 in Hz by lia.
    change (SpecFloat.binary_round_aux 53 1024) with (binary_round_aux prec emax).
    rewrite binary_round_aux_exact by (simpl in Hz |- *; lia). reflexivity.
  - replace (53 - d) with (Z.pos q) by lia.
    assert (2 ^ 52 <= Z.pos p * 2 ^ Z.pos q < 2 ^ 53) as Hm.
    { assert (2 ^ 52 = 2 ^ (d - 1) * 2 ^ Z.pos q) as ->
          by (rewrite <- Z.pow_add_r by lia; f_equal; lia).
      assert (2 ^ 53 = 2 ^ d * 2 ^ Z.pos q) as ->
          by (rewrite <- Z.pow_add_r by lia; f_equal; lia).
      pose proof (Z.pow_pos_nonneg 2 (Z.pos q) ltac:(lia) ltac:(lia)). nia. }
    change (SpecFloat.binary_round_aux 53 1024) with (binary_round_aux prec emax).
    rewrite binary_round_aux_exact by (rewrite ?iter_xO_pow; lia).
    f_equal. apply Pos2Z.inj. rewrite iter_xO_pow, Z2Pos.id by lia. reflexivity.
Qed.

Lemma new_location_shr_of (N D : Z) :
  0 <= N -> 0 < D ->
  shr_record_of_loc (N / D) (new_location D (N mod D)) = shr_of N D.
Proof.
  intros HN HD. pose proof (Z.mod_pos_bound N D HD) as B.
  unfold new_location, new_location_even, new_location_odd, shr_of.
  destruct (Z.even D) eqn:Ev.
  - destruct (Z.eqb_spec (N mod D) 0) as [H0 | H0].
    + destruct (Z.leb_spec D (2 * (N mod D))); [lia | reflexivity].
    + destruct (Z.compare_spec (2 * (N mod D)) D);
        destruct (Z.leb_spec D (2 * (N mod D)));
        destruct (Z.eqb_spec (2 * (N mod D)) D); try lia; reflexivity.
  - assert (Z.odd D = true) as Hodd by (rewrite <- Z.negb_even, Ev; reflexivity).
    apply Z.odd_spec in Hodd. destruct Hodd as [c Hc].
    destruct (Z.eqb_spec (N mod D) 0) as [H0 | H0].
    + destruct (Z.leb_spec D (2 * (N mod D))); [lia | reflexivity].
    + destruct (Z.compare_spec (2 * (N mod D) + 1) D);
        destruct (Z.leb_spec D (2 * (N mod D)));
        destruct (Z.eqb_spec (2 * (N mod D)) D); try lia; reflexivity.
Qed.

Lemma div_eucl_div_mod (a b : Z) : Z.div_eucl a b = (a / b, a mod b).
Proof.
  unfold Z.div, Z.modulo. destruct (Z.div_eucl a b). reflexivity.
Qed.

Lemma SFdiv_nearest_cases (mx my : positive) (ex ey n : Z) :
  2 ^ 52 <= Z.pos mx < 2 ^ 53 -> 2 ^ 52 <= Z.pos my < 2 ^ 53 ->
  -500 <= ex <= 400 -> -500 <= ey <= 400 ->
  (n = 0 /\ Z.pos mx < Z.pos my) \/ (n = 1 /\ Z.pos my <= Z.pos mx) ->
  2 ^ 52 <= nearest_even (Z.pos mx * 2 ^ 53) (Z.pos my * 2 ^ n) < 2 ^ 53
  /\ SFdiv prec emax (S754_finite false mx ex) (S754_finite false my ey)
     = S754_finite false
         (Z.to_pos (nearest_even (Z.pos mx * 2 ^ 53) (Z.pos my * 2 ^ n)))
         (ex - ey - 53 + n).
Proof.
  intros Hx Hy Hex Hey Hcase.
  assert (0 <= n <= 1) as Hn by lia.
  assert (2 ^ n = 1 + n) as H2n by (destruct Hcase as [[-> _] | [-> _]]; reflexivity).
  change (2 ^ 52) with 4503599627370496 in *.
  change (2 ^ 53) with 9007199254740992 in *.
  remember (Z.pos mx * 9007199254740992) as N eqn:EN.
  remember (Z.pos my) as D eqn:ED.
  remember (nearest_even N (D * 2 ^ n)) as q eqn:Eq.
  assert (0 <= N) as HN by lia.
  assert (0 < D) as HD by lia.
  pose proof (Z.div_mod N D ltac:(lia)) as Ediv.
  pose proof (Z.mod_pos_bound N D HD) as Bmod.
  assert (4503599627370496 * (1 + n) <= N / D < 9007199254740992 * (1 + n))
    as Hq.
  { split; [apply Z.div_le_lower_bound | apply Z.div_lt_upper_bound]; lia. }
  destruct (nearest_even_spec N (D * 2 ^ n) HN ltac:(lia)) as [Hnear [Hlo Hhi]].
  rewrite <- Eq in Hnear, Hlo, Hhi.
  assert (4503599627370496 <= N / (D * 2 ^ n)) as Hfloor.
  { rewrite <- Z.div_div by lia. apply Z.div_le_lower_bound; lia. }
  assert (q < 9007199254740992) as Hcarry.
  { destruct (Z.lt_ge_cases q 9007199254740992) as [Hlt | Hge]; [exact Hlt |].
    exfalso. rewrite H2n in Hnear.
    assert (q * (D * (1 + n)) - N >= 9007199254740992 * (D * (1 + n)) - N)
      by nia.
    destruct Hcase as [[-> Hc] | [-> Hc]]; lia. }
  split; [lia |].
  unfold SFdiv, SFdiv_core_binary.
  rewrite (Zdigits2_eq (Z.pos mx) 53), (Zdigits2_eq (Z.pos my) 53)
    by (simpl; lia).
  unfold fexp, emin, prec, emax.
  replace (Z.min (Z.max (53 + ex - (53 + ey) - 53) (3 - 1024 - 53)) (ex - ey))
    with (ex - ey - 53) by lia.
  replace (ex - ey - (ex - ey - 53)) with 53 by lia.
  rewrite Z.shiftl_mul_pow2 by lia.
  change (2 ^ 53) with 9007199254740992. rewrite <- EN, <- ED.
  rewrite div_eucl_div_mod. cbn [xorb].
  change (SpecFloat.binary_round_aux 53 1024) with (binary_round_aux prec emax).
  rewrite (binary_round_aux_nearest (N / D) (ex - ey - 53) n N D).
  - rewrite <- Eq. reflexivity.
  - lia.
  - apply Zdigits2_eq; [| lia].
    replace (53 + n - 1) with (52 + n) by lia.
    rewrite !Z.pow_add_r, H2n by lia.
    change (2 ^ 52) with 4503599627370496.
    change (2 ^ 53) with 9007199254740992. lia.
  - apply new_location_shr_of; assumption.
  - exact HN.
  - exact HD.
  - change (2 ^ 53) with 9007199254740992. rewrite <- Eq. exact Hcarry.
  - lia.
Qed.

Lemma Prim2SF_100 :
  Prim2SF (float_of_Z (10 ^ 2)) = S754_finite false 7036874417766400 (-46).
Proof. vm_compute. reflexivity. Qed.

Lemma Prim2SF_2_52 :
  Prim2SF (float_of_Z (2 ^ 52)) = S754_finite false 4503599627370496 0.
Proof. vm_compute. reflexivity. Qed.

(** The product of a normal binary64 number and 100. *)
Lemma SFmul_100 (mx : positive) (ex n : Z) :
  2 ^ 52 <= Z.pos mx < 2 ^ 53 -> -500 <= ex <= 400 ->
  (n = 52 /\ 25 * Z.pos mx < 2 ^ 57) \/ (n = 53 /\ 2 ^ 57 <= 25 * Z.pos mx) ->
  2 ^ 52 <= nearest_even (Z.pos mx * 7036874417766400) (2 ^ n) < 2 ^ 53
  /\ SFmul prec emax (S754_finite false mx ex)
       (S754_finite false 7036874417766400 (-46))
     = S754_finite false
         (Z.to_pos (nearest_even (Z.pos mx * 7036874417766400) (2 ^ n)))
         (ex - 46 + n).
Proof.
  intros Hx Hex Hcase.
  assert (2 ^ n = 4503599627370496 * (n - 51)) as H2n
      by (destruct Hcase as [[-> _] | [-> _]]; reflexivity).
  assert (52 <= n <= 53) as Hn by lia.
  change (2 ^ 52) with 4503599627370496 in *.
  change (2 ^ 53) with 9007199254740992 in *.
  change (2 ^ 57) with 144115188075855872 in *.
  remember (Z.pos mx * 7036874417766400) as N eqn:EN.
  remember (nearest_even N (2 ^ n)) as q eqn:Eq.
  assert (0 <= N) as HN by lia.
  destruct (nearest_even_spec N (2 ^ n) HN ltac:(lia)) as [Hnear [Hlo Hhi]].
  rewrite <- Eq in Hnear, Hlo, Hhi.
  assert (4503599627370496 * 2 ^ n <= N < 9007199254740992 * 2 ^ n) as HNb
      by (rewrite H2n; lia).
  assert (4503599627370496 <= N / 2 ^ n) as Hfloor
      by (apply Z.div_le_lower_bound; lia).
  assert (q < 9007199254740992) as Hcarry.
  { destruct (Z.lt_ge_cases q 9007199254740992) as [Hlt | Hge]; [exact Hlt |].
    exfalso. rewrite H2n in Hnear.
    assert (q * (4503599627370496 * (n - 51)) - N
            >= 9007199254740992 * (4503599627370496 * (n - 51)) - N) by nia.
    destruct Hcase as [[-> Hc] | [-> Hc]]; lia. }
  split; [lia |].
  unfold SFmul. cbn [xorb]. rewrite Pos2Z.inj_mul, <- EN.
  rewrite (binary_round_aux_nearest N (ex + -46) (n - 53 + 53) N 1).
  - replace (n - 53 + 53) with n by lia. rewrite Z.mul_1_l, <- Eq.
    f_equal; lia.
  - lia.
  - apply Zdigits2_eq; [| lia].
    replace (53 + (n - 53 + 53) - 1) with (52 + n) by lia.
    replace (53 + (n - 53 + 53)) with (53 + n) by lia.
    rewrite !Z.pow_add_r by lia.
    change (2 ^ 52) with 4503599627370496.
    change (2 ^ 53) with 9007199254740992. lia.
  - apply shr_of_exact.
  - exact HN.
  - lia.
  - replace (n - 53 + 53) with n by lia. rewrite Z.mul_1_l, <- Eq.
    change (2 ^ 53) with 9007199254740992. exact Hcarry.
  - lia.
Qed.

Lemma nearest_even_add_even (N D a : Z) :
  0 < D -> nearest_even (N + 2 * a * D) D = nearest_even N D + 2 * a.
Proof.
  intros HD. unfold nearest_even, shr_of.
  rewrite Z.div_add, Z.mod_add by lia.
  assert (Z.even (N / D + 2 * a) = Z.even (N / D)) as Hev
      by (rewrite Z.even_add_mul_2; reflexivity).
  destruct (D <=? 2 * (N mod D));
    destruct (negb (N mod D =? 0) && negb (2 * (N mod D) =? D));
    cbn [loc_of_shr_record round_nearest_even]; rewrite ?Hev;
    try destruct (Z.even (N / D)); lia.
Qed.

(** Adding 2^52 to a normal binary64 number below 2^51 rounds it to the
    nearest integer, ties to even. *)
Lemma SFadd_2_52 (mx : positive) (ex : Z) :
  2 ^ 52 <= Z.pos mx < 2 ^ 53 -> -500 <= ex <= -2 ->
  0 <= nearest_even (Z.pos mx) (2 ^ (- ex)) < 2 ^ 52
  /\ SFadd prec emax (S754_finite false mx ex)
       (S754_finite false 4503599627370496 0)
     = S754_finite false
         (Z.to_pos (2 ^ 52 + nearest_even (Z.pos mx) (2 ^ (- ex)))) 0.
Proof.
  intros Hx Hex.
  destruct ex as [|p|p]; try lia.
  change (- Z.neg p) with (Z.pos p).
  pose proof (Z.pow_pos_nonneg 2 (Z.pos p) ltac:(lia) ltac:(lia)) as H2p.
  assert (4 <= 2 ^ Z.pos p) as H4
      by (change 4 with (2 ^ 2); apply Z.pow_le_mono_r; lia).
  change (2 ^ 52) with 4503599627370496 in *.
  change (2 ^ 53) with 9007199254740992 in *.
  remember (nearest_even (Z.pos mx) (2 ^ Z.pos p)) as k eqn:Ek.
  destruct (nearest_even_spec (Z.pos mx) (2 ^ Z.pos p) ltac:(lia) H2p)
    as [Hnear [Hlo Hhi]].
  rewrite <- Ek in Hnear, Hlo, Hhi.
  pose proof (Z.div_pos (Z.pos mx) (2 ^ Z.pos p) ltac:(lia) H2p) as Hq0.
  assert (Z.pos mx / 2 ^ Z.pos p < 2251799813685248) as Hq1
      by (apply Z.div_lt_upper_bound; lia).
  split; [lia |].
  unfold SFadd. replace (Z.min (Z.neg p) 0) with (Z.neg p) by lia.
  unfold shl_align at 1 2. rewrite Z.sub_diag, Z.sub_0_r.
  cbn [fst cond_Zopp]. rewrite <- Pos2Z.inj_add.
  unfold binary_normalize, binary_round, shl_align.
  assert (Z.pos (mx + Pos.iter xO 4503599627370496%positive p)
          = Z.pos mx + 2 * 2251799813685248 * 2 ^ Z.pos p) as ES
      by (rewrite Pos2Z.inj_add, iter_xO_pow; lia).
  assert (Z.pos (digits2_pos (mx + Pos.iter xO 4503599627370496%positive p))
          = 53 + Z.pos p) as Hdig.
  { apply (Zdigits2_eq (Z.pos _)); [| lia]. rewrite ES.
    replace (53 + Z.pos p - 1) with (52 + Z.pos p) by lia.
    rewrite !Z.pow_add_r by lia.
    change (2 ^ 52) with 4503599627370496.
    change (2 ^ 53) with 9007199254740992. lia. }
  rewrite Hdig. unfold fexp, emin, prec, emax.
  replace (Z.max (53 + Z.pos p + Z.neg p - 53) (3 - 1024 - 53) - Z.neg p)
    with (Z.pos p) by lia.
  change (SpecFloat.binary_round_aux 53 1024) with (binary_round_aux prec emax).
  rewrite (binary_round_aux_nearest _ (Z.neg p) (Z.pos p)
             (Z.pos mx + 2 * 2251799813685248 * 2 ^ Z.pos p) 1).
  - rewrite Z.mul_1_l, nearest_even_add_even, <- Ek by exact H2p.
    f_equal; [f_equal; lia | lia].
  - lia.
  - cbn [Zdigits2]. exact Hdig.
  - rewrite ES. apply shr_of_exact.
  - lia.
  - lia.
  - rewrite Z.mul_1_l, nearest_even_add_even, <- Ek by exact H2p.
    change (2 ^ 53) with 9007199254740992. lia.
  - lia.
Qed.

(** Taking 2^52 off again is exact. *)
Lemma SFsub_2_52 (k : Z) :
  0 <= k < 2 ^ 52 ->
  SFsub prec emax (S754_finite false (Z.to_pos (2 ^ 52 + k)) 0)
    (S754_finite false 4503599627370496 0)
  = binary_normalize prec emax k 0 false.
Proof.
  intros Hk. change (2 ^ 52) with 4503599627370496 in *.
  unfold SFsub. change (Z.min 0 0) with 0. unfold shl_align.
  change (0 - 0) with 0. cbn [fst cond_Zopp].
  f_equal. rewrite Z2Pos.id by lia. lia.
Qed.

Lemma Prim2SF_float_of_Z_normalize (k : Z) :
  0 <= k < 2 ^ 63 ->
  Prim2SF (float_of_Z k) = binary_normalize prec emax k 0 false.
Proof.
  intros Hk. unfold float_of_Z. rewrite of_uint63_spec, Uint63.of_Z_spec.
  rewrite Z.mod_small by exact Hk. reflexivity.
Qed.

(** The three roundings of [rint (i / u * 100)] together: the quotient
    is rounded at 2^-g, the product at H * 2^-g * 4, and the last rounding
    is to an integer.  The first two are too fine to move the last one
    across a point halfway between two integers, unless [100 * i / u] is
    such a point. *)
Lemma nearest_chain (i u Q P k G H M : Z) :
  0 < u < 2 ^ 15 -> 0 < H <= 32 -> 0 < M -> G = 4 * H * M -> 2 ^ 45 <= G ->
  2 * Z.abs (Q * u - i * G) <= u ->
  2 * Z.abs (P * H - 25 * Q) <= H ->
  2 * Z.abs (k * M - P) <= M ->
  2 * Z.abs (k * u - 100 * i) <= u.
Proof.
  intros Hu HH HM HG HGb H1 H2 H3.
  change (2 ^ 15) with 32768 in Hu. change (2 ^ 45) with 35184372088832 in HGb.
  assert ((k * u - 100 * i) * G
          = 4 * H * u * (k * M - P) + 4 * u * (P * H - 25 * Q)
            + 100 * (Q * u - i * G)) as E by (rewrite HG; ring).
  assert (2 * Z.abs (4 * H * u * (k * M - P)) <= u * G) as B1.
  { rewrite Z.abs_mul, (Z.abs_eq (4 * H * u)) by nia. rewrite HG. nia. }
  assert (2 * Z.abs (4 * u * (P * H - 25 * Q)) <= 4 * u * H) as B2.
  { rewrite Z.abs_mul, (Z.abs_eq (4 * u)) by nia. nia. }
  assert (2 * Z.abs (100 * (Q * u - i * G)) <= 100 * u) as B3.
  { rewrite Z.abs_mul, (Z.abs_eq 100) by lia. lia. }
  assert (2 * Z.abs ((k * u - 100 * i) * G) <= u * G + 4 * u * H + 100 * u)
    as B by (rewrite E; lia).
  rewrite Z.abs_mul, (Z.abs_eq G) in B by lia.
  assert (4 * u * H + 100 * u < G) as Hsmall by nia.
  assert (2 * Z.abs (k * u - 100 * i) < u + 1); [nia | lia].
Qed.

Lemma scaled_to_53_digits (z d : Z) :
  1 <= d <= 53 -> 2 ^ (d - 1) <= z < 2 ^ d ->
  2 ^ 52 <= z * 2 ^ (53 - d) < 2 ^ 53.
Proof.
  intros Hd Hz.
  assert (2 ^ 52 = 2 ^ (d - 1) * 2 ^ (53 - d)) as ->
      by (rewrite <- Z.pow_add_r by lia; f_equal; lia).
  assert (2 ^ 53 = 2 ^ d * 2 ^ (53 - d)) as ->
      by (rewrite <- Z.pow_add_r by lia; f_equal; lia).
  pose proof (Z.pow_pos_nonneg 2 (53 - d) ltac:(lia) ltac:(lia)). nia.
Qed.

Lemma Zdigits2_range (z lo hi : Z) :
  0 <= lo -> lo < hi -> 2 ^ lo <= z < 2 ^ hi -> lo < Zdigits2 z <= hi.
Proof.
  intros Hlo Hhi Hz.
  assert (0 < z) as Hpos
      by (pose proof (Z.pow_pos_nonneg 2 lo ltac:(lia) ltac:(lia)); lia).
  pose proof (Zdigits2_bounds z Hpos) as Hb.
  assert (0 < Zdigits2 z) as Hd by (destruct z; simpl; lia).
  split.
  - destruct (Z.lt_ge_cases lo (Zdigits2 z)) as [H | H]; [exact H |].
    pose proof (Z.pow_le_mono_r 2 (Zdigits2 z) lo ltac:(lia) ltac:(lia)). lia.
  - destruct (Z.le_gt_cases (Zdigits2 z) hi) as [H | H]; [exact H |].
    pose proof (Z.pow_le_mono_r 2 hi (Zdigits2 z - 1) ltac:(lia) ltac:(lia)).
    lia.
Qed.


Lemma abs_scaled (x c h : Z) :
  0 < c -> 2 * Z.abs (x * c) <= h * c -> 2 * Z.abs x <= h.
Proof.
  intros Hc H. rewrite Z.abs_mul, (Z.abs_eq c) in H by lia. nia.
Qed.

(** [rint (i / u * 100)], computed in binary64 as the program does, is an
    integer nearest to the rational [100 * i / u]. *)
Lemma rint_quotient (i u : Z) :
  0 < i < 2 ^ 16 -> 2 ^ 8 <= u < 2 ^ 15 ->
  exists k : Z,
    0 <= k < 2 ^ 52
    /\ rint (PrimFloat.mul (true_divide i u) (float_of_Z (10 ^ 2)))
       = float_of_Z k
    /\ 2 * Z.abs (k * u - 100 * i) <= u.
Proof.
  intros Hi Hu.
  (* the two operands *)
  remember (Zdigits2 i) as di eqn:Edi. remember (Zdigits2 u) as du eqn:Edu.
  assert (0 < di <= 16) as Hdi
      by (rewrite Edi; apply Zdigits2_range; [lia | lia |];
          change (2 ^ 0) with 1; lia).
  assert (8 < du <= 15) as Hdu
      by (rewrite Edu; apply Zdigits2_range; [lia | lia | exact Hu]).
  assert (2 ^ (di - 1) <= i < 2 ^ di) as Bi
      by (rewrite Edi; apply Zdigits2_bounds; lia).
  assert (2 ^ (du - 1) <= u < 2 ^ du) as Bu
      by (rewrite Edu; apply Zdigits2_bounds;
          change (2 ^ 8) with 256 in Hu; lia).
  pose proof (Prim2SF_float_of_Z i di ltac:(lia) Bi) as Fi.
  pose proof (Prim2SF_float_of_Z u du ltac:(lia) Bu) as Fu.
  pose proof (scaled_to_53_digits i di ltac:(lia) Bi) as Mi.
  pose proof (scaled_to_53_digits u du ltac:(lia) Bu) as Mu.
  remember (Z.to_pos (i * 2 ^ (53 - di))) as mi eqn:Emi.
  remember (Z.to_pos (u * 2 ^ (53 - du))) as mu eqn:Emu.
  assert (Z.pos mi = i * 2 ^ (53 - di)) as Pmi
      by (rewrite Emi, Z2Pos.id; [reflexivity | simpl in Mi; lia]).
  assert (Z.pos mu = u * 2 ^ (53 - du)) as Pmu
      by (rewrite Emu, Z2Pos.id; [reflexivity | simpl in Mu; lia]).
  rewrite <- Pmi in Mi. rewrite <- Pmu in Mu.
  (* the quotient *)
  assert (exists nq, (nq = 0 /\ Z.pos mi < Z.pos mu)
                     \/ (nq = 1 /\ Z.pos mu <= Z.pos mi)) as [nq Hnq]
      by (destruct (Z.lt_ge_cases (Z.pos mi) (Z.pos mu));
          [exists 0 | exists 1]; lia).
  destruct (SFdiv_nearest_cases mi mu (di - 53) (du - 53) nq Mi Mu
              ltac:(lia) ltac:(lia) Hnq) as [BQ Fq].
  remember (nearest_even (Z.pos mi * 2 ^ 53) (Z.pos mu * 2 ^ nq)) as Q eqn:EQ.
  remember (di - 53 - (du - 53) - 53 + nq) as eq eqn:Eeq.
  assert (Z.pos (Z.to_pos Q) = Q) as PQ
      by (apply Z2Pos.id; simpl in BQ; lia).
  (* times 100 *)
  assert (exists n2, (n2 = 52 /\ 25 * Z.pos (Z.to_pos Q) < 2 ^ 57)
                     \/ (n2 = 53 /\ 2 ^ 57 <= 25 * Z.pos (Z.to_pos Q)))
    as [n2 Hn2]
      by (destruct (Z.lt_ge_cases (25 * Z.pos (Z.to_pos Q)) (2 ^ 57));
          [exists 52 | exists 53]; lia).
  destruct (SFmul_100 (Z.to_pos Q) eq n2 ltac:(rewrite PQ; exact BQ)
              ltac:(lia) Hn2) as [BP Fp].
  rewrite PQ in BP, Fp.
  remember (nearest_even (Q * 7036874417766400) (2 ^ n2)) as P eqn:EP.
  remember (eq - 46 + n2) as e2 eqn:Ee2.
  assert (Z.pos (Z.to_pos P) = P) as PP
      by (apply Z2Pos.id; simpl in BP; lia).
  (* plus 2^52, minus 2^52 *)
  destruct (SFadd_2_52 (Z.to_pos P) e2 ltac:(rewrite PP; exact BP)
              ltac:(lia)) as [Bk Fk].
  rewrite PP in Bk, Fk.
  remember (nearest_even P (2 ^ (- e2))) as k eqn:Ek.
  exists k. split; [exact Bk |]. split.
  - apply Prim2SF_inj. unfold rint, true_divide.
    rewrite sub_spec, add_spec, mul_spec, div_spec, Fi, Fu.
    rewrite Prim2SF_100, Prim2SF_2_52.
    unfold SF64sub, SF64add, SF64mul, SF64div.
    rewrite Fq, Fp, Fk, SFsub_2_52 by exact Bk.
    symmetry. apply Prim2SF_float_of_Z_normalize.
    change (2 ^ 52) with 4503599627370496 in Bk.
    change (2 ^ 63) with 9223372036854775808. lia.
  - (* the three roundings *)
    pose proof (Z.pow_pos_nonneg 2 (53 - du + nq) ltac:(lia) ltac:(lia)) as HA.
    assert (Z.pos mu * 2 ^ nq = u * 2 ^ (53 - du + nq)) as EA
        by (rewrite Pmu, Z.pow_add_r by lia; ring).
    assert (Z.pos mi * 2 ^ 53
            = i * (2 ^ (53 - du + nq) * 2 ^ (53 + du - di - nq))) as EB
        by (rewrite Pmi, <- Z.pow_add_r, <- Z.mul_assoc, <- Z.pow_add_r by lia;
            do 2 f_equal; lia).
    destruct (nearest_even_spec (Z.pos mi * 2 ^ 53) (Z.pos mu * 2 ^ nq)
                ltac:(lia) ltac:(rewrite EA; nia)) as [I1 _].
    rewrite <- EQ, EA, EB in I1.
    remember (2 ^ (53 - du + nq)) as A eqn:EAA.
    remember (2 ^ (53 + du - di - nq)) as G eqn:EG.
    assert (2 * Z.abs (Q * u - i * G) <= u) as I1'.
    { apply (abs_scaled _ A); [exact HA |].
      replace ((Q * u - i * G) * A) with (Q * (u * A) - i * (A * G)) by ring.
      exact I1. }
    pose proof (Z.pow_pos_nonneg 2 n2 ltac:(lia) ltac:(lia)) as H2n2.
    destruct (nearest_even_spec (Q * 7036874417766400) (2 ^ n2)
                ltac:(simpl in BQ; lia) H2n2) as [I2 _].
    rewrite <- EP in I2.
    remember (2 ^ (n2 - 48)) as H eqn:EH.
    assert (2 ^ n2 = 281474976710656 * H) as En2
        by (rewrite EH; change 281474976710656 with (2 ^ 48);
            rewrite <- Z.pow_add_r by lia; f_equal; lia).
    assert (0 < H <= 32) as HH
        by (rewrite EH; destruct Hn2 as [[-> _] | [-> _]]; simpl; lia).
    assert (2 * Z.abs (P * H - 25 * Q) <= H) as I2'.
    { apply (abs_scaled _ 281474976710656); [reflexivity |].
      replace ((P * H - 25 * Q) * 281474976710656)
        with (P * (281474976710656 * H) - Q * 7036874417766400) by ring.
      rewrite (Z.mul_comm H). rewrite <- En2. exact I2. }
    pose proof (Z.pow_pos_nonneg 2 (- e2) ltac:(lia) ltac:(lia)) as HM.
    destruct (nearest_even_spec P (2 ^ (- e2)) ltac:(simpl in BP; lia) HM)
      as [I3 _].
    rewrite <- Ek in I3.
    apply (nearest_chain i u Q P k G H (2 ^ (- e2))).
    + change (2 ^ 8) with 256 in Hu. lia.
    + exact HH.
    + exact HM.
    + rewrite EG, EH.
      replace (53 + du - di - nq) with (2 + (n2 - 48) + - e2)
        by (clear - Eeq Ee2; lia).
      rewrite !Z.pow_add_r by (clear - Eeq Ee2 Hdi Hdu Hnq Hn2; lia).
      reflexivity.
    + rewrite EG. apply Z.pow_le_mono_r; clear - Hdi Hdu Hnq; lia.
    + exact I1'.
    + exact I2'.
    + exact I3.
Qed.

(** [freq] as a number: the binary64 pipeline [round (i / u, 2)] of the
    program returns the binary64 quotient [c / 100] for an integer [c]
    nearest to [100 * i / u]. *)
Lemma round_decimals_quotient (i u : Z) :
  0 < i < 2 ^ 16 -> 2 ^ 8 <= u < 2 ^ 15 ->
  exists c : Z,
    0 <= c
    /\ round_decimals 2 (true_divide i u)
       = PrimFloat.div (float_of_Z c) (float_of_Z 100)
    /\ 2 * Z.abs (c * u - 100 * i) <= u.
Proof.
  intros Hi Hu. destruct (rint_quotient i u Hi Hu) as (c & Hc & Hrint & Hnear).
  exists c. split; [lia |]. split; [| exact Hnear].
  unfold round_decimals. cbv zeta. rewrite Hrint. reflexivity.
Qed.

(** An integer strictly nearer than one half to [100 * i / u] is the
    only one within one half. *)
Lemma nearest_unique (i u c c' : Z) :
  0 < u ->
  2 * Z.abs (c * u - 100 * i) <= u ->
  2 * Z.abs (c' * u - 100 * i) < u ->
  c' = c.
Proof.
  intros Hu Hc Hc'.
  assert (Z.abs ((c' - c) * u) < u) as H
      by (replace ((c' - c) * u) with ((c' * u - 100 * i) - (c * u - 100 * i))
            by ring; lia).
  rewrite Z.abs_mul, (Z.abs_eq u) in H by lia. nia.
Qed.

(* ------------------------------------------------------------------ *)
(** ** The generated table                                              *)
(* ------------------------------------------------------------------ *)

Section Table.
Context {bitgen : Type}.
Variable seed_bitgen : Z -> bitgen.
Variable bounded : Z -> bitgen -> Z * bitgen.

(** For a seed numpy accepts and a range pandas can build the call
    returns, and the frame it returns does not depend on the heap it runs
    in. *)
Lemma make_demo_df_total (n seed : Z) :
  0 <= seed -> 0 <= n <= 87029 ->
  exists df, forall st : gmap nat bitgen,
    exists st', make_demo_df seed_bitgen bounded n seed st = Ok (df, st').
Proof.
  intros Hseed Hn. eexists. intros st. eexists.
  apply (make_demo_df_run seed_bitgen bounded n seed st Hseed Hn).
Qed.

(** Whatever the heap, the call returns the same frame or raises the same
    exception. *)
Lemma make_demo_df_outcome (n seed : Z) (st1 st2 : gmap nat bitgen) :
  outcome (make_demo_df seed_bitgen bounded n seed st1)
  = outcome (make_demo_df seed_bitgen bounded n seed st2).
Proof.
  destruct (make_demo_df_cases n seed) as [Hs | [[Hs Hn] | [Hs Hn]]].
  - rewrite !make_demo_df_bad_seed by exact Hs. reflexivity.
  - rewrite !make_demo_df_bad_range by assumption. reflexivity.
  - rewrite (make_demo_df_run seed_bitgen bounded n seed st1 Hs Hn).
    rewrite (make_demo_df_run seed_bitgen bounded n seed st2 Hs Hn).
    reflexivity.
Qed.

(** A call that returns had a seed and a range the libraries accept, and
    returns a frame of [n] rows of consecutive days. *)
Lemma make_demo_df_shape (n seed : Z) (st st' : gmap nat bitgen)
    (df : DataFrame) :
  make_demo_df seed_bitgen bounded n seed st = Ok (df, st') ->
  0 <= seed /\ 0 <= n <= 87029
  /\ has_rows (Z.to_nat n) df
  /\ date df = day_range start_date n
  /\ freq df = series_round 2 (series_div (impressions df) (uniques df)).
Proof.
  intros H. destruct (make_demo_df_cases n seed) as [Hs | [[Hs Hn] | [Hs Hn]]].
  - rewrite make_demo_df_bad_seed in H by exact Hs. discriminate.
  - rewrite make_demo_df_bad_range in H by assumption. discriminate.
  - rewrite (make_demo_df_run seed_bitgen bounded n seed st Hs Hn) in H.
    injection H as <- _. split; [exact Hs |]. split; [exact Hn |].
    split; [| split; reflexivity].
    unfold has_rows. simpl.
    rewrite series_div_length
      by (rewrite !length_map, !draws_length; reflexivity).
    rewrite day_range_length, !length_map, !draws_length. repeat split.
Qed.

(** [load_data()] returns a frame of 200 rows. *)
Lemma load_data_rows (st : gmap nat bitgen) :
  exists df st',
    load_data seed_bitgen bounded st = Ok (df, st') /\ has_rows 200 df.
Proof.
  unfold load_data.
  destruct (make_demo_df_total 200 7 ltac:(lia) ltac:(lia)) as [df Hdf].
  destruct (Hdf st) as [st' Hrun]. exists df, st'. split; [exact Hrun |].
  apply make_demo_df_shape in Hrun. destruct Hrun as (_ & _ & Hrows & _).
  exact Hrows.
Qed.

(** C1, as the code has it: the generator has no guard on [n].  A negative
    [n] makes the call fail, in [default_rng] when the seed is negative too
    and otherwise in [pd.date_range]; [n = 0] is accepted, and with a seed
    numpy accepts the call returns the table with no rows. *)
Theorem make_demo_df_below_one (n seed : Z) (st : gmap nat bitgen) :
  n < 1 ->
  (n < 0 ->
   make_demo_df seed_bitgen bounded n seed st
   = Raise (if seed <? 0 then ValueError else DateRangeError))
  /\ (n = 0 -> 0 <= seed ->
      make_demo_df seed_bitgen bounded n seed st
      = Ok (mkDataFrame [] [] [] [] [] [],
            <[fresh (dom st) := seed_bitgen seed]> st)).
Proof.
  intros Hn. split.
  - intros Hneg. destruct (Z.ltb_spec seed 0) as [Hs | Hs].
    + apply make_demo_df_bad_seed. exact Hs.
    + apply make_demo_df_bad_range; [exact Hs | left; exact Hneg].
  - intros -> Hs.
    rewrite (make_demo_df_run seed_bitgen bounded 0 seed st) by lia.
    reflexivity.
Qed.

(** C2: two invocations with the same [(n, seed)], [n >= 1], in whatever
    heaps they run (in particular the second in the heap the first has
    left), have the same outcome; when the seed and the range are ones the
    libraries accept, both return, and return the same frame of [n] rows:
    every field of every row is equal. *)
Theorem make_demo_df_deterministic (n seed : Z) (st1 st2 : gmap nat bitgen) :
  1 <= n ->
  outcome (make_demo_df seed_bitgen bounded n seed st1)
  = outcome (make_demo_df seed_bitgen bounded n seed st2)
  /\ (0 <= seed -> n <= 87029 ->
      exists df1 df2 st1' st2',
        make_demo_df seed_bitgen bounded n seed st1 = Ok (df1, st1')
        /\ make_demo_df seed_bitgen bounded n seed st2 = Ok (df2, st2')
        /\ has_rows (Z.to_nat n) df1
        /\ df1 = df2
        /\ forall k, iloc df1 k = iloc df2 k).
Proof.
  intros Hn. split; [apply make_demo_df_outcome |]. intros Hs Hb.
  destruct (make_demo_df_total n seed Hs ltac:(lia)) as [df Hdf].
  destruct (Hdf st1) as [st1' H1]. destruct (Hdf st2) as [st2' H2].
  exists df, df, st1', st2'.
  destruct (make_demo_df_shape n seed st1 st1' df H1) as (_ & _ & Hrows & _).
  split; [exact H1 |]. split; [exact H2 |]. split; [exact Hrows |].
  split; reflexivity.
Qed.

(** C3, as the code has it: for a seed numpy accepts ([seed >= 0]) and
    [1 <= n <= 87029] (the days from 2024-01-01 that have a timestamp) the
    frame has exactly [n] rows; row [k] is dated [k] days after 2024-01-01,
    so the dates start at 2024-01-01 and each row is one day after, and
    strictly after, the row before it. *)
Theorem make_demo_df_dates (n seed : Z) (st : gmap nat bitgen) :
  1 <= n <= 87029 -> 0 <= seed ->
  exists df st',
    make_demo_df seed_bitgen bounded n seed st = Ok (df, st')
    /\ has_rows (Z.to_nat n) df
    /\ Z.of_nat (nrows df) = n
    /\ civil_from_days start_date = (2024, 1, 1)
    /\ (exists r, iloc df 0 = Some r /\ r_date r = start_date)
    /\ (forall k, (k < Z.to_nat n)%nat ->
          exists r, iloc df k = Some r /\ r_date r = start_date + Z.of_nat k)
    /\ (forall k r r', iloc df k = Some r -> iloc df (S k) = Some r' ->
          r_date r' = r_date r + 1 /\ r_date r < r_date r').
Proof.
  intros Hn Hs.
  destruct (make_demo_df_total n seed Hs ltac:(lia)) as [df Hdf].
  destruct (Hdf st) as [st' Hrun]. exists df, st'.
  destruct (make_demo_df_shape n seed st st' df Hrun)
    as (_ & _ & Hrows & Hdate & _).
  assert (forall k r, iloc df k = Some r -> r_date r = start_date + Z.of_nat k)
    as Hk.
  { intros k r Hr. pose proof (iloc_in_rows _ _ _ _ Hrows Hr) as Hlt.
    apply iloc_fields in Hr. destruct Hr as (Hd & _).
    rewrite Hdate, day_range_nth in Hd by exact Hlt. congruence. }
  assert (forall k, (k < Z.to_nat n)%nat ->
            exists r, iloc df k = Some r /\ r_date r = start_date + Z.of_nat k)
    as Hall.
  { intros k Hlt. destruct (iloc_has_rows _ df k Hrows Hlt) as [r Hr].
    exists r. split; [exact Hr | apply Hk, Hr]. }
  split; [exact Hrun |]. split; [exact Hrows |].
  split; [unfold nrows; destruct Hrows as (-> & _); lia |].
  split; [reflexivity |].
  split.
  - destruct (Hall 0%nat ltac:(lia)) as [r [Hr Hd]]. exists r.
    split; [exact Hr | rewrite Hd; simpl; lia].
  - split; [exact Hall |].
    intros k r r' Hr Hr'. rewrite (Hk _ _ Hr), (Hk _ _ Hr'). lia.
Qed.

(** C7: for every frame the generator returns with [n >= 1], the forecast
    frame has one row per week of the weekly table, in the same order; the
    forecast of the first week is that week's own sum; and at every
    position [i >= 3] of the weekly table (the 4th week onward) the
    forecast is the mean of the four weekly sums at positions [i-3 .. i],
    rounded to the nearest integer.  With a seed and a range the libraries
    accept, the generator returns. *)
Theorem weekly_forecast_boundaries (n seed : Z) (st : gmap nat bitgen) :
  1 <= n ->
  (forall df st',
     make_demo_df seed_bitgen bounded n seed st = Ok (df, st') ->
     List.length (weekly_forecast df) = List.length (weekly df)
     /\ map fst (weekly_forecast df) = weekly df
     /\ (exists w s, nth_error (weekly df) 0 = Some (w, s)
                     /\ nth_error (weekly_forecast df) 0 = Some (w, s, Some s))
     /\ (forall i w s, (3 <= i)%nat ->
           nth_error (weekly df) i = Some (w, s) ->
           exists a b c,
             nth_error (map snd (weekly df)) (i - 3) = Some a
             /\ nth_error (map snd (weekly df)) (i - 2) = Some b
             /\ nth_error (map snd (weekly df)) (i - 1) = Some c
             /\ nth_error (weekly_forecast df) i
                = Some (w, s, Some (round_half_even ((a + b + c + s) # 4)))))
  /\ (0 <= seed -> n <= 87029 ->
      exists df st',
        make_demo_df seed_bitgen bounded n seed st = Ok (df, st')).
Proof.
  intros Hn. split.
  - intros df st' Hrun.
    destruct (make_demo_df_shape n seed st st' df Hrun)
      as (_ & _ & (Hd & _ & Hi & _) & _).
    split; [apply weekly_forecast_length |].
    split; [apply weekly_forecast_weeks |]. split.
    + destruct (weekly_forecast_first df) as (w & s & Hf).
      { apply weekly_not_nil.
        - intros E. rewrite E in Hd. simpl in Hd. lia.
        - intros E. rewrite E in Hi. simpl in Hi. lia. }
      exists w, s. split; [| exact Hf].
      pose proof (weekly_forecast_weeks df) as E.
      apply (f_equal (fun l => nth_error l 0)) in E.
      rewrite nth_error_map, Hf in E. symmetry. exact E.
    + intros i w s Hi3 Hw.
      destruct (weekly_forecast_row df i w s Hw) as [f Hf].
      destruct (weekly_forecast_trailing df i w s f Hi3 Hf)
        as (a & b & c & Ha & Hb & Hc & ->).
      exists a, b, c. repeat split; assumption.
  - intros Hs Hb.
    destruct (make_demo_df_total n seed Hs ltac:(lia)) as [df Hdf].
    destruct (Hdf st) as [st' Hrun]. exists df, st'. exact Hrun.
Qed.

(** C8: for every frame the generator returns, the impressions of the
    region x format groups add up to the impressions of the whole frame;
    with a seed and a range the libraries accept, the generator returns. *)
Theorem agg_impressions_consistent (n seed : Z) (st : gmap nat bitgen) :
  (forall df st',
     make_demo_df seed_bitgen bounded n seed st = Ok (df, st') ->
     series_sum (map a_impressions (agg df)) = series_sum (impressions df))
  /\ (0 <= seed -> 0 <= n <= 87029 ->
      exists df st',
        make_demo_df seed_bitgen bounded n seed st = Ok (df, st')).
Proof.
  split.
  - intros df st' Hrun.
    destruct (make_demo_df_shape n seed st st' df Hrun)
      as (_ & _ & (_ & Hr & Hi & Hu & Hf & _) & _).
    apply agg_impressions_total; congruence.
  - intros Hs Hn.
    destruct (make_demo_df_total n seed Hs Hn) as [df Hdf].
    destruct (Hdf st) as [st' Hrun]. exists df, st'. exact Hrun.
Qed.

(** C9: the hourly means of every frame the generator returns list, in
    ascending order, one bucket for each hour [h] in 0..23 that has a row (a
    row index [i] with [i mod 24 = h]), with the mean of the [uniques] of
    those rows.  With at least 24 rows (the frame of [load_data] has 200)
    these are exactly the 24 buckets 0..23; an hour with no row ([h >= n])
    is absent from the result, not listed with a zero.  With a seed and a
    range the libraries accept, the generator returns. *)
Theorem hourly_buckets (n seed : Z) (st : gmap nat bitgen) :
  (forall df st',
     make_demo_df seed_bitgen bounded n seed st = Ok (df, st') ->
     hourly df
     = map (fun h => (Z.of_nat h,
                      mean (rows_of_key (Z.of_nat h)
                              (combine (hour_column df) (uniques df)))))
           (seq 0 (Nat.min (Z.to_nat n) 24))
     /\ (forall h m, In (h, m) (hourly df) -> exists q, m = Some q)
     /\ (24 <= n ->
         map fst (hourly df) = map Z.of_nat (seq 0 24)
         /\ List.length (hourly df) = 24%nat)
     /\ (forall h, n <= h -> ~ In h (map fst (hourly df))))
  /\ (0 <= seed -> 0 <= n <= 87029 ->
      exists df st',
        make_demo_df seed_bitgen bounded n seed st = Ok (df, st')).
Proof.
  split.
  - intros df st' Hrun.
    destruct (make_demo_df_shape n seed st st' df Hrun)
      as (_ & Hn & (Hd & _ & _ & Hu & _) & _).
    assert (nrows df = Z.to_nat n) as Hrows by exact Hd.
    assert (List.length (uniques df) = nrows df) as Hlen by congruence.
    pose proof (hourly_listing df Hlen) as Hl. rewrite Hrows in Hl.
    assert (map fst (hourly df)
            = map Z.of_nat (seq 0 (Nat.min (Z.to_nat n) 24))) as Hkeys
        by (rewrite Hl, map_map; reflexivity).
    split; [exact Hl |]. split; [| split].
    + intros h m Hin. rewrite Hl in Hin. apply in_map_iff in Hin.
      destruct Hin as [h' [E Hh']]. injection E as _ <-.
      apply in_seq in Hh'. apply hourly_bucket_mean; lia.
    + intros H24. replace (Nat.min (Z.to_nat n) 24) with 24%nat in * by lia.
      split; [exact Hkeys |].
      rewrite <- (length_map fst), Hkeys, length_map, length_seq. reflexivity.
    + intros h Hh Hin. rewrite Hkeys in Hin. apply in_map_iff in Hin.
      destruct Hin as [h' [<- Hh']]. apply in_seq in Hh'. lia.
  - intros Hs Hn.
    destruct (make_demo_df_total n seed Hs Hn) as [df Hdf].
    destruct (Hdf st) as [st' Hrun]. exists df, st'. exact Hrun.
Qed.

(** C10: every date of a frame the generator returns occurs once, so the
    daily totals are the frame's own (date, impressions) pairs: for
    [n >= 1] there are exactly [n] of them, in the frame's ascending date
    order, and the total of row [k]'s date is row [k]'s impressions.  With
    a seed and a range the libraries accept, the generator returns. *)
Theorem daily_is_identity (n seed : Z) (st : gmap nat bitgen) :
  1 <= n ->
  (forall df st',
     make_demo_df seed_bitgen bounded n seed st = Ok (df, st') ->
     Z.of_nat (List.length (daily df)) = n
     /\ daily df = combine (date df) (impressions df)
     /\ StronglySorted Z.lt (map fst (daily df))
     /\ (forall k r, iloc df k = Some r ->
           nth_error (daily df) k = Some (r_date r, r_impressions r)))
  /\ (0 <= seed -> n <= 87029 ->
      exists df st',
        make_demo_df seed_bitgen bounded n seed st = Ok (df, st')).
Proof.
  intros Hn. split.
  - intros df st' Hrun.
    destruct (make_demo_df_shape n seed st st' df Hrun)
      as (_ & _ & (Hd & _ & Hi & _) & Hdate & _).
    pose proof (daily_of_day_range df start_date n Hdate) as Hdaily.
    rewrite Hdaily. split; [| split; [| split]].
    + rewrite length_combine. lia.
    + reflexivity.
    + rewrite map_fst_combine_eq by congruence. rewrite Hdate.
      apply day_range_sorted.
    + intros k r Hr. apply iloc_fields in Hr.
      destruct Hr as (Hkd & _ & Hki & _).
      rewrite nth_error_combine, Hkd, Hki. reflexivity.
  - intros Hs Hb.
    destruct (make_demo_df_total n seed Hs ltac:(lia)) as [df Hdf].
    destruct (Hdf st) as [st' Hrun]. exists df, st'. exact Hrun.
Qed.

(** From here on a bounded draw is assumed to stay in its range, as numpy
    documents for [integers] (and so for the indices of [choice]). *)
Hypothesis bounded_range :
  forall (r : Z) (g : bitgen), 0 < r -> 0 <= fst (bounded r g) < r.

Lemma draws_range (r : Z) (k : nat) (g : bitgen) :
  0 < r -> Forall (fun v => 0 <= v < r) (fst (draws bounded r k g)).
Proof.
  intros Hr. revert g. induction k as [|k IH]; intros g; simpl; [constructor |].
  pose proof (bounded_range r g Hr) as Hv.
  destruct (bounded r g) as [v g1]. specialize (IH g1).
  destruct (draws bounded r k g1) as [vs g2]. simpl in *.
  constructor; assumption.
Qed.

Lemma integers_range (low r : Z) (k : nat) (g : bitgen) :
  0 < r ->
  Forall (fun v => low <= v < low + r)
         (map (Z.add low) (fst (draws bounded r k g))).
Proof.
  intros Hr. apply List.Forall_map.
  eapply List.Forall_impl; [| apply draws_range; exact Hr].
  simpl. intros v Hv. lia.
Qed.

Lemma choice_range {A} (d : A) (a : list A) (k : nat) (g : bitgen) :
  Forall (fun x => In x (d :: a))
    (map (fun i => nth (Z.to_nat i) (d :: a) d)
       (map (Z.add 0)
          (fst (draws bounded (Z.of_nat (List.length (d :: a))) k g)))).
Proof.
  rewrite map_map. apply List.Forall_map.
  eapply List.Forall_impl; [| apply draws_range; simpl List.length; lia].
  intros i Hi. cbv beta in Hi. apply nth_In. lia.
Qed.

Lemma make_demo_df_ranges (n seed : Z) (st st' : gmap nat bitgen)
    (df : DataFrame) :
  make_demo_df seed_bitgen bounded n seed st = Ok (df, st') ->
  Forall (fun x => In x regions) (region df)
  /\ Forall (fun v => 1000 <= v < 50000) (impressions df)
  /\ Forall (fun v => 500 <= v < 20000) (uniques df)
  /\ Forall (fun x => In x formats) (format df).
Proof.
  intros H. destruct (make_demo_df_cases n seed) as [Hs | [[Hs Hn] | [Hs Hn]]].
  - rewrite make_demo_df_bad_seed in H by exact Hs. discriminate.
  - rewrite make_demo_df_bad_range in H by assumption. discriminate.
  - rewrite (make_demo_df_run seed_bitgen bounded n seed st Hs Hn) in H.
    injection H as <- _. unfold set_freq.
    cbn [region impressions uniques format]. repeat split.
    + exact (choice_range "Lisboa"%string
               ["Porto"; "Matosinhos"; "Setúbal"]%string _ _).
    + apply (integers_range 1000 49000). lia.
    + apply (integers_range 500 19500). lia.
    + exact (choice_range "Mupi"%string ["Abrigo"; "Digital"]%string _ _).
Qed.

(** C4: for [n >= 1] and every seed, every row of a frame the generator
    returns has [1000 <= impressions < 50000], [500 <= uniques < 20000], a
    region among the four regions and a format among the three formats;
    with a seed and a range the libraries accept, the generator returns
    [n] such rows. *)
Theorem make_demo_df_row_ranges (n seed : Z) (st : gmap nat bitgen) :
  1 <= n ->
  (forall df st',
     make_demo_df seed_bitgen bounded n seed st = Ok (df, st') ->
     has_rows (Z.to_nat n) df
     /\ forall k r, iloc df k = Some r ->
          1000 <= r_impressions r < 50000
          /\ 500 <= r_uniques r < 20000
          /\ In (r_region r) ["Lisboa"; "Porto"; "Matosinhos"; "Setúbal"]%string
          /\ In (r_format r) ["Mupi"; "Abrigo"; "Digital"]%string)
  /\ (0 <= seed -> n <= 87029 ->
      exists df st',
        make_demo_df seed_bitgen bounded n seed st = Ok (df, st')).
Proof.
  intros Hn. split.
  - intros df st' Hrun.
    destruct (make_demo_df_shape n seed st st' df Hrun) as (_ & _ & Hrows & _).
    destruct (make_demo_df_ranges n seed st st' df Hrun) as (Hr & Hi & Hu & Hf).
    split; [exact Hrows |].
    intros k r Hk. apply iloc_fields in Hk.
    destruct Hk as (_ & Hkr & Hki & Hku & Hkf & _).
    rewrite List.Forall_forall in Hr, Hi, Hu, Hf.
    apply nth_error_In in Hkr, Hki, Hku, Hkf.
    split; [apply Hi, Hki |]. split; [apply Hu, Hku |].
    split; [apply Hr, Hkr | apply Hf, Hkf].
  - intros Hs Hb.
    destruct (make_demo_df_total n seed Hs ltac:(lia)) as [df Hdf].
    destruct (Hdf st) as [st' Hrun]. exists df, st'. exact Hrun.
Qed.

(** C5: in every row of a frame the generator returns, [freq] is what the
    program computes in binary64, [(impressions / uniques).round(2)], and
    as a number it is that quotient rounded to two decimals: the binary64
    quotient [c / 100] for an integer number [c] of hundredths with
    [|c / 100 - impressions / uniques| <= 1 / 200].  An integer strictly
    nearer than one half to [100 * impressions / uniques] is that [c]; when
    the quotient lies halfway between two hundredths, the binary64
    arithmetic decides which of the two it is.  With a seed and a range the
    libraries accept, the generator returns such a frame of [n] rows. *)
Theorem make_demo_df_freq (n seed : Z) (st : gmap nat bitgen) :
  (forall df st',
     make_demo_df seed_bitgen bounded n seed st = Ok (df, st') ->
     forall k r, iloc df k = Some r ->
       r_freq r
       = round_decimals 2 (true_divide (r_impressions r) (r_uniques r))
       /\ exists c : Z,
            r_freq r = PrimFloat.div (float_of_Z c) (float_of_Z 100)
            /\ 2 * Z.abs (c * r_uniques r - 100 * r_impressions r)
               <= r_uniques r
            /\ forall c' : Z,
                 2 * Z.abs (c' * r_uniques r - 100 * r_impressions r)
                 < r_uniques r ->
                 c' = c)
  /\ (0 <= seed -> 0 <= n <= 87029 ->
      exists df st',
        make_demo_df seed_bitgen bounded n seed st = Ok (df, st')
        /\ has_rows (Z.to_nat n) df).
Proof.
  split.
  - intros df st' Hrun k r Hr.
    destruct (make_demo_df_shape n seed st st' df Hrun)
      as (_ & _ & _ & _ & Hfreq).
    destruct (make_demo_df_ranges n seed st st' df Hrun) as (_ & Hi & Hu & _).
    apply iloc_fields in Hr. destruct Hr as (_ & _ & Hki & Hku & _ & Hq).
    rewrite Hfreq, (series_div_nth _ _ k _ _ Hki Hku) in Hq.
    injection Hq as Hq.
    rewrite List.Forall_forall in Hi, Hu. apply nth_error_In in Hki, Hku.
    specialize (Hi _ Hki). specialize (Hu _ Hku). cbv beta in Hi, Hu.
    split; [symmetry; exact Hq |].
    destruct (round_decimals_quotient (r_impressions r) (r_uniques r))
      as (c & _ & Hc & Hnear).
    + change (2 ^ 16) with 65536. lia.
    + change (2 ^ 8) with 256. change (2 ^ 15) with 32768. lia.
    + exists c. split; [rewrite <- Hq; exact Hc |]. split; [exact Hnear |].
      intros c' Hc'.
      apply (nearest_unique (r_impressions r) (r_uniques r)); [lia | | ];
        assumption.
  - intros Hs Hn.
    destruct (make_demo_df_total n seed Hs Hn) as [df Hdf].
    destruct (Hdf st) as [st' Hrun]. exists df, st'. split; [exact Hrun |].
    destruct (make_demo_df_shape n seed st st' df Hrun) as (_ & _ & Hrows & _).
    exact Hrows.
Qed.

(** C6: in every row of a frame the generator returns the divisor
    [uniques] is at least 500, hence not zero: the division that defines
    [freq] never divides by zero.  With a seed and a range the libraries
    accept, the generator returns such a frame of [n] rows. *)
Theorem make_demo_df_divisor_nonzero (n seed : Z) (st : gmap nat bitgen) :
  (forall df st',
     make_demo_df seed_bitgen bounded n seed st = Ok (df, st') ->
     Forall (fun u => 500 <= u /\ u <> 0) (uniques df)
     /\ forall k r, iloc df k = Some r ->
          500 <= r_uniques r /\ r_uniques r <> 0)
  /\ (0 <= seed -> 0 <= n <= 87029 ->
      exists df st',
        make_demo_df seed_bitgen bounded n seed st = Ok (df, st')
        /\ has_rows (Z.to_nat n) df).
Proof.
  split.
  - intros df st' Hrun.
    destruct (make_demo_df_ranges n seed st st' df Hrun) as (_ & _ & Hu & _).
    split.
    + eapply List.Forall_impl; [| exact Hu]. simpl. intros u Hu'. lia.
    + intros k r Hk. apply iloc_fields in Hk.
      destruct Hk as (_ & _ & _ & Hku & _).
      rewrite List.Forall_forall in Hu. apply nth_error_In in Hku.
      specialize (Hu _ Hku). simpl in Hu. lia.
  - intros Hs Hn.
    destruct (make_demo_df_total n seed Hs Hn) as [df Hdf].
    destruct (Hdf st) as [st' Hrun]. exists df, st'. split; [exact Hrun |].
    destruct (make_demo_df_shape n seed st st' df Hrun) as (_ & _ & Hrows & _).
    exact Hrows.
Qed.

End Table.

(* ------------------------------------------------------------------ *)
(** ** More on the generated table and its aggregations                 *)
(* ------------------------------------------------------------------ *)

Section MoreOnTheTable.
Context {bitgen : Type}.
Variable seed_bitgen : Z -> bitgen.
Variable bounded : Z -> bitgen -> Z * bitgen.

Lemma draws_firstn (r : Z) (n m : nat) (g : bitgen) :
  (n <= m)%nat ->
  fst (draws bounded r n g) = firstn n (fst (draws bounded r m g)).
Proof.
  revert m g. induction n as [|n IH]; intros m g Hnm; [reflexivity |].
  destruct m as [|m]; [lia |]. simpl.
  destruct (bounded r g) as [v g1]. specialize (IH m g1 ltac:(lia)).
  destruct (draws bounded r n g1) as [vs g2].
  destruct (draws bounded r m g1) as [ws g3]. simpl in *.
  rewrite IH. reflexivity.
Qed.

(** X1: A call that returns has allocated one generator, at a handle that
    was free, and has left every generator that existed as it was; a call
    with a seed numpy accepts and a range pandas can build returns.  A call
    with a negative seed fails in [default_rng] and returns no heap: no
    generator is created. *)
Theorem make_demo_df_allocates_one (n seed : Z) (st : gmap nat bitgen) :
  (forall df st',
     make_demo_df seed_bitgen bounded n seed st = Ok (df, st') ->
     exists rng,
       st !! rng = None
       /\ is_Some (st' !! rng)
       /\ (forall h, h <> rng -> st' !! h = st !! h)
       /\ size st' = S (size st))
  /\ (0 <= seed -> 0 <= n <= 87029 ->
      exists df st',
        make_demo_df seed_bitgen bounded n seed st = Ok (df, st'))
  /\ (seed < 0 ->
      make_demo_df seed_bitgen bounded n seed st = Raise ValueError).
Proof.
  split; [| split].
  - intros df st' H.
    destruct (make_demo_df_cases n seed) as [Hs | [[Hs Hn] | [Hs Hn]]].
    + rewrite make_demo_df_bad_seed in H by exact Hs. discriminate.
    + rewrite make_demo_df_bad_range in H by assumption. discriminate.
    + rewrite (make_demo_df_run seed_bitgen bounded n seed st Hs Hn) in H.
      injection H as _ <-. exists (fresh (dom st)).
      assert (st !! fresh (dom st) = None) as Hfresh
          by (apply not_elem_of_dom, is_fresh).
      split; [exact Hfresh |]. split; [| split].
      * rewrite lookup_insert_eq. eexists. reflexivity.
      * intros h Hh. apply lookup_insert_ne. congruence.
      * apply map_size_insert_None. exact Hfresh.
  - intros Hs Hn.
    destruct (make_demo_df_total seed_bitgen bounded n seed Hs Hn) as [df Hdf].
    destruct (Hdf st) as [st' Hrun]. exists df, st'. exact Hrun.
  - apply make_demo_df_bad_seed.
Qed.

(** X2: For a seed numpy accepts and [0 <= n <= m <= 87029], the dates and
    the regions of the shorter table are the first rows of those of the
    longer one with the same seed: the regions are the first column drawn
    from the fresh generator. *)
Theorem make_demo_df_prefix (n m seed : Z) (st1 st2 : gmap nat bitgen) :
  0 <= seed -> 0 <= n <= m -> m <= 87029 ->
  exists dfn dfm st1' st2',
    make_demo_df seed_bitgen bounded n seed st1 = Ok (dfn, st1')
    /\ make_demo_df seed_bitgen bounded m seed st2 = Ok (dfm, st2')
    /\ date dfn = firstn (Z.to_nat n) (date dfm)
    /\ region dfn = firstn (Z.to_nat n) (region dfm).
Proof.
  intros Hs Hnm Hm. eexists. eexists. eexists. eexists.
  split; [apply (make_demo_df_run seed_bitgen bounded n seed st1); lia |].
  split; [apply (make_demo_df_run seed_bitgen bounded m seed st2); lia |].
  unfold set_freq. cbn [date region]. split.
  - apply day_range_firstn. exact Hnm.
  - rewrite !firstn_map.
    rewrite <- (draws_firstn 4 (Z.to_nat n) (Z.to_nat m)) by lia.
    reflexivity.
Qed.

(** X3: For a seed numpy accepts and a range pandas can build, the uniques
    of the region x format groups of the generated frame add up to the
    uniques of the whole frame. *)
Theorem agg_uniques_consistent (n seed : Z) (st : gmap nat bitgen) :
  0 <= seed -> 0 <= n <= 87029 ->
  exists df st',
    make_demo_df seed_bitgen bounded n seed st = Ok (df, st')
    /\ series_sum (map a_uniques (agg df)) = series_sum (uniques df).
Proof.
  intros Hs Hn.
  destruct (make_demo_df_total seed_bitgen bounded n seed Hs Hn) as [df Hdf].
  destruct (Hdf st) as [st' Hrun]. exists df, st'.
  destruct (make_demo_df_shape seed_bitgen bounded n seed st st' df Hrun)
    as (_ & _ & (_ & Hr & Hi & Hu & Hf & _) & _).
  split; [exact Hrun |]. apply agg_uniques_total; congruence.
Qed.

(** X6: The weekly table of every frame the generator returns has at most
    53 rows, whatever the number of days up to the last one that has a
    timestamp; its week numbers are strictly ascending between 1 and 53,
    and its sums add up to the impressions of the whole frame. *)
Theorem weekly_table_shape (n seed : Z) (st : gmap nat bitgen) :
  0 <= seed -> 0 <= n <= 87029 ->
  exists df st',
    make_demo_df seed_bitgen bounded n seed st = Ok (df, st')
    /\ (List.length (weekly df) <= 53)%nat
    /\ StronglySorted Z.lt (map fst (weekly df))
    /\ Forall (fun w => 1 <= w <= 53) (map fst (weekly df))
    /\ series_sum (map snd (weekly df)) = series_sum (impressions df).
Proof.
  intros Hs Hn.
  destruct (make_demo_df_total seed_bitgen bounded n seed Hs Hn) as [df Hdf].
  destruct (Hdf st) as [st' Hrun]. exists df, st'.
  destruct (make_demo_df_shape seed_bitgen bounded n seed st st' df Hrun)
    as (_ & _ & (Hd & _ & Hi & _) & _).
  destruct (weekly_at_most_53 df) as (H53 & Hsorted & Hr).
  split; [exact Hrun |]. split; [exact H53 |]. split; [exact Hsorted |].
  split; [exact Hr |]. apply weekly_total. congruence.
Qed.

(** X9: For a seed numpy accepts and a range pandas can build, every week
    of the generated frame has a forecast (the forecast column has no NaN),
    and each forecast lies between any two bounds of the weekly sums, so
    between the smallest and the largest of them. *)
Theorem weekly_forecast_in_range (n seed : Z) (st : gmap nat bitgen) :
  0 <= seed -> 0 <= n <= 87029 ->
  exists df st',
    make_demo_df seed_bitgen bounded n seed st = Ok (df, st')
    /\ List.length (weekly_forecast df) = List.length (weekly df)
    /\ map fst (weekly_forecast df) = weekly df
    /\ forall lo hi,
         (forall w s, In (w, s) (weekly df) -> lo <= s <= hi) ->
         forall w s f, In (w, s, f) (weekly_forecast df) ->
                       exists v, f = Some v /\ lo <= v <= hi.
Proof.
  intros Hs Hn.
  destruct (make_demo_df_total seed_bitgen bounded n seed Hs Hn) as [df Hdf].
  destruct (Hdf st) as [st' Hrun]. exists df, st'.
  split; [exact Hrun |]. split; [apply weekly_forecast_length |].
  split; [apply weekly_forecast_weeks |].
  intros lo hi. apply weekly_forecast_between.
Qed.

(** X10: For a seed numpy accepts and a range pandas can build, the
    forecast frame of the generated frame has one row per week of the
    weekly table; when there is a second week, its row carries the rounded
    mean of the first two weekly sums, and when there is a third week, its
    row carries the rounded mean of the first three: with [min_periods=1] a
    window shorter than 4 is averaged over what it holds. *)
Theorem weekly_forecast_short_windows (n seed : Z) (st : gmap nat bitgen) :
  0 <= seed -> 0 <= n <= 87029 ->
  exists df st',
    make_demo_df seed_bitgen bounded n seed st = Ok (df, st')
    /\ List.length (weekly_forecast df) = List.length (weekly df)
    /\ (forall w s, nth_error (weekly df) 1 = Some (w, s) ->
          exists a,
            nth_error (map snd (weekly df)) 0 = Some a
            /\ nth_error (weekly_forecast df) 1
               = Some (w, s, Some (round_half_even ((a + s) # 2))))
    /\ (forall w s, nth_error (weekly df) 2 = Some (w, s) ->
          exists a b,
            nth_error (map snd (weekly df)) 0 = Some a
            /\ nth_error (map snd (weekly df)) 1 = Some b
            /\ nth_error (weekly_forecast df) 2
               = Some (w, s, Some (round_half_even ((a + b + s) # 3)))).
Proof.
  intros Hs Hn.
  destruct (make_demo_df_total seed_bitgen bounded n seed Hs Hn) as [df Hdf].
  destruct (Hdf st) as [st' Hrun]. exists df, st'.
  split; [exact Hrun |]. split; [apply weekly_forecast_length |]. split.
  - intros w s Hw. destruct (weekly_forecast_row df 1 w s Hw) as [f Hf].
    destruct (weekly_forecast_second df w s f Hf) as (a & Ha & ->).
    exists a. split; assumption.
  - intros w s Hw. destruct (weekly_forecast_row df 2 w s Hw) as [f Hf].
    destruct (weekly_forecast_third df w s f Hf) as (a & b & Ha & Hb & ->).
    exists a, b. repeat split; assumption.
Qed.

(** X7: For a seed numpy accepts and up to 364 rows (dates before
    2024-12-30) the weekly table lists the calendar weeks 1, 2, ...,
    [ceil (n / 7)] in order, and the sum of week [w + 1] is the sum of the
    (up to seven) rows from row [7 * w] on; the last week is partial unless
    7 divides [n]. *)
Theorem weekly_calendar_weeks (n seed : Z) (st : gmap nat bitgen) :
  0 <= seed -> 0 <= n <= 364 ->
  exists df st',
    make_demo_df seed_bitgen bounded n seed st = Ok (df, st')
    /\ weekly df
       = map (fun w =>
                (Z.of_nat w + 1,
                 series_sum (firstn 7 (skipn (7 * w) (impressions df)))))
             (seq 0 ((Z.to_nat n + 6) / 7)).
Proof.
  intros Hs Hn.
  destruct (make_demo_df_total seed_bitgen bounded n seed Hs ltac:(lia))
    as [df Hdf].
  destruct (Hdf st) as [st' Hrun]. exists df, st'.
  destruct (make_demo_df_shape seed_bitgen bounded n seed st st' df Hrun)
    as (_ & _ & (_ & _ & Hi & _) & Hd & _).
  split; [exact Hrun |]. apply (weekly_first_year df n Hn Hd Hi).
Qed.

(** X8: For a seed numpy accepts and [365 <= n <= 87029] rows, the table
    reaches 2024-12-30, a day of ISO week 1: the weekly table groups by the
    week number alone, so its first row, week 1, sums at least 8 rows, days
    of January 2024 together with days a year later. *)
Theorem weekly_merges_week_one (n seed : Z) (st : gmap nat bitgen) :
  0 <= seed -> 365 <= n <= 87029 ->
  exists df st',
    make_demo_df seed_bitgen bounded n seed st = Ok (df, st')
    /\ civil_from_days (start_date + 364) = (2024, 12, 30)
    /\ iso_week (start_date + 364) = iso_week start_date
    /\ (8 <= List.length (rows_of_key 1 (week_rows df)))%nat
    /\ exists rest,
         weekly df = (1, series_sum (rows_of_key 1 (week_rows df))) :: rest.
Proof.
  intros Hs Hn.
  destruct (make_demo_df_total seed_bitgen bounded n seed Hs ltac:(lia))
    as [df Hdf].
  destruct (Hdf st) as [st' Hrun]. exists df, st'.
  destruct (make_demo_df_shape seed_bitgen bounded n seed st st' df Hrun)
    as (_ & _ & (_ & _ & Hi & _) & Hd & _).
  split; [exact Hrun |]. split; [reflexivity |]. split; [reflexivity |].
  apply (weekly_merges_years df n ltac:(lia) Hd Hi).
Qed.

(** X11: Under [st.cache_data], any number of calls of [load_data] in a
    session return one and the same frame and leave the heap as one run of
    [make_demo_df] leaves it: the generator is created once.  The cache
    changes no answer: an uncached call, in any heap, returns that frame
    too. *)
Theorem load_data_cached_once (k : nat) (st : gmap nat bitgen) :
  exists df st',
    load_data seed_bitgen bounded st = Ok (df, st')
    /\ calls (load_data seed_bitgen bounded) (S k) None st
       = Ok (repeat df (S k), (Some df, st'))
    /\ forall st2 : gmap nat bitgen,
         exists st2', load_data seed_bitgen bounded st2 = Ok (df, st2').
Proof.
  unfold load_data.
  destruct (make_demo_df_total seed_bitgen bounded 200 7
              ltac:(lia) ltac:(lia)) as [df Hdf].
  destruct (Hdf st) as [st' Hrun]. exists df, st'.
  split; [exact Hrun |]. split; [| exact Hdf].
  apply calls_first. exact Hrun.
Qed.

Hypothesis bounded_range :
  forall (r : Z) (g : bitgen), 0 < r -> 0 <= fst (bounded r g) < r.

(** X4: For a seed numpy accepts and a range pandas can build, the region x
    format table of the generated frame lists the twelve combinations in
    lexicographic order, leaving out those no row has, each once, with the
    sums over exactly the rows of that combination: it never has more than
    12 rows. *)
Theorem agg_combinations (n seed : Z) (st : gmap nat bitgen) :
  0 <= seed -> 0 <= n <= 87029 ->
  exists df st',
    make_demo_df seed_bitgen bounded n seed st = Ok (df, st')
    /\ agg df
       = flat_map
           (fun c =>
              match rows_of_key_by
                      (pair_compare String.compare String.compare)
                      c (agg_rows df) with
              | [] => []
              | vs => [mkAggRow (fst c) (snd c) (series_sum (map fst vs))
                                (series_sum (map snd vs))]
              end)
           combinations
    /\ (List.length (agg df) <= 12)%nat.
Proof.
  intros Hs Hn.
  destruct (make_demo_df_total seed_bitgen bounded n seed Hs Hn) as [df Hdf].
  destruct (Hdf st) as [st' Hrun]. exists df, st'.
  destruct (make_demo_df_ranges seed_bitgen bounded bounded_range
              n seed st st' df Hrun) as (Hr & _ & _ & Hf).
  split; [exact Hrun |]. apply agg_listing; assumption.
Qed.

(** X5: For a seed numpy accepts and a range pandas can build, every hourly
    mean of the generated frame is a number in the range of [uniques]: at
    least 500 and below 20000. *)
Theorem hourly_means_in_range (n seed : Z) (st : gmap nat bitgen) :
  0 <= seed -> 0 <= n <= 87029 ->
  exists df st',
    make_demo_df seed_bitgen bounded n seed st = Ok (df, st')
    /\ forall h m, In (h, m) (hourly df) ->
         exists q, m = Some q
                   /\ (inject_Z 500 <= q)%Q /\ (q < inject_Z 20000)%Q.
Proof.
  intros Hs Hn.
  destruct (make_demo_df_total seed_bitgen bounded n seed Hs Hn) as [df Hdf].
  destruct (Hdf st) as [st' Hrun]. exists df, st'.
  destruct (make_demo_df_shape seed_bitgen bounded n seed st st' df Hrun)
    as (_ & _ & (Hd & _ & _ & Hu & _) & _).
  destruct (make_demo_df_ranges seed_bitgen bounded bounded_range
              n seed st st' df Hrun) as (_ & _ & Hur & _).
  split; [exact Hrun |]. intros h m.
  apply hourly_mean_between; [unfold nrows; congruence | exact Hur].
Qed.

End MoreOnTheTable.

(* ------------------------------------------------------------------ *)
(** ** The theorems at concrete inputs                                  *)
(* ------------------------------------------------------------------ *)

(** [make_demo_df(0, 7)] returns the empty table: it does not fail. *)
Lemma make_demo_df_zero_returns :
  0 < 1
  /\ make_demo_df Lcg.seed Lcg.bounded 0 7 ∅
     = Ok (mkDataFrame [] [] [] [] [] [],
           <[fresh (dom (∅ : gmap nat Lcg.state)) := Lcg.seed 7]> ∅)
  /\ ~ (exists e, make_demo_df Lcg.seed Lcg.bounded 0 7 ∅ = Raise e).
Proof.
  split; [lia |].
  rewrite (make_demo_df_run Lcg.seed Lcg.bounded 0 7 ∅) by lia.
  split; [reflexivity |]. intros [e He]. discriminate He.
Qed.

Lemma make_demo_df_below_one_witness :
  -1 < 1 /\ make_demo_df Lcg.seed Lcg.bounded (-1) 7 ∅ = Raise DateRangeError.
Proof.
  split; [lia |].
  destruct (make_demo_df_below_one Lcg.seed Lcg.bounded (-1) 7 ∅ ltac:(lia))
    as [Hneg _].
  exact (Hneg ltac:(lia)).
Defined.

Lemma make_demo_df_deterministic_witness :
  1 <= 5 /\ 0 <= 7 /\ 5 <= 87029
  /\ exists df1 df2 st1' st2',
       make_demo_df Lcg.seed Lcg.bounded 5 7 ∅ = Ok (df1, st1')
       /\ make_demo_df Lcg.seed Lcg.bounded 5 7 {[ 0%nat := 1 ]} = Ok (df2, st2')
       /\ has_rows 5 df1
       /\ df1 = df2
       /\ forall k, iloc df1 k = iloc df2 k.
Proof.
  split; [lia |]. split; [lia |]. split; [lia |].
  destruct (make_demo_df_deterministic Lcg.seed Lcg.bounded 5 7
              ∅ {[ 0%nat := 1 ]} ltac:(lia)) as [_ Hboth].
  exact (Hboth ltac:(lia) ltac:(lia)).
Defined.

(** [make_demo_df(5, -1)] returns no rows: [default_rng(-1)] raises. *)
Lemma make_demo_df_negative_seed_raises :
  1 <= 5
  /\ make_demo_df Lcg.seed Lcg.bounded 5 (-1) ∅ = Raise ValueError
  /\ ~ (exists df st',
          make_demo_df Lcg.seed Lcg.bounded 5 (-1) ∅ = Ok (df, st')).
Proof.
  split; [lia |].
  rewrite (make_demo_df_bad_seed Lcg.seed Lcg.bounded 5 (-1) ∅) by lia.
  split; [reflexivity |]. intros (df & st' & H). discriminate H.
Qed.

Lemma make_demo_df_dates_witness :
  1 <= 5 <= 87029 /\ 0 <= 7
  /\ exists df st',
       make_demo_df Lcg.seed Lcg.bounded 5 7 ∅ = Ok (df, st')
       /\ has_rows 5 df
       /\ forall k, (k < 5)%nat ->
            exists r, iloc df k = Some r /\ r_date r = start_date + Z.of_nat k.
Proof.
  split; [lia |]. split; [lia |].
  destruct (make_demo_df_dates Lcg.seed Lcg.bounded 5 7 ∅
              ltac:(lia) ltac:(lia))
    as (df & st' & Hrun & Hrows & _ & _ & _ & Hall & _).
  exists df, st'. split; [exact Hrun | split; [exact Hrows | exact Hall]].
Defined.

Lemma make_demo_df_row_ranges_witness :
  1 <= 5 /\ 0 <= 7 /\ 5 <= 87029
  /\ exists df st',
       make_demo_df Lcg.seed Lcg.bounded 5 7 ∅ = Ok (df, st')
       /\ has_rows 5 df
       /\ forall k r, iloc df k = Some r ->
            1000 <= r_impressions r < 50000
            /\ 500 <= r_uniques r < 20000
            /\ In (r_region r) ["Lisboa"; "Porto"; "Matosinhos"; "Setúbal"]%string
            /\ In (r_format r) ["Mupi"; "Abrigo"; "Digital"]%string.
Proof.
  split; [lia |]. split; [lia |]. split; [lia |].
  destruct (make_demo_df_row_ranges Lcg.seed Lcg.bounded lcg_bounded_range
              5 7 ∅ ltac:(lia)) as [Hrows Hruns].
  destruct (Hruns ltac:(lia) ltac:(lia)) as (df & st' & Hrun).
  exists df, st'. split; [exact Hrun | exact (Hrows df st' Hrun)].
Defined.

Lemma make_demo_df_freq_witness :
  0 <= 7 /\ 0 <= 5 <= 87029
  /\ exists df st',
       make_demo_df Lcg.seed Lcg.bounded 5 7 ∅ = Ok (df, st')
       /\ has_rows 5 df
       /\ forall k r, iloc df k = Some r ->
            exists c : Z,
              r_freq r = PrimFloat.div (float_of_Z c) (float_of_Z 100)
              /\ 2 * Z.abs (c * r_uniques r - 100 * r_impressions r)
                 <= r_uniques r.
Proof.
  split; [lia |]. split; [lia |].
  destruct (make_demo_df_freq Lcg.seed Lcg.bounded lcg_bounded_range 5 7 ∅)
    as [Hrows Hruns].
  destruct (Hruns ltac:(lia) ltac:(lia)) as (df & st' & Hrun & Hn).
  exists df, st'. split; [exact Hrun |]. split; [exact Hn |].
  intros k r Hr.
  destruct (Hrows df st' Hrun k r Hr) as (_ & c & Hc & Hnear & _).
  exists c. split; [exact Hc | exact Hnear].
Defined.

Lemma make_demo_df_divisor_nonzero_witness :
  0 <= 7 /\ 0 <= 5 <= 87029
  /\ exists df st',
       make_demo_df Lcg.seed Lcg.bounded 5 7 ∅ = Ok (df, st')
       /\ has_rows 5 df
       /\ forall k r, iloc df k = Some r ->
            500 <= r_uniques r /\ r_uniques r <> 0.
Proof.
  split; [lia |]. split; [lia |].
  destruct (make_demo_df_divisor_nonzero Lcg.seed Lcg.bounded
              lcg_bounded_range 5 7 ∅) as [Hrows Hruns].
  destruct (Hruns ltac:(lia) ltac:(lia)) as (df & st' & Hrun & Hn).
  exists df, st'. split; [exact Hrun |]. split; [exact Hn |].
  exact (proj2 (Hrows df st' Hrun)).
Defined.

Lemma weekly_forecast_boundaries_witness :
  1 <= 40 /\ 0 <= 7 /\ 40 <= 87029
  /\ exists df st',
       make_demo_df Lcg.seed Lcg.bounded 40 7 ∅ = Ok (df, st')
       /\ List.length (weekly_forecast df) = List.length (weekly df)
       /\ map fst (weekly_forecast df) = weekly df
       /\ (exists w s, nth_error (weekly df) 0 = Some (w, s)
                       /\ nth_error (weekly_forecast df) 0
                          = Some (w, s, Some s))
       /\ (forall i w s, (3 <= i)%nat ->
             nth_error (weekly df) i = Some (w, s) ->
             exists a b c,
               nth_error (map snd (weekly df)) (i - 3) = Some a
               /\ nth_error (map snd (weekly df)) (i - 2) = Some b
               /\ nth_error (map snd (weekly df)) (i - 1) = Some c
               /\ nth_error (weekly_forecast df) i
                  = Some (w, s, Some (round_half_even ((a + b + c + s) # 4)))).
Proof.
  split; [lia |]. split; [lia |]. split; [lia |].
  destruct (weekly_forecast_boundaries Lcg.seed Lcg.bounded 40 7 ∅ ltac:(lia))
    as [Hrows Hruns].
  destruct (Hruns ltac:(lia) ltac:(lia)) as (df & st' & Hrun).
  exists df, st'. split; [exact Hrun | exact (Hrows df st' Hrun)].
Defined.

Lemma agg_impressions_consistent_witness :
  0 <= 7 /\ 0 <= 8 <= 87029
  /\ exists df st',
       make_demo_df Lcg.seed Lcg.bounded 8 7 ∅ = Ok (df, st')
       /\ series_sum (map a_impressions (agg df)) = series_sum (impressions df).
Proof.
  split; [lia |]. split; [lia |].
  destruct (agg_impressions_consistent Lcg.seed Lcg.bounded 8 7 ∅)
    as [Hrows Hruns].
  destruct (Hruns ltac:(lia) ltac:(lia)) as (df & st' & Hrun).
  exists df, st'. split; [exact Hrun | exact (Hrows df st' Hrun)].
Defined.

Lemma hourly_buckets_witness :
  0 <= 7 /\ 0 <= 200 <= 87029
  /\ exists df st',
       load_data Lcg.seed Lcg.bounded ∅ = Ok (df, st')
       /\ map fst (hourly df) = map Z.of_nat (seq 0 24)
       /\ List.length (hourly df) = 24%nat
       /\ forall h, 200 <= h -> ~ In h (map fst (hourly df)).
Proof.
  split; [lia |]. split; [lia |].
  destruct (hourly_buckets Lcg.seed Lcg.bounded 200 7 ∅) as [Hrows Hruns].
  destruct (Hruns ltac:(lia) ltac:(lia)) as (df & st' & Hrun).
  destruct (Hrows df st' Hrun) as (_ & _ & H24 & Habsent).
  destruct (H24 ltac:(lia)) as [Hkeys Hlen].
  exists df, st'.
  split; [exact Hrun | split; [exact Hkeys | split; [exact Hlen | exact Habsent]]].
Defined.

Lemma daily_is_identity_witness :
  1 <= 5 /\ 0 <= 7 /\ 5 <= 87029
  /\ exists df st',
       make_demo_df Lcg.seed Lcg.bounded 5 7 ∅ = Ok (df, st')
       /\ Z.of_nat (List.length (daily df)) = 5
       /\ daily df = combine (date df) (impressions df).
Proof.
  split; [lia |]. split; [lia |]. split; [lia |].
  destruct (daily_is_identity Lcg.seed Lcg.bounded 5 7 ∅ ltac:(lia))
    as [Hrows Hruns].
  destruct (Hruns ltac:(lia) ltac:(lia)) as (df & st' & Hrun).
  destruct (Hrows df st' Hrun) as (Hlen & Heq & _).
  exists df, st'. split; [exact Hrun | split; [exact Hlen | exact Heq]].
Defined.

Lemma make_demo_df_allocates_one_witness :
  0 <= 7 /\ 0 <= 5 <= 87029
  /\ exists df st' rng,
       make_demo_df Lcg.seed Lcg.bounded 5 7 {[ 0%nat := 1 ]} = Ok (df, st')
       /\ ({[ 0%nat := 1 ]} : gmap nat Lcg.state) !! rng = None
       /\ is_Some (st' !! rng)
       /\ (forall h, h <> rng ->
             st' !! h = ({[ 0%nat := 1 ]} : gmap nat Lcg.state) !! h)
       /\ size st' = S (size ({[ 0%nat := 1 ]} : gmap nat Lcg.state)).
Proof.
  split; [lia |]. split; [lia |].
  destruct (make_demo_df_allocates_one Lcg.seed Lcg.bounded 5 7
              {[ 0%nat := 1 ]}) as (Hheap & Hruns & _).
  destruct (Hruns ltac:(lia) ltac:(lia)) as (df & st' & Hrun).
  destruct (Hheap df st' Hrun) as (rng & Hrng).
  exists df, st', rng. split; [exact Hrun | exact Hrng].
Defined.

Lemma make_demo_df_prefix_witness :
  0 <= 7 /\ 0 <= 5 <= 8 /\ 8 <= 87029
  /\ exists dfn dfm st1' st2',
       make_demo_df Lcg.seed Lcg.bounded 5 7 ∅ = Ok (dfn, st1')
       /\ make_demo_df Lcg.seed Lcg.bounded 8 7 ∅ = Ok (dfm, st2')
       /\ date dfn = firstn 5 (date dfm)
       /\ region dfn = firstn 5 (region dfm).
Proof.
  split; [lia |]. split; [lia |]. split; [lia |].
  apply (make_demo_df_prefix Lcg.seed Lcg.bounded 5 8 7 ∅ ∅); lia.
Defined.

Lemma agg_uniques_consistent_witness :
  0 <= 7 /\ 0 <= 8 <= 87029
  /\ exists df st',
       make_demo_df Lcg.seed Lcg.bounded 8 7 ∅ = Ok (df, st')
       /\ series_sum (map a_uniques (agg df)) = series_sum (uniques df).
Proof.
  split; [lia |]. split; [lia |].
  apply (agg_uniques_consistent Lcg.seed Lcg.bounded 8 7 ∅); lia.
Defined.

Lemma agg_combinations_witness :
  0 <= 7 /\ 0 <= 8 <= 87029
  /\ exists df st',
       make_demo_df Lcg.seed Lcg.bounded 8 7 ∅ = Ok (df, st')
       /\ (List.length (agg df) <= 12)%nat.
Proof.
  split; [lia |]. split; [lia |].
  destruct (agg_combinations Lcg.seed Lcg.bounded lcg_bounded_range 8 7 ∅
              ltac:(lia) ltac:(lia)) as (df & st' & Hrun & _ & Hlen).
  exists df, st'. split; [exact Hrun | exact Hlen].
Defined.

Lemma hourly_means_in_range_witness :
  0 <= 7 /\ 0 <= 30 <= 87029
  /\ exists df st',
       make_demo_df Lcg.seed Lcg.bounded 30 7 ∅ = Ok (df, st')
       /\ forall h m, In (h, m) (hourly df) ->
            exists q, m = Some q
                      /\ (inject_Z 500 <= q)%Q /\ (q < inject_Z 20000)%Q.
Proof.
  split; [lia |]. split; [lia |].
  apply (hourly_means_in_range Lcg.seed Lcg.bounded lcg_bounded_range 30 7 ∅);
    lia.
Defined.

Lemma weekly_table_shape_witness :
  0 <= 7 /\ 0 <= 400 <= 87029
  /\ exists df st',
       make_demo_df Lcg.seed Lcg.bounded 400 7 ∅ = Ok (df, st')
       /\ (List.length (weekly df) <= 53)%nat
       /\ series_sum (map snd (weekly df)) = series_sum (impressions df).
Proof.
  split; [lia |]. split; [lia |].
  destruct (weekly_table_shape Lcg.seed Lcg.bounded 400 7 ∅
              ltac:(lia) ltac:(lia))
    as (df & st' & Hrun & H53 & _ & _ & Htot).
  exists df, st'. split; [exact Hrun | split; [exact H53 | exact Htot]].
Defined.

Lemma weekly_forecast_in_range_witness :
  0 <= 7 /\ 0 <= 40 <= 87029
  /\ exists df st',
       make_demo_df Lcg.seed Lcg.bounded 40 7 ∅ = Ok (df, st')
       /\ List.length (weekly_forecast df) = List.length (weekly df)
       /\ map fst (weekly_forecast df) = weekly df
       /\ forall lo hi,
            (forall w s, In (w, s) (weekly df) -> lo <= s <= hi) ->
            forall w s f, In (w, s, f) (weekly_forecast df) ->
                          exists v, f = Some v /\ lo <= v <= hi.
Proof.
  split; [lia |]. split; [lia |].
  apply (weekly_forecast_in_range Lcg.seed Lcg.bounded 40 7 ∅); lia.
Defined.

Lemma weekly_forecast_short_windows_witness :
  0 <= 7 /\ 0 <= 40 <= 87029
  /\ exists df st',
       make_demo_df Lcg.seed Lcg.bounded 40 7 ∅ = Ok (df, st')
       /\ List.length (weekly_forecast df) = List.length (weekly df)
       /\ (forall w s, nth_error (weekly df) 1 = Some (w, s) ->
             exists a,
               nth_error (map snd (weekly df)) 0 = Some a
               /\ nth_error (weekly_forecast df) 1
                  = Some (w, s, Some (round_half_even ((a + s) # 2))))
       /\ (forall w s, nth_error (weekly df) 2 = Some (w, s) ->
             exists a b,
               nth_error (map snd (weekly df)) 0 = Some a
               /\ nth_error (map snd (weekly df)) 1 = Some b
               /\ nth_error (weekly_forecast df) 2
                  = Some (w, s, Some (round_half_even ((a + b + s) # 3)))).
Proof.
  split; [lia |]. split; [lia |].
  apply (weekly_forecast_short_windows Lcg.seed Lcg.bounded 40 7 ∅); lia.
Defined.

(** The 200 rows of [load_data] make 29 weeks: 28 full ones and a last
    one of 4 days. *)
Lemma weekly_calendar_weeks_witness :
  0 <= 7 /\ 0 <= 200 <= 364
  /\ exists df st',
       load_data Lcg.seed Lcg.bounded ∅ = Ok (df, st')
       /\ weekly df
          = map (fun w =>
                   (Z.of_nat w + 1,
                    series_sum (firstn 7 (skipn (7 * w) (impressions df)))))
                (seq 0 29).
Proof.
  split; [lia |]. split; [lia |].
  apply (weekly_calendar_weeks Lcg.seed Lcg.bounded 200 7 ∅); lia.
Defined.

Lemma weekly_merges_week_one_witness :
  0 <= 7 /\ 365 <= 400 <= 87029
  /\ exists df st',
       make_demo_df Lcg.seed Lcg.bounded 400 7 ∅ = Ok (df, st')
       /\ (8 <= List.length (rows_of_key 1 (week_rows df)))%nat
       /\ exists rest,
            weekly df = (1, series_sum (rows_of_key 1 (week_rows df))) :: rest.
Proof.
  split; [lia |]. split; [lia |].
  destruct (weekly_merges_week_one Lcg.seed Lcg.bounded 400 7 ∅
              ltac:(lia) ltac:(lia))
    as (df & st' & Hrun & _ & _ & H8 & Hrest).
  exists df, st'. split; [exact Hrun | split; [exact H8 | exact Hrest]].
Defined.
